(** * Event-control dashboard: the derived-view computations and the
      subscription lifecycle of [src/components/Dashboard.tsx]

    The file embeds the three React components of the source
    ([TimeCard], [Dashboard], [VenueOccupancy]) as pure functions and
    explicit state-passing machines, and proves the properties the
    specification states about them.

    Conventions of the embedding.
    - A JavaScript Number that holds data (a head count, a capacity, a
      time value in milliseconds) is [JS.number]: an integer, or [NaN].
      Integers below 2^53 are exact in binary64, so [+], [-], [*], [%]
      and the comparisons on them are the ones of [Z].
    - The operations of the source that leave the integers ([/] and the
      product with [0.9]) are computed in IEEE-754 binary64, with the
      Standard Library's executable specification [SpecFloat]
      (precision 53, emax 1024).
    - A value whose shape the source tests at run time (a push payload,
      the fetched [venue_capacity]) is a [JS.value].
    - A [Date] has a time value in UTC milliseconds and, through the
      time zone of the browser, a local time value.  The schedule reads
      the local hours and minutes only and takes the local time value;
      the countdown sets local fields and subtracts time values, so it
      takes the time value and the zone ([Date.Zone]), with the clock
      changes the zone has. *)

From Stdlib Require Import ZArith List String Ascii Bool Lia.
From Stdlib Require Import Sorted Permutation.
From Stdlib Require Import Floats.SpecFloat.
Import ListNotations.

Set Warnings "-register-all".

Local Open Scope string_scope.
Local Open Scope Z_scope.

(* ------------------------------------------------------------------ *)
(** * A fragment of the JavaScript run time                             *)
(* ------------------------------------------------------------------ *)

Module JS.

(** Numbers that carry data: integers, or [NaN]. *)
Inductive number : Type :=
| Num (z : Z)
| NaN.

Definition add (a b : number) : number :=
  match a, b with Num x, Num y => Num (x + y) | _, _ => NaN end.

Definition sub (a b : number) : number :=
  match a, b with Num x, Num y => Num (x - y) | _, _ => NaN end.

Definition mul (a b : number) : number :=
  match a, b with Num x, Num y => Num (x * y) | _, _ => NaN end.

(** [a % b]: the remainder has the sign of the dividend; [x % 0] is NaN. *)
Definition rem (a b : number) : number :=
  match a, b with
  | Num x, Num y => if y =? 0 then NaN else Num (Z.rem x y)
  | _, _ => NaN
  end.

(** Every comparison with [NaN] is false. *)
Definition gt (a b : number) : bool :=
  match a, b with Num x, Num y => y <? x | _, _ => false end.

Definition lt (a b : number) : bool :=
  match a, b with Num x, Num y => x <? y | _, _ => false end.

Definition ge (a b : number) : bool :=
  match a, b with Num x, Num y => y <=? x | _, _ => false end.

(** Dynamically typed values. An object is its list of own properties. *)
Inductive value : Type :=
| VUndefined
| VNull
| VBool (b : bool)
| VNum (n : number)
| VStr (s : string)
| VObj (props : list (string * value)).

(** ToBoolean. *)
Definition truthy (v : value) : bool :=
  match v with
  | VUndefined | VNull => false
  | VBool b => b
  | VNum (Num z) => negb (z =? 0)
  | VNum NaN => false
  | VStr s => negb (s =? "")%string
  | VObj _ => true
  end.

Fixpoint assoc (k : string) (props : list (string * value)) : value :=
  match props with
  | [] => VUndefined
  | (k', v) :: rest => if (k' =? k)%string then v else assoc k rest
  end.

(** [v.k] on a value that is neither null nor undefined: a primitive
    has no own data property of that name. *)
Definition get (v : value) (k : string) : value :=
  match v with
  | VObj props => assoc k props
  | _ => VUndefined
  end.

Definition typeof_is_number (v : value) : bool :=
  match v with VNum _ => true | _ => false end.

(** ** Strings *)

Definition is_space (c : ascii) : bool :=
  let n := nat_of_ascii c in
  ((9 <=? n) && (n <=? 13))%nat || (n =? 32)%nat.

Definition is_digit (c : ascii) : bool :=
  let n := nat_of_ascii c in ((48 <=? n) && (n <=? 57))%nat.

Definition digit_value (c : ascii) : Z := Z.of_nat (nat_of_ascii c) - 48.

Fixpoint rev_string (s acc : string) : string :=
  match s with
  | EmptyString => acc
  | String c r => rev_string r (String c acc)
  end.

Fixpoint trim_start (s : string) : string :=
  match s with
  | String c r => if is_space c then trim_start r else s
  | EmptyString => EmptyString
  end.

Definition trim (s : string) : string :=
  rev_string (trim_start (rev_string (trim_start s) "")) "".

(** The value of a string made of decimal digits only. *)
Fixpoint all_digits (s : string) (acc : Z) : option Z :=
  match s with
  | EmptyString => Some acc
  | String c r =>
      if is_digit c then all_digits r (10 * acc + digit_value c) else None
  end.

Definition unsigned_decimal (s : string) : number :=
  match s with
  | EmptyString => NaN
  | _ => match all_digits s 0 with Some z => Num z | None => NaN end
  end.

(** [Number(s)] on strings: white space is trimmed, the empty string is
    0, an optionally signed run of decimal digits is its value.  The
    other numeric literals of the language (fractions, exponents, radix
    prefixes, [Infinity]) do not occur in the rows this program reads
    and are mapped to [NaN] here. *)
Definition Number (s : string) : number :=
  match trim s with
  | EmptyString => Num 0
  | String "+" r => unsigned_decimal r
  | String "-" r => mul (Num (-1)) (unsigned_decimal r)
  | t => unsigned_decimal t
  end.

(** [s.split(sep)] for a one-character separator. *)
Fixpoint split (sep : ascii) (s : string) : list string :=
  match s with
  | EmptyString => [EmptyString]
  | String c r =>
      if Ascii.eqb c sep then EmptyString :: split sep r
      else match split sep r with
           | h :: t => String c h :: t
           | [] => [String c EmptyString]
           end
  end.

(** The longest prefix of decimal digits, with its value. *)
Fixpoint digit_prefix (s : string) (acc : option Z) : option Z :=
  match s with
  | String c r =>
      if is_digit c
      then digit_prefix r (Some (10 * match acc with Some a => a | None => 0 end
                                 + digit_value c))
      else acc
  | EmptyString => acc
  end.

Definition parse_decimal_prefix (s : string) : number :=
  match digit_prefix s None with Some z => Num z | None => NaN end.

(** Decimal digits of a natural number, most significant first. *)
Fixpoint digits_fuel (fuel : nat) (n : Z) (acc : string) : string :=
  match fuel with
  | O => acc
  | S f =>
      let acc' := String (ascii_of_nat (Z.to_nat (48 + n mod 10))) acc in
      if n / 10 =? 0 then acc' else digits_fuel f (n / 10) acc'
  end.

Definition decimal (n : Z) : string :=
  digits_fuel (S (Z.to_nat (Z.log2 n))) n "".

(** ToString on a number, as a template literal does. *)
Definition toString (n : number) : string :=
  match n with
  | NaN => "NaN"
  | Num z => if z <? 0 then ("-" ++ decimal (- z))%string else decimal z
  end.

(** [parseInt(v)] with no radix, on the values this program passes: the
    argument is converted to a string first, so an integer is returned
    unchanged; a string gives the value of its longest prefix of
    decimal digits after optional white space and sign, [NaN] when
    there is none (a radix prefix [0x] is not modelled). *)
Definition parseInt (v : value) : number :=
  match v with
  | VNum n => n
  | VStr s =>
      match trim_start s with
      | String "+" r => parse_decimal_prefix r
      | String "-" r => mul (Num (-1)) (parse_decimal_prefix r)
      | t => parse_decimal_prefix t
      end
  | _ => NaN
  end.

End JS.

(* ------------------------------------------------------------------ *)
(** * IEEE-754 binary64 arithmetic                                      *)
(* ------------------------------------------------------------------ *)

Module F64.

Definition prec : Z := 53.
Definition emax : Z := 1024.

(** The binary64 value of an integer (exact below 2^53). *)
Definition of_Z (z : Z) : spec_float := binary_normalize prec emax z 0 false.

Definition of_number (n : JS.number) : spec_float :=
  match n with
  | JS.Num z => of_Z z
  | JS.NaN => S754_nan
  end.

Definition div : spec_float -> spec_float -> spec_float := SFdiv prec emax.
Definition mul : spec_float -> spec_float -> spec_float := SFmul prec emax.

(** [a >= b] and [a < b] on binary64 values. *)
Definition geb (a b : spec_float) : bool := SFleb b a.
Definition ltb (a b : spec_float) : bool := SFltb a b.

(** The literal [0.9]: the binary64 value nearest to 9/10. *)
Definition nine_tenths : spec_float := div (of_Z 9) (of_Z 10).

(** The signed integer [m * 2^e] rounded down, for [e] of either sign. *)
Definition signed (s : bool) (m : positive) : Z :=
  if s then Z.neg m else Z.pos m.

(** [Math.floor]. *)
Definition Math_floor (x : spec_float) : spec_float :=
  match x with
  | S754_finite s m e =>
      if 0 <=? e then x else of_Z (Z.shiftr (signed s m) (- e))
  | _ => x
  end.

(** [Math.round]: the integer nearest to [x], ties towards +infinity,
    that is the floor of [x + 1/2] computed exactly. *)
Definition Math_round (x : spec_float) : spec_float :=
  match x with
  | S754_finite s m e =>
      if 0 <=? e then x
      else of_Z (Z.shiftr (2 * signed s m + 2 ^ (- e)) (- e + 1))
  | _ => x
  end.

(** [Math.min] of two values. *)
Definition Math_min (a b : spec_float) : spec_float :=
  match SFcompare a b with
  | None => S754_nan
  | Some Gt => b
  | Some _ => a
  end.

(** The integer a finite value holds, if it holds one. *)
Definition to_Z (x : spec_float) : option Z :=
  match x with
  | S754_zero _ => Some 0
  | S754_finite s m e =>
      if 0 <=? e then Some (signed s m * 2 ^ e)
      else if (signed s m) mod 2 ^ (- e) =? 0
           then Some (signed s m / 2 ^ (- e)) else None
  | _ => None
  end.

(** ToString, as a template literal applies it to the result of
    [Math.floor] or [Math.round]: an integer prints its decimal digits
    (below 10^21), the special values print their names.  Fractions are
    never printed by this program; they map to the empty string. *)
Definition toString (x : spec_float) : string :=
  match x with
  | S754_nan => "NaN"
  | S754_infinity s => if s then "-Infinity" else "Infinity"
  | _ => match to_Z x with
         | Some z => JS.toString (JS.Num z)
         | None => ""
         end
  end.

End F64.

(* ------------------------------------------------------------------ *)
(** * Dates                                                             *)
(* ------------------------------------------------------------------ *)

Module Date.

(** The local time value of a [Date]: the milliseconds its local fields
    (hours, minutes, ...) are read from, [NaN] when the date is invalid.
    The getters depend on a [Date] through this value only. *)
Definition t : Type := JS.number.

(** The time value of a [Date]: milliseconds since the epoch, in UTC.
    It is what [getTime] returns and what [<] and [-] compare. *)
Definition instant : Type := JS.number.

(** The time zone of the browser, as the language reads it: the offset
    (local minus UTC, in milliseconds) in force at a UTC instant
    ([LocalTZA(t, true)]), and the offset by which a local time value is
    turned into an instant ([LocalTZA(t, false)]; for a local time that
    a clock change skips or repeats it is the offset before the change). *)
Record Zone : Type := {
  offset_at : Z -> Z;
  offset_of_local : Z -> Z
}.

Definition msPerSecond : Z := 1000.
Definition msPerMinute : Z := 60000.
Definition msPerHour : Z := 3600000.
Definition msPerDay : Z := 86400000.

Definition lift (f : Z -> Z) (d : JS.number) : JS.number :=
  match d with JS.Num tv => JS.Num (f tv) | JS.NaN => JS.NaN end.

(** [LocalTime(t)] and [UTC(t)]. *)
Definition LocalTime (tz : Zone) (tv : Z) : Z := tv + offset_at tz tv.
Definition UTC (tz : Zone) (tl : Z) : Z := tl - offset_of_local tz tl.

(** The local time value of the date whose time value is [d]. *)
Definition local (tz : Zone) (d : instant) : t := lift (LocalTime tz) d.

Definition getHours : t -> JS.number := lift (fun tv => (tv mod msPerDay) / msPerHour).
Definition getMinutes : t -> JS.number := lift (fun tv => (tv mod msPerHour) / msPerMinute).
Definition getSeconds : t -> JS.number := lift (fun tv => (tv mod msPerMinute) / msPerSecond).
Definition getMilliseconds : t -> JS.number := lift (fun tv => tv mod msPerSecond).
Definition getTime (d : instant) : JS.number := d.

(** The first instant of the day [d] falls in. *)
Definition startOfDay (tv : Z) : Z := tv - tv mod msPerDay.

(** [d.setHours(h, m, s)]: the hours, minutes and seconds of the local
    time are replaced, its day and its milliseconds are kept, and the
    result is turned back into an instant ([TimeClip] is not modelled:
    the time values of this program are far inside its range). *)
Definition setHours (tz : Zone) (d : instant) (h m s : JS.number) : instant :=
  match d, h, m, s with
  | JS.Num tv, JS.Num h, JS.Num m, JS.Num s =>
      let tl := LocalTime tz tv in
      JS.Num (UTC tz (startOfDay tl + h * msPerHour + m * msPerMinute
                      + s * msPerSecond + tl mod msPerSecond))
  | _, _, _, _ => JS.NaN
  end.

(** [d.setDate(d.getDate() + k)]: the local time [k] calendar days
    later, at the same time of the day, turned back into an instant. *)
Definition addDays (tz : Zone) (d : instant) (k : Z) : instant :=
  lift (fun tv => UTC tz (LocalTime tz tv + k * msPerDay)) d.

(** The time [h:m:s.ms] of day number [day]. *)
Definition at_ (day h m s ms : Z) : JS.number :=
  JS.Num (day * msPerDay + h * msPerHour + m * msPerMinute + s * msPerSecond + ms).

(** A zone whose clocks never change. *)
Definition fixed_zone (offset : Z) : Zone :=
  {| offset_at := fun _ => offset; offset_of_local := fun _ => offset |}.

End Date.

(* ------------------------------------------------------------------ *)
(** * TimeCard: the schedule and the countdown                          *)
(* ------------------------------------------------------------------ *)

Module TimeCard.

(** The columns [fetchEventTimings] selects from the current event. *)
Record EventRow : Type := {
  security_call_time : option string;
  main_act_start_time : option string;
  show_down_time : option string;
  show_stop_meeting_time : option string;
  doors_open_time : option string;
  curfew_time : option string;
  event_name : string
}.

Record EventTiming : Type := {
  title : string;
  time : string;
  isNext : bool
}.

(** An entry of [timingsWithMinutes]. *)
Record TimingWithMinutes : Type := {
  tm_title : string;
  tm_time : string;
  minutesSinceMidnight : JS.number
}.

(** The six candidate entries, in the order the source lists them. *)
Definition candidates (event : EventRow) : list (string * option string) :=
  [ ("Security Call", security_call_time event);
    ("Doors Open", doors_open_time event);
    (event_name event, main_act_start_time event);
    ("Show Stop Meeting", show_stop_meeting_time event);
    ("Show Down", show_down_time event);
    ("Curfew", curfew_time event) ].

(** [.filter(timing => timing.time)]: null and the empty string are falsy. *)
Definition is_set (c : string * option string) : bool :=
  match snd c with
  | Some s => JS.truthy (JS.VStr s)
  | None => false
  end.

Definition time_of (c : string * option string) : string :=
  match snd c with Some s => s | None => "" end.

(** [const [hours, minutes] = time.split(':').map(Number)]: a missing
    component is [undefined], which arithmetic turns into [NaN]. *)
Definition hours_minutes (time : string) : JS.number * JS.number :=
  let parts := map JS.Number (JS.split ":" time) in
  (nth 0 parts JS.NaN, nth 1 parts JS.NaN).

Definition timeInMinutes (time : string) : JS.number :=
  let '(hours, minutes) := hours_minutes time in
  JS.add (JS.mul hours (JS.Num 60)) minutes.

Definition withMinutes (c : string * option string) : TimingWithMinutes :=
  {| tm_title := fst c;
     tm_time := time_of c;
     minutesSinceMidnight := timeInMinutes (time_of c) |}.

(** The comparator [(a, b) => a.minutesSinceMidnight - b.minutesSinceMidnight]
    is positive: [a] has to come after [b].  A [NaN] result counts as 0. *)
Definition comes_after (a b : TimingWithMinutes) : bool :=
  match JS.sub (minutesSinceMidnight a) (minutesSinceMidnight b) with
  | JS.Num d => 0 <? d
  | JS.NaN => false
  end.

(** [Array.prototype.sort] is stable; a stable insertion sort computes
    the same array. *)
Fixpoint insert (x : TimingWithMinutes) (l : list TimingWithMinutes)
  : list TimingWithMinutes :=
  match l with
  | [] => [x]
  | y :: r => if comes_after x y then y :: insert x r else x :: l
  end.

Definition sort (l : list TimingWithMinutes) : list TimingWithMinutes :=
  fold_right insert [] l.

(** [.map((timing, index) => ({..., isNext: index === 0}))]. *)
Definition mark (index : nat) (timing : TimingWithMinutes) : EventTiming :=
  {| title := tm_title timing;
     time := tm_time timing;
     isNext := Nat.eqb index 0 |}.

Fixpoint mapi {A B : Type} (f : nat -> A -> B) (i : nat) (l : list A) : list B :=
  match l with
  | [] => []
  | x :: r => f i x :: mapi f (S i) r
  end.

Definition currentTimeNumber (now : Date.t) : JS.number :=
  JS.add (JS.mul (Date.getHours now) (JS.Num 60)) (Date.getMinutes now).

Definition futureTimings (event : EventRow) (now : Date.t) : list TimingWithMinutes :=
  sort (filter (fun t => JS.gt (minutesSinceMidnight t) (currentTimeNumber now))
               (map withMinutes (filter is_set (candidates event)))).

Definition nextThreeTimings (event : EventRow) (now : Date.t) : list EventTiming :=
  mapi mark 0 (firstn 3 (futureTimings event now)).

(** The component's state cells (the wall-clock text is not modelled). *)
Record State : Type := {
  eventTimings : list EventTiming;
  countdown : string;
  nextEvent : option EventTiming;
  artistName : string
}.

Definition initial : State :=
  {| eventTimings := []; countdown := ""; nextEvent := None; artistName := "" |}.

(** [fetchEventTimings], once the read has resolved with [event];
    [now] is the local time value of [new Date()], of which the function
    reads the hours and the minutes only. *)
Definition fetchEventTimings (event : option EventRow) (now : Date.t) (st : State) : State :=
  match event with
  | None => st
  | Some ev =>
      let next := nextThreeTimings ev now in
      {| eventTimings := next;
         countdown := countdown st;
         nextEvent := nth_error next 0;
         artistName := event_name ev |}
  end.

(** ** The countdown *)

(** [eventTime] after [setHours] and the optional roll to the next day;
    [now] is the time value of [new Date()], [tz] the zone of the
    browser. *)
Definition eventTime (tz : Date.Zone) (now : Date.instant) (next : EventTiming)
  : Date.instant :=
  let '(hours, minutes) := hours_minutes (time next) in
  let eventTime := Date.setHours tz now hours minutes (JS.Num 0) in
  if JS.lt eventTime now then Date.addDays tz eventTime 1 else eventTime.

Definition floor_div (a : JS.number) (b : Z) : spec_float :=
  F64.Math_floor (F64.div (F64.of_number a) (F64.of_Z b)).

Definition calculateCountdown (tz : Date.Zone) (now : Date.instant)
  (next : EventTiming) : string :=
  let diff := JS.sub (Date.getTime (eventTime tz now next)) (Date.getTime now) in
  let hours_remaining := floor_div diff (1000 * 60 * 60) in
  let minutes_remaining :=
    floor_div (JS.rem diff (JS.Num (1000 * 60 * 60))) (1000 * 60) in
  let seconds_remaining :=
    floor_div (JS.rem diff (JS.Num (1000 * 60))) 1000 in
  F64.toString hours_remaining ++ "h " ++
  F64.toString minutes_remaining ++ "m " ++
  F64.toString seconds_remaining ++ "s".

(** One run of the countdown effect's timer callback. *)
Definition tick (tz : Date.Zone) (now : Date.instant) (st : State) : State :=
  match nextEvent st with
  | None => st
  | Some next =>
      {| eventTimings := eventTimings st;
         countdown := calculateCountdown tz now next;
         nextEvent := nextEvent st;
         artistName := artistName st |}
  end.

End TimeCard.

Definition sample_event : TimeCard.EventRow :=
  {| TimeCard.security_call_time := None;
     TimeCard.main_act_start_time := Some "20:00";
     TimeCard.show_down_time := None;
     TimeCard.show_stop_meeting_time := None;
     TimeCard.doors_open_time := Some "18:00";
     TimeCard.curfew_time := Some "23:00";
     TimeCard.event_name := "Main Act" |}.

(** Europe/London in 2026: summer time (one hour ahead of UTC) from
    29 March 01:00 UTC to 25 October 01:00 UTC.  The local hour from
    01:00 that is skipped in March, and the first of the two passes of
    the hour repeated in October, are read with the offset in force
    before the change. *)
Definition europe_london_2026 : Date.Zone :=
  {| Date.offset_at := fun tv =>
       if (1774746000000 <=? tv) && (tv <? 1792890000000) then 3600000 else 0;
     Date.offset_of_local := fun tl =>
       if (1774749600000 <=? tl) && (tl <? 1792893600000) then 3600000 else 0 |}.

(* ------------------------------------------------------------------ *)
(** * The backend client: reads, push channels, the console             *)
(* ------------------------------------------------------------------ *)

Module Backend.

(** The error object a read resolves with. *)
Record PgError : Type := { code : string; message : string }.

(** How an awaited read settles: the promise resolves with
    [{ data, error }], or it rejects. *)
Inductive settled (A : Type) : Type :=
| Resolved (data : option A) (error : option PgError)
| Rejected (reason : string).

Arguments Resolved {A} data error.
Arguments Rejected {A} reason.

(** A push channel object: [chan_id] is its identity, [filter] the
    [event_id=eq.…] filter of its listeners, if any. *)
Record Channel : Type := {
  chan_id : nat;
  topic : string;
  filter : option string
}.

Inductive Op : Type :=
| Subscribe (c : Channel)
| Unsubscribe (c : Channel).

(** What a component instance sees of the outside: the channels it has
    subscribed and not unsubscribed, the calls it made on channels, the
    console, and the promises that rejected with nobody to catch. *)
Record Env : Type := {
  live : list Channel;
  ops : list Op;
  console : list string;
  next_chan : nat;
  unhandled : list string
}.

Definition empty : Env :=
  {| live := []; ops := []; console := []; next_chan := O; unhandled := [] |}.

Definition log (msg : string) (e : Env) : Env :=
  {| live := live e; ops := ops e; console := console e ++ [msg];
     next_chan := next_chan e; unhandled := unhandled e |}.

Definition same_channel (a b : Channel) : bool := Nat.eqb (chan_id a) (chan_id b).

(** [supabase.channel(topic).on(…).subscribe()]. *)
Definition subscribe (topic : string) (flt : option string) (e : Env) : Channel * Env :=
  let c := {| chan_id := next_chan e; topic := topic; filter := flt |} in
  (c, {| live := live e ++ [c]; ops := ops e ++ [Subscribe c];
         console := console e; next_chan := S (next_chan e);
         unhandled := unhandled e |}).

(** [c.unsubscribe()]. *)
Definition unsubscribe (c : Channel) (e : Env) : Env :=
  {| live := List.filter (fun c' => negb (same_channel c c')) (live e);
     ops := ops e ++ [Unsubscribe c];
     console := console e; next_chan := next_chan e;
     unhandled := unhandled e |}.

Definition reject (reason : string) (e : Env) : Env :=
  {| live := live e; ops := ops e; console := console e;
     next_chan := next_chan e; unhandled := unhandled e ++ [reason] |}.

End Backend.

(* ------------------------------------------------------------------ *)
(** * Exceptions and suspension of an async function                    *)
(* ------------------------------------------------------------------ *)

Module Async.

(** How a piece of code ends: normally with a value, or by throwing. *)
Inductive completion (A : Type) : Type :=
| Normal (a : A)
| Throw (exn : string).

Arguments Normal {A} a.
Arguments Throw {A} exn.

(** Code acting on a state [S]. *)
Definition M (S A : Type) : Type := S -> S * completion A.

Definition ret {S A} (a : A) : M S A := fun s => (s, Normal a).

Definition throw {S A} (exn : string) : M S A := fun s => (s, Throw exn).

Definition bind {S A B} (m : M S A) (k : A -> M S B) : M S B :=
  fun s => match m s with
           | (s1, Normal a) => k a s1
           | (s1, Throw e) => (s1, Throw e)
           end.

(** A statement that cannot throw. *)
Definition exec {S} (f : S -> S) : M S unit := fun s => (f s, Normal tt).

(** Where the body of an async function stops: at an [await] (with the
    label of the continuation), or at its end. *)
Inductive stop (P : Type) : Type :=
| Await (phase : P)
| Return.

Arguments Await {P} phase.
Arguments Return {P}.

(** [try { body } catch (e) { handler e } finally { fin }] around a
    body that may suspend: the suspension leaves the [try] pending, the
    [finally] block runs when the body ends or throws. *)
Definition try_catch_finally {S P}
  (body : M S (stop P)) (handler : string -> M S unit) (fin : M S unit)
  : M S (stop P) :=
  fun s =>
    match body s with
    | (s1, Normal (Await ph)) => (s1, Normal (Await ph))
    | (s1, Normal Return) => bind fin (fun _ => ret Return) s1
    | (s1, Throw e) =>
        match handler e s1 with
        | (s2, Normal _) => bind fin (fun _ => ret Return) s2
        | (s2, Throw e') => bind fin (fun _ => throw e') s2
        end
    end.

(** [try { body } catch (e) { handler e }]. *)
Definition try_catch {S P}
  (body : M S (stop P)) (handler : string -> M S unit) : M S (stop P) :=
  fun s =>
    match body s with
    | (s1, Throw e) => bind (handler e) (fun _ => ret Return) s1
    | r => r
    end.

End Async.

Notation "x <- m ;; k" := (Async.bind m (fun x => k))
  (at level 61, m at next level, right associativity).
Notation "m ;;; k" := (Async.bind m (fun _ => k))
  (at level 61, right associativity).

(* ------------------------------------------------------------------ *)
(** * Dashboard: incident statistics and the incident channel           *)
(* ------------------------------------------------------------------ *)

Module Dashboard.

Import Backend Async.

(** The columns of an [incident_logs] row the statistics read; the two
    flags are tested for truthiness only. *)
Record Incident : Type := {
  incident_type : string;
  is_closed : JS.value;
  action_taken : JS.value
}.

Record Stats : Type := {
  total : nat;
  high : nat;
  open : nat;
  inProgress : nat;
  closed : nat;
  logged : nat;
  avgResolution : nat;
  refusals : nat;
  ejections : nat;
  medical : nat
}.

Definition zero_stats : Stats :=
  {| total := 0; high := 0; open := 0; inProgress := 0; closed := 0;
     logged := 0; avgResolution := 0; refusals := 0; ejections := 0;
     medical := 0 |}%nat.

(** [xs.includes(x)] on strings. *)
Definition includes (xs : list string) (x : string) : bool :=
  existsb (fun y => (y =? x)%string) xs.

(** The object [fetchIncidentStats] passes to [setIncidentStats]. *)
Definition computeStats (incidents : list Incident) : Stats :=
  let nonSitRepIncidents :=
    List.filter (fun i => negb (incident_type i =? "Sit Rep")%string) incidents in
  let sitRepIncidents :=
    List.filter (fun i => (incident_type i =? "Sit Rep")%string) incidents in
  {| total := List.length incidents;
     high := List.length (List.filter
               (fun i => includes ["Ejection"; "Code Green"; "Code Black"; "Code Pink"]
                                  (incident_type i)) incidents);
     open := List.length (List.filter (fun i => negb (JS.truthy (is_closed i)))
                                 nonSitRepIncidents);
     inProgress := List.length (List.filter
                     (fun i => negb (JS.truthy (is_closed i))
                               && JS.truthy (action_taken i))
                     nonSitRepIncidents);
     closed := List.length (List.filter (fun i => JS.truthy (is_closed i))
                                   nonSitRepIncidents);
     logged := List.length sitRepIncidents;
     avgResolution := 0%nat;
     refusals := List.length (List.filter
                   (fun i => (incident_type i =? "Refusal")%string) incidents);
     ejections := List.length (List.filter
                    (fun i => (incident_type i =? "Ejection")%string) incidents);
     medical := List.length (List.filter
                  (fun i => includes ["Code Green"; "Code Purple"] (incident_type i))
                  incidents) |}.

(** The row of the [events] table both reads select. *)
Record EventIdRow : Type := { id : string }.

(** The awaits of the two async functions. *)
Inductive Phase : Type :=
| AwaitCheck        (* checkCurrentEvent: the current-event read *)
| AwaitCurrent      (* fetchIncidentStats: the current-event read *)
| AwaitIncidents.   (* fetchIncidentStats: the incidents read *)

(** One mounted instance of the component with its surroundings. *)
Record World : Type := {
  hasCurrentEvent : bool;
  currentEventId : option string;
  incidentStats : Stats;
  subscriptionRef : option Channel;
  mounted : bool;                 (* React still holds the instance *)
  effect_ran : bool;              (* the effect with dependencies [[]] has run *)
  pending : list (nat * Phase);   (* suspended calls, by call number *)
  next_call : nat;
  env : Env
}.

Definition initial : World :=
  {| hasCurrentEvent := false; currentEventId := None;
     incidentStats := zero_stats; subscriptionRef := None;
     mounted := true; effect_ran := false; pending := []; next_call := O;
     env := Backend.empty |}.

Definition with_env (f : Env -> Env) (w : World) : World :=
  {| hasCurrentEvent := hasCurrentEvent w; currentEventId := currentEventId w;
     incidentStats := incidentStats w; subscriptionRef := subscriptionRef w;
     mounted := mounted w; effect_ran := effect_ran w; pending := pending w;
     next_call := next_call w; env := f (env w) |}.

Definition with_ref (r : option Channel) (w : World) : World :=
  {| hasCurrentEvent := hasCurrentEvent w; currentEventId := currentEventId w;
     incidentStats := incidentStats w; subscriptionRef := r;
     mounted := mounted w; effect_ran := effect_ran w; pending := pending w;
     next_call := next_call w; env := env w |}.

Definition with_lifecycle (m ran : bool) (w : World) : World :=
  {| hasCurrentEvent := hasCurrentEvent w; currentEventId := currentEventId w;
     incidentStats := incidentStats w; subscriptionRef := subscriptionRef w;
     mounted := m; effect_ran := ran; pending := pending w;
     next_call := next_call w; env := env w |}.

Definition with_pending (p : list (nat * Phase)) (n : nat) (w : World) : World :=
  {| hasCurrentEvent := hasCurrentEvent w; currentEventId := currentEventId w;
     incidentStats := incidentStats w; subscriptionRef := subscriptionRef w;
     mounted := mounted w; effect_ran := effect_ran w; pending := p;
     next_call := n; env := env w |}.

(** The state setters.  React applies an update only while it holds the
    instance; on an unmounted instance the call does nothing. *)
Definition setIncidentStats (s : Stats) (w : World) : World :=
  if mounted w then
    {| hasCurrentEvent := hasCurrentEvent w; currentEventId := currentEventId w;
       incidentStats := s; subscriptionRef := subscriptionRef w;
       mounted := mounted w; effect_ran := effect_ran w; pending := pending w;
       next_call := next_call w; env := env w |}
  else w.

Definition setCurrentEventId (i : option string) (w : World) : World :=
  if mounted w then
    {| hasCurrentEvent := hasCurrentEvent w; currentEventId := i;
       incidentStats := incidentStats w; subscriptionRef := subscriptionRef w;
       mounted := mounted w; effect_ran := effect_ran w; pending := pending w;
       next_call := next_call w; env := env w |}
  else w.

Definition setHasCurrentEvent (b : bool) (w : World) : World :=
  if mounted w then
    {| hasCurrentEvent := b; currentEventId := currentEventId w;
       incidentStats := incidentStats w; subscriptionRef := subscriptionRef w;
       mounted := mounted w; effect_ran := effect_ran w; pending := pending w;
       next_call := next_call w; env := env w |}
  else w.

(** Starting an async function: it runs to its first [await] and is
    left suspended there under a fresh call number. *)
Definition suspend (ph : Phase) (w : World) : World :=
  with_pending (pending w ++ [(next_call w, ph)]) (S (next_call w)) w.

Definition checkCurrentEvent : World -> World := suspend AwaitCheck.

Definition fetchIncidentStats : World -> World := suspend AwaitCurrent.

(** [checkCurrentEvent] after its read has settled. *)
Definition checkCurrentEvent_resume (r : settled EventIdRow) : M World (stop Phase) :=
  try_catch
    (match r with
     | Rejected reason => throw reason
     | Resolved event _ =>
         exec (setCurrentEventId
                 (match event with
                  | Some ev => if JS.truthy (JS.VStr (id ev))
                               then Some (id ev) else None
                  | None => None
                  end)) ;;;
         exec (setHasCurrentEvent
                 (match event with Some _ => true | None => false end)) ;;;
         ret Return
     end)
    (fun _ => exec (with_env (log "Error checking current event:"))).

(** [fetchIncidentStats] after its first read has settled… *)
Definition fetchIncidentStats_current (r : settled EventIdRow) : M World (stop Phase) :=
  try_catch
    (match r with
     | Rejected reason => throw reason
     | Resolved None _ => ret Return
     | Resolved (Some _) _ => ret (Await AwaitIncidents)
     end)
    (fun _ => exec (with_env (log "Error fetching incident stats:"))).

(** … and after its second read has settled. *)
Definition fetchIncidentStats_incidents (r : settled (list Incident))
  : M World (stop Phase) :=
  try_catch
    (match r with
     | Rejected reason => throw reason
     | Resolved None _ => ret Return
     | Resolved (Some incidents) _ =>
         exec (setIncidentStats (computeStats incidents)) ;;; ret Return
     end)
    (fun _ => exec (with_env (log "Error fetching incident stats:"))).

(** The [cleanup] closure. *)
Definition cleanup (w : World) : World :=
  match subscriptionRef w with
  | Some c =>
      with_ref None
        (with_env (unsubscribe c)
           (with_env (log "Cleaning up dashboard subscription") w))
  | None => w
  end.

(** The body of the effect; [now] is what [Date.now()] returns. *)
Definition effect (now : Z) (w : World) : World :=
  let w := checkCurrentEvent w in
  let w := fetchIncidentStats w in
  let w := cleanup w in
  let '(c, e) :=
    subscribe ("dashboard_incident_changes_" ++ JS.toString (JS.Num now)) None (env w) in
  with_ref (Some c) (with_env (fun _ => e) w).

Inductive Event : Type :=
| Render (now : Z)                 (* React commits a render of the instance *)
| Unmount
| CheckSettled (call : nat) (r : settled EventIdRow)
| CurrentSettled (call : nat) (r : settled EventIdRow)
| IncidentsSettled (call : nat) (r : settled (list Incident))
| Notification                     (* a change of [incident_logs] is pushed *)
| IncidentCreated                  (* the modal's [onIncidentCreated] *)
| EventCreated.                    (* the modal's [onEventCreated] *)

Definition phase_eqb (a b : Phase) : bool :=
  match a, b with
  | AwaitCheck, AwaitCheck | AwaitCurrent, AwaitCurrent
  | AwaitIncidents, AwaitIncidents => true
  | _, _ => false
  end.

Definition is_pending (call : nat) (ph : Phase) (w : World) : bool :=
  existsb (fun p => Nat.eqb (fst p) call && phase_eqb (snd p) ph) (pending w).

Definition drop_call (call : nat) (w : World) : World :=
  with_pending (List.filter (fun p => negb (Nat.eqb (fst p) call)) (pending w))
               (next_call w) w.

(** Resuming the suspended call [call] with the body [k]. *)
Definition resume (call : nat) (ph : Phase) (k : M World (stop Phase)) (w : World)
  : World :=
  if is_pending call ph w then
    match k (drop_call call w) with
    | (w1, Normal (Await ph')) =>
        with_pending (pending w1 ++ [(call, ph')]) (next_call w1) w1
    | (w1, Normal Return) => w1
    | (w1, Throw e) => with_env (reject e) w1
    end
  else w.

Definition step (ev : Event) (w : World) : World :=
  match ev with
  | Render now =>
      if mounted w && negb (effect_ran w)
      then with_lifecycle true true (effect now w) else w
  | Unmount =>
      if mounted w
      then with_lifecycle false (effect_ran w)
             (if effect_ran w then cleanup w else w)
      else w
  | CheckSettled call r => resume call AwaitCheck (checkCurrentEvent_resume r) w
  | CurrentSettled call r => resume call AwaitCurrent (fetchIncidentStats_current r) w
  | IncidentsSettled call r =>
      resume call AwaitIncidents (fetchIncidentStats_incidents r) w
  | Notification => fold_left (fun w _ => fetchIncidentStats w) (live (env w)) w
  | IncidentCreated => if mounted w then fetchIncidentStats w else w
  | EventCreated => if mounted w then checkCurrentEvent w else w
  end.

Definition run (evs : list Event) (w : World) : World :=
  fold_left (fun w ev => step ev w) evs w.

End Dashboard.

Definition sit_rep : Dashboard.Incident :=
  {| Dashboard.incident_type := "Sit Rep";
     Dashboard.is_closed := JS.VBool false;
     Dashboard.action_taken := JS.VNull |}.

Definition open_ejection : Dashboard.Incident :=
  {| Dashboard.incident_type := "Ejection";
     Dashboard.is_closed := JS.VBool false;
     Dashboard.action_taken := JS.VNull |}.

Definition closed_refusal : Dashboard.Incident :=
  {| Dashboard.incident_type := "Refusal";
     Dashboard.is_closed := JS.VBool true;
     Dashboard.action_taken := JS.VStr "Refused entry" |}.

(* ------------------------------------------------------------------ *)
(** * VenueOccupancy: the occupancy tracker                             *)
(* ------------------------------------------------------------------ *)

Module VenueOccupancy.

Import Backend Async.

(** The rows of the two reads of [fetchData]. *)
Record EventRow : Type := { venue_capacity : JS.value }.
Record AttendanceRow : Type := { count : JS.number }.

(** The payload of a push notification. *)
Record Payload : Type := { new : JS.value }.

Inductive ChangeKind : Type := INSERT | UPDATE | DELETE.

(** The awaits of [fetchData]. *)
Inductive Phase : Type :=
| AwaitEvent
| AwaitAttendance.

(** One instance of the component with its surroundings. *)
Record World : Type := {
  currentCount : JS.number;
  loading : bool;
  venueCapacity : JS.number;
  subscriptionRef : option Channel;
  mounted : bool;                  (* React still holds the instance *)
  deps : option (option string);   (* dependencies of the last effect run *)
  has_cleanup : bool;              (* that run returned [cleanup] *)
  pending : list (nat * Phase);    (* suspended [fetchData] calls *)
  next_call : nat;
  env : Env
}.

Definition initial : World :=
  {| currentCount := JS.Num 0; loading := true; venueCapacity := JS.Num 3500;
     subscriptionRef := None; mounted := true; deps := None;
     has_cleanup := false; pending := []; next_call := O;
     env := Backend.empty |}.

Definition with_env (f : Env -> Env) (w : World) : World :=
  {| currentCount := currentCount w; loading := loading w;
     venueCapacity := venueCapacity w; subscriptionRef := subscriptionRef w;
     mounted := mounted w; deps := deps w; has_cleanup := has_cleanup w;
     pending := pending w; next_call := next_call w; env := f (env w) |}.

Definition with_ref (r : option Channel) (w : World) : World :=
  {| currentCount := currentCount w; loading := loading w;
     venueCapacity := venueCapacity w; subscriptionRef := r;
     mounted := mounted w; deps := deps w; has_cleanup := has_cleanup w;
     pending := pending w; next_call := next_call w; env := env w |}.

Definition with_lifecycle (m : bool) (d : option (option string)) (c : bool)
  (w : World) : World :=
  {| currentCount := currentCount w; loading := loading w;
     venueCapacity := venueCapacity w; subscriptionRef := subscriptionRef w;
     mounted := m; deps := d; has_cleanup := c;
     pending := pending w; next_call := next_call w; env := env w |}.

Definition with_pending (p : list (nat * Phase)) (n : nat) (w : World) : World :=
  {| currentCount := currentCount w; loading := loading w;
     venueCapacity := venueCapacity w; subscriptionRef := subscriptionRef w;
     mounted := mounted w; deps := deps w; has_cleanup := has_cleanup w;
     pending := p; next_call := n; env := env w |}.

(** The state setters.  React applies an update only while it holds the
    instance; on an unmounted instance the call does nothing. *)
Definition setCurrentCount (n : JS.number) (w : World) : World :=
  if mounted w then
    {| currentCount := n; loading := loading w;
       venueCapacity := venueCapacity w; subscriptionRef := subscriptionRef w;
       mounted := mounted w; deps := deps w; has_cleanup := has_cleanup w;
       pending := pending w; next_call := next_call w; env := env w |}
  else w.

Definition setLoading (b : bool) (w : World) : World :=
  if mounted w then
    {| currentCount := currentCount w; loading := b;
       venueCapacity := venueCapacity w; subscriptionRef := subscriptionRef w;
       mounted := mounted w; deps := deps w; has_cleanup := has_cleanup w;
       pending := pending w; next_call := next_call w; env := env w |}
  else w.

Definition setVenueCapacity (n : JS.number) (w : World) : World :=
  if mounted w then
    {| currentCount := currentCount w; loading := loading w;
       venueCapacity := n; subscriptionRef := subscriptionRef w;
       mounted := mounted w; deps := deps w; has_cleanup := has_cleanup w;
       pending := pending w; next_call := next_call w; env := env w |}
  else w.

(** The [cleanup] closure. *)
Definition cleanup (w : World) : World :=
  match subscriptionRef w with
  | Some c =>
      with_ref None
        (with_env (unsubscribe c)
           (with_env (log "Cleaning up subscription") w))
  | None => w
  end.

(** ** [fetchData] *)

(** The [catch] and [finally] blocks. *)
Definition fetchData_catch (_ : string) : M World unit :=
  exec (with_env (log "Error fetching occupancy data:")) ;;;
  exec (setCurrentCount (JS.Num 0)) ;;;
  exec (setVenueCapacity (JS.Num 3500)).

Definition fetchData_finally : M World unit := exec (setLoading false).

(** The call: up to the first [await]. *)
Definition fetchData (w : World) : World :=
  let w := setLoading true w in
  with_pending (pending w ++ [(next_call w, AwaitEvent)]) (S (next_call w)) w.

(** [eventData?.venue_capacity]. *)
Definition fetched_capacity (eventData : option EventRow) : JS.value :=
  match eventData with
  | Some row => venue_capacity row
  | None => JS.VUndefined
  end.

(** From the first [await] to the second. *)
Definition fetchData_event (r : settled EventRow) : M World (stop Phase) :=
  try_catch_finally
    (match r with
     | Rejected reason => throw reason
     | Resolved eventData (Some eventError) => throw (message eventError)
     | Resolved eventData None =>
         (if JS.truthy (fetched_capacity eventData)
          then exec (setVenueCapacity (JS.parseInt (fetched_capacity eventData)))
          else ret tt) ;;;
         ret (Await AwaitAttendance)
     end)
    fetchData_catch fetchData_finally.

(** [attendanceError && attendanceError.code !== 'PGRST116']. *)
Definition unexpected (attendanceError : option PgError) : option PgError :=
  match attendanceError with
  | Some e => if (code e =? "PGRST116")%string then None else Some e
  | None => None
  end.

(** From the second [await] to the end. *)
Definition fetchData_attendance (r : settled AttendanceRow) : M World (stop Phase) :=
  try_catch_finally
    (match r with
     | Rejected reason => throw reason
     | Resolved attendanceData attendanceError =>
         match unexpected attendanceError with
         | Some e => throw (message e)
         | None =>
             match attendanceData with
             | Some row => exec (setCurrentCount (count row))
             | None => exec (setCurrentCount (JS.Num 0))
             end ;;;
             ret Return
         end
     end)
    fetchData_catch fetchData_finally.

(** ** The push listeners *)

Definition pushed_count (payload : Payload) : JS.value := JS.get (new payload) "count".

Definition apply_pushed_count (payload : Payload) (w : World) : World :=
  if JS.truthy (new payload) && JS.typeof_is_number (pushed_count payload)
  then match pushed_count payload with
       | JS.VNum n => setCurrentCount n w
       | _ => w
       end
  else w.

Definition onInsert (payload : Payload) (w : World) : World :=
  apply_pushed_count payload (with_env (log "Attendance INSERT received:") w).

Definition onUpdate (payload : Payload) (w : World) : World :=
  apply_pushed_count payload (with_env (log "Attendance UPDATE received:") w).

(** ** The effect *)

(** [!currentEventId] is false: the key is a non-empty string. *)
Definition valid_key (currentEventId : option string) : option string :=
  match currentEventId with
  | Some k => if JS.truthy (JS.VStr k) then Some k else None
  | None => None
  end.

Definition channel_topic (k : string) (now : Z) : string :=
  "attendance_changes_" ++ k ++ "_" ++ JS.toString (JS.Num now).

(** The body of the effect; the result tells whether it returned
    [cleanup].  [now] is what [Date.now()] returns. *)
Definition effect (currentEventId : option string) (now : Z) (w : World)
  : World * bool :=
  match valid_key currentEventId with
  | None =>
      (cleanup (with_env (log "No currentEventId provided") w), false)
  | Some k =>
      let w := with_env (log "Setting up venue occupancy for event:") w in
      let w := cleanup w in
      let '(c, e) := subscribe (channel_topic k now) (Some k) (env w) in
      let w := with_ref (Some c) (with_env (fun _ => e) w) in
      (fetchData w, true)
  end.

Inductive Event : Type :=
| Render (currentEventId : option string) (now : Z)
    (* React commits a render of the instance with this prop *)
| Unmount
| EventSettled (call : nat) (r : settled EventRow)
| AttendanceSettled (call : nat) (r : settled AttendanceRow)
| Notification (kind : ChangeKind) (event_id : string) (payload : Payload).
    (* the backend pushes a change of an [attendance_records] row *)

Definition key_eqb (a b : option string) : bool :=
  match a, b with
  | Some x, Some y => (x =? y)%string
  | None, None => true
  | _, _ => false
  end.

Definition deps_changed (w : World) (currentEventId : option string) : bool :=
  match deps w with
  | Some d => negb (key_eqb d currentEventId)
  | None => true
  end.

Definition phase_eqb (a b : Phase) : bool :=
  match a, b with
  | AwaitEvent, AwaitEvent | AwaitAttendance, AwaitAttendance => true
  | _, _ => false
  end.

Definition is_pending (call : nat) (ph : Phase) (w : World) : bool :=
  existsb (fun p => Nat.eqb (fst p) call && phase_eqb (snd p) ph) (pending w).

Definition drop_call (call : nat) (w : World) : World :=
  with_pending (List.filter (fun p => negb (Nat.eqb (fst p) call)) (pending w))
               (next_call w) w.

(** Resuming the suspended call [call] with the body [k]. *)
Definition resume (call : nat) (ph : Phase) (k : M World (stop Phase)) (w : World)
  : World :=
  if is_pending call ph w then
    match k (drop_call call w) with
    | (w1, Normal (Await ph')) =>
        with_pending (pending w1 ++ [(call, ph')]) (next_call w1) w1
    | (w1, Normal Return) => w1
    | (w1, Throw e) => with_env (reject e) w1
    end
  else w.

(** A notification reaches the listeners of every live channel whose
    filter matches the changed row. *)
Definition deliver (kind : ChangeKind) (event_id : string) (payload : Payload)
  (c : Channel) (w : World) : World :=
  if key_eqb (filter c) (Some event_id) then
    match kind with
    | INSERT => onInsert payload w
    | UPDATE => onUpdate payload w
    | DELETE => w
    end
  else w.

(** After a commit React runs the effect when it is the first commit
    or [currentEventId] has changed, the previous run's cleanup first. *)
Definition commit (currentEventId : option string) (now : Z) (w : World) : World :=
  if deps_changed w currentEventId then
    let w1 := if has_cleanup w then cleanup w else w in
    let '(w2, returned) := effect currentEventId now w1 in
    with_lifecycle true (Some currentEventId) returned w2
  else w.

(** At every render React calls the component function, whose body
    logs the state, and commits; on unmount it runs the last cleanup. *)
Definition step (ev : Event) (w : World) : World :=
  match ev with
  | Render currentEventId now =>
      if mounted w
      then commit currentEventId now (with_env (log "Render state:") w)
      else w
  | Unmount =>
      if mounted w
      then with_lifecycle false (deps w) false
             (if has_cleanup w then cleanup w else w)
      else w
  | EventSettled call r => resume call AwaitEvent (fetchData_event r) w
  | AttendanceSettled call r =>
      resume call AwaitAttendance (fetchData_attendance r) w
  | Notification kind event_id payload =>
      fold_left (fun w c => deliver kind event_id payload c w) (live (env w)) w
  end.

Definition run (evs : list Event) (w : World) : World :=
  fold_left (fun w ev => step ev w) evs w.

(** The state the view retains between renders. *)
Definition retained (w : World) : JS.number * bool * JS.number :=
  (currentCount w, loading w, venueCapacity w).

(** ** Rendering *)

(** A computation that records the divisor of every [/] it evaluates. *)
Definition Traced (A : Type) : Type := A * list JS.number.

Definition pure {A} (a : A) : Traced A := (a, []).

Definition and_then {A B} (m : Traced A) (k : A -> Traced B) : Traced B :=
  let '(a, d1) := m in let '(b, d2) := k a in (b, (d1 ++ d2)%list).

(** [a / b]. *)
Definition divide (a b : JS.number) : Traced spec_float :=
  (F64.div (F64.of_number a) (F64.of_number b), [b]).

(** [Math.round((currentCount / venueCapacity) * 100)]. *)
Definition percentage (currentCount venueCapacity : JS.number) : Traced spec_float :=
  and_then (divide currentCount venueCapacity)
    (fun q => pure (F64.Math_round (F64.mul q (F64.of_Z 100)))).

(** The three-way colour expression. *)
Definition statusColor (currentCount venueCapacity : JS.number) : string :=
  if JS.gt currentCount venueCapacity then "#ef4444"
  else if F64.geb (F64.of_number currentCount)
                  (F64.mul (F64.of_number venueCapacity) F64.nine_tenths)
       then "#f97316"
       else "#2A3990".

(** The block under [venueCapacity > 0 && …]. *)
Record Gauge : Type := {
  percent : spec_float;        (* the number printed before the % sign *)
  text_color : string;
  over_capacity : bool;        (* the "Over Capacity" label is shown *)
  width : spec_float;          (* the width of the bar, in percent *)
  bar_color : string
}.

Inductive View : Type :=
| Skeleton                     (* the loading placeholder *)
| NoEvent                      (* "No event selected" *)
| Occupancy (count capacity : JS.number) (gauge : option Gauge).

Definition gauge (currentCount venueCapacity : JS.number) : Traced Gauge :=
  and_then (percentage currentCount venueCapacity) (fun shown =>
  and_then (percentage currentCount venueCapacity) (fun w =>
  pure {| percent := shown;
          text_color := statusColor currentCount venueCapacity;
          over_capacity := JS.gt currentCount venueCapacity;
          width := F64.Math_min w (F64.of_Z 100);
          bar_color := statusColor currentCount venueCapacity |})).

(** The component function, after the hooks. *)
Definition render (currentEventId : option string) (w : World) : Traced View :=
  if loading w then pure Skeleton
  else match valid_key currentEventId with
       | None => pure NoEvent
       | Some _ =>
           if JS.gt (venueCapacity w) (JS.Num 0)
           then and_then (gauge (currentCount w) (venueCapacity w))
                  (fun g => pure (Occupancy (currentCount w) (venueCapacity w) (Some g)))
           else pure (Occupancy (currentCount w) (venueCapacity w) None)
       end.

End VenueOccupancy.

(* ------------------------------------------------------------------ *)
(** * The properties, in the words of the specification                 *)
(* ------------------------------------------------------------------ *)

Module Spec.

(** ** Next-event selector *)

(** The time of an entry, in minutes since midnight. *)
Definition minutes_of (e : TimeCard.EventTiming) : JS.number :=
  TimeCard.timeInMinutes (TimeCard.time e).

Definition in_future (now : Date.t) (e : TimeCard.EventTiming) : Prop :=
  JS.gt (minutes_of e) (TimeCard.currentTimeNumber now) = true.

Definition strictly_before (a b : TimeCard.EventTiming) : Prop :=
  JS.lt (minutes_of a) (minutes_of b) = true.

Definition not_after (a b : TimeCard.EventTiming) : Prop :=
  JS.ge (minutes_of b) (minutes_of a) = true.

(** Exactly the first entry carries the flag. *)
Definition first_flagged (out : list TimeCard.EventTiming) : Prop :=
  forall i e, nth_error out i = Some e -> TimeCard.isNext e = Nat.eqb i 0.

(** The fields that are set, as (title, time) pairs in field order. *)
Definition set_fields (event : TimeCard.EventRow) : list (string * string) :=
  map (fun c => (fst c, TimeCard.time_of c))
      (List.filter TimeCard.is_set (TimeCard.candidates event)).

Definition entry (e : TimeCard.EventTiming) : string * string :=
  (TimeCard.title e, TimeCard.time e).

(** The pair is scheduled at minute [m]. *)
Definition at_minute (m : Z) (p : string * string) : bool :=
  match TimeCard.timeInMinutes (snd p) with
  | JS.Num k => k =? m
  | JS.NaN => false
  end.

(** The selector's property as the specification states it, with the
    order strict. *)
Definition selector_strict (event : TimeCard.EventRow) (now : Date.t) : Prop :=
  let out := TimeCard.nextThreeTimings event now in
  (List.length out <= 3)%nat
  /\ Forall (in_future now) out
  /\ Sorted.StronglySorted strictly_before out
  /\ first_flagged out.

(** Two fields set to the same time. *)
Definition tied_event : TimeCard.EventRow :=
  {| TimeCard.security_call_time := None;
     TimeCard.main_act_start_time := None;
     TimeCard.show_down_time := Some "23:00";
     TimeCard.show_stop_meeting_time := None;
     TimeCard.doors_open_time := None;
     TimeCard.curfew_time := Some "23:00";
     TimeCard.event_name := "Main Act" |}.

(** Four fields after 09:00, the last two at the same time. *)
Definition crowded_event : TimeCard.EventRow :=
  {| TimeCard.security_call_time := Some "10:00";
     TimeCard.main_act_start_time := None;
     TimeCard.show_down_time := Some "23:00";
     TimeCard.show_stop_meeting_time := None;
     TimeCard.doors_open_time := Some "11:00";
     TimeCard.curfew_time := Some "23:00";
     TimeCard.event_name := "Main Act" |}.

(** The time of a (title, time) pair, in minutes since midnight. *)
Definition pair_minutes (p : string * string) : JS.number :=
  TimeCard.timeInMinutes (snd p).

Definition pair_numeric (p : string * string) : Prop :=
  exists m, pair_minutes p = JS.Num m.

Definition not_later (p q : string * string) : Prop :=
  JS.ge (pair_minutes q) (pair_minutes p) = true.

(** [arranged] is [fields] in ascending order of time, the fields of
    one time in the order they have in [fields]. *)
Definition arrangement (fields arranged : list (string * string)) : Prop :=
  Permutation arranged fields
  /\ Sorted.StronglySorted not_later arranged
  /\ forall m, List.filter (at_minute m) arranged = List.filter (at_minute m) fields.

(** The sort key of an intermediate entry. *)
Definition key (t : TimeCard.TimingWithMinutes) : Z :=
  match TimeCard.minutesSinceMidnight t with
  | JS.Num m => m
  | JS.NaN => 0
  end.

Definition numeric (t : TimeCard.TimingWithMinutes) : Prop :=
  exists m, TimeCard.minutesSinceMidnight t = JS.Num m.

Definition key_is (m : Z) (t : TimeCard.TimingWithMinutes) : bool :=
  match TimeCard.minutesSinceMidnight t with
  | JS.Num k => k =? m
  | JS.NaN => false
  end.

(** The (title, time) pair of an intermediate entry. *)
Definition pair_of (t : TimeCard.TimingWithMinutes) : string * string :=
  (TimeCard.tm_title t, TimeCard.tm_time t).

(** The stored minutes are those of the stored time. *)
Definition consistent (t : TimeCard.TimingWithMinutes) : Prop :=
  TimeCard.minutesSinceMidnight t = TimeCard.timeInMinutes (TimeCard.tm_time t).

(** The intermediate list [timingsWithMinutes]. *)
Definition timingsWithMinutes (event : TimeCard.EventRow)
  : list TimeCard.TimingWithMinutes :=
  map TimeCard.withMinutes (List.filter TimeCard.is_set (TimeCard.candidates event)).

(** ** Incident statistics *)

Definition sit_rep_record (i : Dashboard.Incident) : bool :=
  (Dashboard.incident_type i =? "Sit Rep")%string.

Definition closed_record (i : Dashboard.Incident) : bool :=
  JS.truthy (Dashboard.is_closed i).

Definition action_was_taken (i : Dashboard.Incident) : bool :=
  JS.truthy (Dashboard.action_taken i).

Definition category_is (c : string) (i : Dashboard.Incident) : bool :=
  (Dashboard.incident_type i =? c)%string.

Definition high_priority (i : Dashboard.Incident) : bool :=
  category_is "Ejection" i || category_is "Code Green" i
  || category_is "Code Black" i || category_is "Code Pink" i.

Definition medical_record (i : Dashboard.Incident) : bool :=
  category_is "Code Green" i || category_is "Code Purple" i.

Definition bump (b : bool) (n : nat) : nat := if b then S n else n.

(** One record counted in every bucket whose condition it meets. *)
Definition tally (i : Dashboard.Incident) (s : Dashboard.Stats) : Dashboard.Stats :=
  {| Dashboard.total := S (Dashboard.total s);
     Dashboard.high := bump (high_priority i) (Dashboard.high s);
     Dashboard.open :=
       bump (negb (sit_rep_record i) && negb (closed_record i)) (Dashboard.open s);
     Dashboard.inProgress :=
       bump (negb (sit_rep_record i) && negb (closed_record i) && action_was_taken i)
            (Dashboard.inProgress s);
     Dashboard.closed :=
       bump (negb (sit_rep_record i) && closed_record i) (Dashboard.closed s);
     Dashboard.logged := bump (sit_rep_record i) (Dashboard.logged s);
     Dashboard.avgResolution := Dashboard.avgResolution s;
     Dashboard.refusals := bump (category_is "Refusal" i) (Dashboard.refusals s);
     Dashboard.ejections := bump (category_is "Ejection" i) (Dashboard.ejections s);
     Dashboard.medical := bump (medical_record i) (Dashboard.medical s) |}.

(** The buckets of the specification: a single pass over the records. *)
Definition buckets (incidents : list Dashboard.Incident) : Dashboard.Stats :=
  fold_right tally Dashboard.zero_stats incidents.

(** ** Push payloads *)

(** The count of the new row, when the payload has one and it is a number. *)
Definition numeric_count (p : VenueOccupancy.Payload) : option JS.number :=
  match VenueOccupancy.new p with
  | JS.VObj props =>
      match JS.assoc "count" props with
      | JS.VNum n => Some n
      | _ => None
      end
  | _ => None
  end.

(** ** Lifecycle *)

(** The channels a reference holds. *)
Definition held (r : option Backend.Channel) : list Backend.Channel :=
  match r with Some c => [c] | None => [] end.

(** The view holds exactly the channels that are live. *)
Definition occupancy_channel_inv (w : VenueOccupancy.World) : Prop :=
  Backend.live (VenueOccupancy.env w) = held (VenueOccupancy.subscriptionRef w).

Definition dashboard_channel_inv (w : Dashboard.World) : Prop :=
  Backend.live (Dashboard.env w) = held (Dashboard.subscriptionRef w).

(** The part of an instance its fetches and listeners never touch. *)
Definition occupancy_frame (w : VenueOccupancy.World) :=
  (Backend.live (VenueOccupancy.env w), Backend.ops (VenueOccupancy.env w),
   VenueOccupancy.subscriptionRef w, VenueOccupancy.has_cleanup w,
   VenueOccupancy.mounted w, VenueOccupancy.deps w).

Definition dashboard_frame (w : Dashboard.World) :=
  (Backend.live (Dashboard.env w), Backend.ops (Dashboard.env w),
   Dashboard.subscriptionRef w, Dashboard.effect_ran w, Dashboard.mounted w).

(** An instance with no cleanup to run, or unmounted, holds no channel. *)
Definition occupancy_lifecycle_inv (w : VenueOccupancy.World) : Prop :=
  occupancy_channel_inv w
  /\ (VenueOccupancy.has_cleanup w = false -> VenueOccupancy.subscriptionRef w = None)
  /\ (VenueOccupancy.mounted w = false -> VenueOccupancy.has_cleanup w = false).

Definition dashboard_lifecycle_inv (w : Dashboard.World) : Prop :=
  dashboard_channel_inv w
  /\ (Dashboard.effect_ran w = false -> Dashboard.subscriptionRef w = None)
  /\ (Dashboard.mounted w = false -> Dashboard.subscriptionRef w = None).

(** The channel the occupancy effect opens for key [k] at time [now]. *)
Definition occupancy_channel (k : string) (now : Z) (w : VenueOccupancy.World)
  : Backend.Channel :=
  {| Backend.chan_id := Backend.next_chan (VenueOccupancy.env w);
     Backend.topic := VenueOccupancy.channel_topic k now;
     Backend.filter := Some k |}.

(** The channel the dashboard effect opens at time [now]. *)
Definition dashboard_channel (now : Z) (w : Dashboard.World) : Backend.Channel :=
  {| Backend.chan_id := Backend.next_chan (Dashboard.env w);
     Backend.topic := "dashboard_incident_changes_" ++ JS.toString (JS.Num now);
     Backend.filter := None |}.

(** The events that settle a read of a suspended fetch. *)
Definition occupancy_settles (ev : VenueOccupancy.Event) : bool :=
  match ev with
  | VenueOccupancy.EventSettled _ _ | VenueOccupancy.AttendanceSettled _ _ => true
  | _ => false
  end.

Definition dashboard_settles (ev : Dashboard.Event) : bool :=
  match ev with
  | Dashboard.CheckSettled _ _ | Dashboard.CurrentSettled _ _
  | Dashboard.IncidentsSettled _ _ => true
  | _ => false
  end.

(** The events that deactivate the occupancy view: the key goes away
    (the effect's cleanup runs), or the instance is unmounted. *)
Definition occupancy_deactivates (ev : VenueOccupancy.Event) : bool :=
  match ev with
  | VenueOccupancy.Render None _ | VenueOccupancy.Unmount => true
  | _ => false
  end.

(** The state the dashboard retains between renders. *)
Definition dashboard_retained (w : Dashboard.World)
  : bool * option string * Dashboard.Stats :=
  (Dashboard.hasCurrentEvent w, Dashboard.currentEventId w, Dashboard.incidentStats w).

(** "A snapshot read that resolves after the view has deactivated must
    not mutate any retained state", for the two views. *)
Definition late_results_discarded : Prop :=
  (forall evs d r,
      occupancy_deactivates d = true -> occupancy_settles r = true ->
      let w := VenueOccupancy.step d (VenueOccupancy.run evs VenueOccupancy.initial) in
      VenueOccupancy.retained (VenueOccupancy.step r w) = VenueOccupancy.retained w)
  /\ (forall evs r,
      dashboard_settles r = true ->
      let w := Dashboard.step Dashboard.Unmount (Dashboard.run evs Dashboard.initial) in
      dashboard_retained (Dashboard.step r w) = dashboard_retained w).

(** ** Read errors *)

(** A read of the dashboard failed: the promise rejected, or it resolved
    with an error object and no data. *)
Definition dashboard_read_failed {A} (r : Backend.settled A) : Prop :=
  match r with
  | Backend.Rejected _ => True
  | Backend.Resolved None (Some _) => True
  | _ => False
  end.

(** The first read of [fetchData] failed. *)
Definition event_read_failed (r : Backend.settled VenueOccupancy.EventRow) : Prop :=
  match r with
  | Backend.Rejected _ => True
  | Backend.Resolved _ (Some _) => True
  | _ => False
  end.

(** The second read of [fetchData] failed with something else than "no
    row" (code PGRST116). *)
Definition attendance_read_failed (r : Backend.settled VenueOccupancy.AttendanceRow)
  : Prop :=
  match r with
  | Backend.Rejected _ => True
  | Backend.Resolved _ e => VenueOccupancy.unexpected e <> None
  end.

(** What the occupancy view holds after the fallback. *)
Definition occupancy_defaults (w : VenueOccupancy.World) : Prop :=
  VenueOccupancy.currentCount w = JS.Num 0
  /\ VenueOccupancy.venueCapacity w = JS.Num 3500
  /\ VenueOccupancy.loading w = false.

(** "On any unexpected read error, log and fall back to the same
    neutral defaults", for the two fetchers. *)
Definition read_errors_fall_back : Prop :=
  (forall evs call r,
      let w := VenueOccupancy.run evs VenueOccupancy.initial in
      VenueOccupancy.is_pending call VenueOccupancy.AwaitEvent w = true ->
      event_read_failed r ->
      let w' := VenueOccupancy.step (VenueOccupancy.EventSettled call r) w in
      occupancy_defaults w'
      /\ Backend.console (VenueOccupancy.env w')
         <> Backend.console (VenueOccupancy.env w))
  /\ (forall evs call r,
      let w := Dashboard.run evs Dashboard.initial in
      Dashboard.is_pending call Dashboard.AwaitCurrent w = true ->
      dashboard_read_failed r ->
      let w' := Dashboard.step (Dashboard.CurrentSettled call r) w in
      Dashboard.incidentStats w' = Dashboard.zero_stats
      /\ Backend.console (Dashboard.env w') <> Backend.console (Dashboard.env w)).

(** ** The fetched capacity *)

(** "The capacity keeps its prior value when the fetched field is
    absent, null or zero", over a whole [fetchData]. *)
Definition capacity_kept_without_field : Prop :=
  forall evs call eventData r,
    let w := VenueOccupancy.run evs VenueOccupancy.initial in
    VenueOccupancy.is_pending call VenueOccupancy.AwaitEvent w = true ->
    JS.truthy (VenueOccupancy.fetched_capacity eventData) = false ->
    VenueOccupancy.venueCapacity
      (VenueOccupancy.run
         [VenueOccupancy.EventSettled call (Backend.Resolved eventData None);
          VenueOccupancy.AttendanceSettled call r] w)
    = VenueOccupancy.venueCapacity w.

(** ** Rounding in binary64 *)

(** The record [mrs], read at [n] binary places above the unit of the
    positive rational [N / D], locates that rational: its mantissa is
    the integer part of [N / (2^n * D)], its round and sticky bits tell
    where the rest stands with respect to one half. *)
Definition located (N D n : Z) (mrs : shr_record) : Prop :=
  let P := 2 ^ n * D in
  let m := shr_m mrs in
  0 <= m /\
  match shr_r mrs, shr_s mrs with
  | false, false => N = P * m
  | false, true => P * (2 * m) < 2 * N < P * (2 * m + 1)
  | true, false => 2 * N = P * (2 * m + 1)
  | true, true => P * (2 * m + 1) < 2 * N < P * (2 * m + 2)
  end.

(** The fixed-point scale of the error bounds: values are counted in
    units of [2^-scale]. *)
Definition scale : Z := 200.

(** The value of a positive finite number, in units of [2^-scale]. *)
Definition fixed (m : positive) (e : Z) : Z := Z.pos m * 2 ^ (e + scale).

End Spec.

(* ------------------------------------------------------------------ *)
(** * Reference functions on integers                                   *)
(* ------------------------------------------------------------------ *)

(** What the arithmetic of the three components computes, written on
    integers; the theorems below relate the code to these. *)
Module Reference.

(** The whole seconds from the local time [tl] to the next time the
    clock shows [h:m:00] plus the milliseconds of [tl], on a clock that
    does not change. *)
Definition seconds_until (tl h m : Z) : Z :=
  (3600 * h + 60 * m - (tl mod 86400000) / 1000) mod 86400.

(** The local time [h:m:00], plus the milliseconds of [tl], of the day
    of the local time [tl]. *)
Definition target_local (tl h m : Z) : Z :=
  Date.startOfDay tl + h * Date.msPerHour + m * Date.msPerMinute
  + 0 * Date.msPerSecond + tl mod Date.msPerSecond.

(** The clocks of the zone do not change between the instant [now_tv]
    and the next time they show [h:m]: the local time [h:m] of today is
    read with the offset in force now, and so are, when that time is
    already past, the instant it stands for and the local time [h:m] of
    tomorrow. *)
Definition steady_clock (tz : Date.Zone) (now_tv h m : Z) : Prop :=
  let o := Date.offset_at tz now_tv in
  let target := target_local (Date.LocalTime tz now_tv) h m in
  Date.offset_of_local tz target = o
  /\ (target < Date.LocalTime tz now_tv ->
      Date.offset_at tz (target - o) = o
      /\ Date.offset_of_local tz (target + Date.msPerDay) = o).

(** The colour of the occupancy figures: over capacity, from nine
    tenths of the capacity on, and below. *)
Definition status_tier (c cap : Z) : string :=
  if cap <? c then "#ef4444"
  else if 9 * cap <=? 10 * c then "#f97316" else "#2A3990".

(** The character [sep] does not occur in [s]. *)
Fixpoint free_of (sep : ascii) (s : string) : bool :=
  match s with
  | EmptyString => true
  | String c r => negb (Ascii.eqb c sep) && free_of sep r
  end.

(** The (title, time) pair is scheduled after the current minute. *)
Definition upcoming (now : Date.t) (p : string * string) : bool :=
  JS.gt (TimeCard.timeInMinutes (snd p)) (TimeCard.currentTimeNumber now).

End Reference.

(* ------------------------------------------------------------------ *)
(** * Dashboard: the filter cards                                       *)
(* ------------------------------------------------------------------ *)

Module DashboardView.

(** The state cell [selectedFilter] and its setter. *)
Definition Filter : Type := option string.

Definition filter_eqb (f : Filter) (key : string) : bool :=
  match f with Some k => (k =? key)%string | None => false end.

(** The props [StatCard] is rendered with; a prop that is not passed is
    [None], except [color], which then is ['blue']. *)
Record StatCardProps : Type := {
  title : string;
  value : nat;
  color : string;
  isSelected : option bool;
  onClick : option Filter;       (* what the handler passes to the setter *)
  isFilterable : bool
}.

Definition colorClasses : list (string * string) :=
  [ ("blue", "text-blue-500"); ("red", "text-red-500");
    ("yellow", "text-yellow-500"); ("green", "text-green-500") ].

Fixpoint lookup (k : string) (l : list (string * string)) : option string :=
  match l with
  | [] => None
  | (k', v) :: r => if (k' =? k)%string then Some v else lookup k r
  end.

(** What [StatCard] renders. *)
Record Card : Type := {
  cursor : string;
  border : string;
  on_click : option Filter;
  icon_color : option string;
  shown_value : nat;
  shown_title : string
}.

Definition StatCard (p : StatCardProps) : Card :=
  {| cursor := if isFilterable p then "cursor-pointer" else "";
     border :=
       if isFilterable p && match isSelected p with Some b => b | None => false end
       then "border-2 border-red-500" else "border border-gray-100";
     on_click := if isFilterable p then onClick p else None;
     icon_color := lookup (color p) colorClasses;
     shown_value := value p;
     shown_title := title p |}.

(** A card with [isFilterable={true}] for the filter [key]. *)
Definition filter_card (selectedFilter : Filter)
  (title : string) (value : nat) (color key : string) : StatCardProps :=
  {| title := title; value := value; color := color;
     isSelected := Some (filter_eqb selectedFilter key);
     onClick := Some (if filter_eqb selectedFilter key then None else Some key);
     isFilterable := true |}.

(** The first row of the statistics grid. *)
Definition cards (incidentStats : Dashboard.Stats) (selectedFilter : Filter)
  : list Card :=
  map StatCard
    [ {| title := "Total Incidents"; value := Dashboard.total incidentStats;
         color := "blue"; isSelected := None; onClick := None;
         isFilterable := false |};
      filter_card selectedFilter "High Priority" (Dashboard.high incidentStats)
        "red" "high";
      filter_card selectedFilter "Open" (Dashboard.open incidentStats)
        "yellow" "open";
      filter_card selectedFilter "Closed" (Dashboard.closed incidentStats)
        "green" "closed";
      filter_card selectedFilter "Refusals" (Dashboard.refusals incidentStats)
        "red" "refusals";
      filter_card selectedFilter "Ejections" (Dashboard.ejections incidentStats)
        "red" "ejections" ].

(** A click on the card at position [i] of the rendered row. *)
Definition click (incidentStats : Dashboard.Stats) (i : nat)
  (selectedFilter : Filter) : Filter :=
  match nth_error (cards incidentStats selectedFilter) i with
  | Some card =>
      match on_click card with
      | Some f => f
      | None => selectedFilter
      end
  | None => selectedFilter
  end.

Definition highlighted (c : Card) : bool :=
  (border c =? "border-2 border-red-500")%string.

(** The filter keys, by position of their card. *)
Definition key_at (i : nat) : option string :=
  match i with
  | O => None
  | S j => nth_error [ "high"; "open"; "closed"; "refusals"; "ejections" ] j
  end.

(** The filter after a series of clicks on a fresh dashboard. *)
Definition after_clicks (incidentStats : Dashboard.Stats) (clicks : list nat)
  : Filter :=
  fold_left (fun f i => click incidentStats i f) clicks None.

End DashboardView.

(* ------------------------------------------------------------------ *)
(** * Further invariants of the two instances                           *)
(* ------------------------------------------------------------------ *)

Module Inv.

(** A mounted dashboard whose effect has run holds a channel. *)
Definition holds_channel (w : Dashboard.World) : Prop :=
  Dashboard.mounted w = true -> Dashboard.effect_ran w = true ->
  Dashboard.subscriptionRef w <> None.

(** The occupancy view holds a channel for its current key only. *)
Definition filters_key (w : VenueOccupancy.World) : Prop :=
  forall c, VenueOccupancy.subscriptionRef w = Some c ->
            VenueOccupancy.deps w = Some (Backend.filter c).

(** An event other than a render with a usable key. *)
Definition keyless (ev : VenueOccupancy.Event) : bool :=
  match ev with
  | VenueOccupancy.Render k _ =>
      match VenueOccupancy.valid_key k with Some _ => false | None => true end
  | _ => true
  end.

(** An instance that has never been given a usable key. *)
Definition idle (w : VenueOccupancy.World) : Prop :=
  VenueOccupancy.retained w = VenueOccupancy.retained VenueOccupancy.initial
  /\ VenueOccupancy.pending w = []
  /\ VenueOccupancy.subscriptionRef w = None
  /\ Backend.live (VenueOccupancy.env w) = []
  /\ Backend.ops (VenueOccupancy.env w) = [].

End Inv.

(* ------------------------------------------------------------------ *)
(** * Checks of the embedding on concrete inputs                        *)
(* ------------------------------------------------------------------ *)

Example Number_20 : JS.Number "20" = JS.Num 20.
Proof. reflexivity. Qed.

Example Number_empty : JS.Number "" = JS.Num 0.
Proof. reflexivity. Qed.

Example Number_garbage : JS.Number "8pm" = JS.NaN.
Proof. reflexivity. Qed.

Example split_time : JS.split ":" "20:05:00" = ["20"; "05"; "00"].
Proof. reflexivity. Qed.

Example toString_114 : JS.toString (JS.Num 114) = "114".
Proof. reflexivity. Qed.

Example toString_0 : JS.toString (JS.Num 0) = "0".
Proof. reflexivity. Qed.

Example parseInt_str : JS.parseInt (JS.VStr " 3500 seats") = JS.Num 3500.
Proof. reflexivity. Qed.

Example nine_tenths_bits :
  F64.nine_tenths = S754_finite false 8106479329266893 (-53).
Proof. vm_compute. reflexivity. Qed.

Example of_Z_3500 : F64.of_Z 3500 = S754_finite false 7696581394432000 (-41).
Proof. vm_compute. reflexivity. Qed.

Example round_14_5_below :
  F64.Math_round (F64.mul (F64.div (F64.of_Z 29) (F64.of_Z 200)) (F64.of_Z 100))
  = F64.of_Z 14.
Proof. vm_compute. reflexivity. Qed.

Example round_114 :
  F64.toString
    (F64.Math_round (F64.mul (F64.div (F64.of_Z 4000) (F64.of_Z 3500)) (F64.of_Z 100)))
  = "114".
Proof. vm_compute. reflexivity. Qed.

Example selector_sample :
  TimeCard.nextThreeTimings sample_event (Date.at_ 0 19 0 0 0)
  = [ {| TimeCard.title := "Main Act"; TimeCard.time := "20:00"; TimeCard.isNext := true |};
      {| TimeCard.title := "Curfew"; TimeCard.time := "23:00"; TimeCard.isNext := false |} ].
Proof. vm_compute. reflexivity. Qed.

Example countdown_30s :
  TimeCard.calculateCountdown (Date.fixed_zone 0) (Date.at_ 7 19 59 30 250)
    {| TimeCard.title := "Main Act"; TimeCard.time := "20:00"; TimeCard.isNext := true |}
  = "0h 0m 30s".
Proof. vm_compute. reflexivity. Qed.

Example countdown_rolled :
  TimeCard.calculateCountdown (Date.fixed_zone 0) (Date.at_ 7 20 0 1 0)
    {| TimeCard.title := "Main Act"; TimeCard.time := "20:00"; TimeCard.isNext := true |}
  = "23h 59m 59s".
Proof. vm_compute. reflexivity. Qed.

(** London, 15 June 2026, 19:59:30 summer time (18:59:30 UTC). *)
Example countdown_summer :
  TimeCard.calculateCountdown europe_london_2026 (JS.Num 1781549970000)
    {| TimeCard.title := "Main Act"; TimeCard.time := "20:00"; TimeCard.isNext := true |}
  = "0h 0m 30s".
Proof. vm_compute. reflexivity. Qed.

(** London, 24 October 2026, 20:00:01 summer time: the clocks go back
    in the night, so tomorrow's 20:00 is 25 hours after today's. *)
Example countdown_clocks_go_back :
  TimeCard.calculateCountdown europe_london_2026 (JS.Num 1792868401000)
    {| TimeCard.title := "Main Act"; TimeCard.time := "20:00"; TimeCard.isNext := true |}
  = "24h 59m 59s".
Proof. vm_compute. reflexivity. Qed.

(** London, 29 March 2026, 00:30: the clocks go forward at 01:00, so
    20:00 of the same day is 18 hours and a half away. *)
Example countdown_clocks_go_forward :
  TimeCard.calculateCountdown europe_london_2026 (JS.Num 1774744200000)
    {| TimeCard.title := "Main Act"; TimeCard.time := "20:00"; TimeCard.isNext := true |}
  = "18h 30m 0s".
Proof. vm_compute. reflexivity. Qed.

Example stats_sample :
  Dashboard.computeStats [sit_rep; open_ejection; closed_refusal]
  = {| Dashboard.total := 3; Dashboard.high := 1; Dashboard.open := 1;
       Dashboard.inProgress := 0; Dashboard.closed := 1; Dashboard.logged := 1;
       Dashboard.avgResolution := 0; Dashboard.refusals := 1;
       Dashboard.ejections := 1; Dashboard.medical := 0 |}%nat.
Proof. reflexivity. Qed.

Example gauge_full :
  fst (VenueOccupancy.gauge (JS.Num 3500) (JS.Num 3500))
  = {| VenueOccupancy.percent := F64.of_Z 100;
       VenueOccupancy.text_color := "#f97316";
       VenueOccupancy.over_capacity := false;
       VenueOccupancy.width := F64.of_Z 100;
       VenueOccupancy.bar_color := "#f97316" |}.
Proof. vm_compute. reflexivity. Qed.

Example gauge_over :
  fst (VenueOccupancy.gauge (JS.Num 4000) (JS.Num 3500))
  = {| VenueOccupancy.percent := F64.of_Z 114;
       VenueOccupancy.text_color := "#ef4444";
       VenueOccupancy.over_capacity := true;
       VenueOccupancy.width := F64.of_Z 100;
       VenueOccupancy.bar_color := "#ef4444" |}.
Proof. vm_compute. reflexivity. Qed.

(* ------------------------------------------------------------------ *)
(** * The next-event selector                                           *)
(* ------------------------------------------------------------------ *)

Section Selector.

Import TimeCard Spec Reference.
Local Open Scope list_scope.

Lemma comes_after_key a b :
  numeric a -> numeric b -> comes_after a b = (key b <? key a).
Proof.
  intros [x Hx] [y Hy]. unfold comes_after, key. rewrite Hx, Hy. simpl.
  destruct (0 <? x - y) eqn:E, (y <? x) eqn:F; try reflexivity; lia.
Qed.

Lemma comes_after_numeric a b :
  comes_after a b = true -> key b < key a.
Proof.
  unfold comes_after, key.
  destruct (minutesSinceMidnight a), (minutesSinceMidnight b); simpl;
    try discriminate.
  intros H. lia.
Qed.

Lemma insert_In x y l : In x (insert y l) <-> x = y \/ In x l.
Proof.
  induction l as [|z l IH]; simpl.
  - intuition.
  - destruct (comes_after y z); simpl; rewrite ?IH; intuition.
Qed.

Lemma sort_In x l : In x (sort l) <-> In x l.
Proof.
  induction l as [|y l IH]; simpl.
  - tauto.
  - rewrite insert_In, IH. intuition.
Qed.

Lemma insert_length x l : List.length (insert x l) = S (List.length l).
Proof.
  induction l as [|y l IH]; simpl; auto.
  destruct (comes_after x y); simpl; auto.
Qed.

Lemma insert_sorted x l :
  numeric x -> Forall numeric l ->
  StronglySorted (fun a b => key a <= key b) l ->
  StronglySorted (fun a b => key a <= key b) (insert x l).
Proof.
  intros Hx Hl Hs. induction Hs as [|y l Hs IH Hy]; simpl.
  - constructor; constructor.
  - inversion Hl as [|? ? Hny Hnl]; subst.
    rewrite (comes_after_key x y Hx Hny).
    destruct (key y <? key x) eqn:E.
    + constructor; [apply IH; assumption|].
      rewrite Forall_forall in *. intros z Hz.
      apply insert_In in Hz. destruct Hz as [->|Hz]; [lia|auto].
    + constructor; [constructor; assumption|].
      constructor; [lia|].
      rewrite Forall_forall in *. intros z Hz. specialize (Hy z Hz). lia.
Qed.

Lemma sort_numeric l : Forall numeric l -> Forall numeric (sort l).
Proof.
  rewrite !Forall_forall. intros H x Hx. apply H, sort_In, Hx.
Qed.

Lemma sort_sorted l :
  Forall numeric l -> StronglySorted (fun a b => key a <= key b) (sort l).
Proof.
  induction l as [|x l IH]; intros H; simpl.
  - constructor.
  - inversion H; subst. apply insert_sorted; auto using sort_numeric.
Qed.

(** Stability: entries with the same key keep their relative order. *)
Lemma insert_stable m x l :
  List.filter (key_is m) (insert x l) = List.filter (key_is m) (x :: l).
Proof.
  induction l as [|y l IH]; [reflexivity|].
  simpl insert. destruct (comes_after x y) eqn:E; [|reflexivity].
  apply comes_after_numeric in E.
  change (List.filter (key_is m) (y :: insert x l))
    with (if key_is m y then y :: List.filter (key_is m) (insert x l)
          else List.filter (key_is m) (insert x l)).
  rewrite IH. simpl.
  unfold key_is, key in *.
  destruct (minutesSinceMidnight x) as [kx|], (minutesSinceMidnight y) as [ky|];
    try reflexivity.
  destruct (kx =? m) eqn:Ex, (ky =? m) eqn:Ey; try reflexivity. lia.
Qed.

Lemma sort_stable m l :
  List.filter (key_is m) (sort l) = List.filter (key_is m) l.
Proof.
  induction l as [|x l IH]; [reflexivity|].
  simpl sort. rewrite insert_stable. simpl. rewrite IH. reflexivity.
Qed.

Lemma firstn_In {A} (x : A) n l : In x (firstn n l) -> In x l.
Proof.
  intros H. rewrite <- (firstn_skipn n l). apply in_or_app. left. exact H.
Qed.

Lemma firstn_sorted {A} (R : A -> A -> Prop) n l :
  StronglySorted R l -> StronglySorted R (firstn n l).
Proof.
  intros H. revert n. induction H as [|x l H IH Hx]; intros [|n]; simpl;
    try constructor; auto.
  rewrite Forall_forall in *. intros y Hy. apply Hx.
  eapply firstn_In. exact Hy.
Qed.

Lemma filter_firstn_prefix {A} (p : A -> bool) n l :
  List.filter p l = List.filter p (firstn n l) ++ List.filter p (skipn n l).
Proof. rewrite <- filter_app, firstn_skipn. reflexivity. Qed.

Lemma mapi_length {A B} (f : nat -> A -> B) i l :
  List.length (mapi f i l) = List.length l.
Proof. revert i. induction l; intros; simpl; auto. Qed.

Lemma mapi_mark_entries i l : map entry (mapi mark i l) = map pair_of l.
Proof. revert i. induction l; intros; simpl; [|rewrite IHl]; reflexivity. Qed.

Lemma mapi_nth_error {A B} (f : nat -> A -> B) i l j :
  nth_error (mapi f i l) j = option_map (f (i + j)%nat) (nth_error l j).
Proof.
  revert i j. induction l as [|x l IH]; intros i [|j]; simpl; auto.
  - rewrite Nat.add_0_r. reflexivity.
  - rewrite IH. replace (S i + j)%nat with (i + S j)%nat by lia. reflexivity.
Qed.

Lemma mapi_mark_In e i l :
  In e (mapi mark i l) ->
  exists t, In t l /\ title e = tm_title t /\ time e = tm_time t.
Proof.
  revert i. induction l as [|x l IH]; simpl; intros i H; [contradiction|].
  destruct H as [<-|H].
  - exists x. auto.
  - destruct (IH _ H) as (t & ? & ?). exists t. auto.
Qed.

Lemma filter_at_minute m l :
  Forall consistent l ->
  List.filter (at_minute m) (map pair_of l) = map pair_of (List.filter (key_is m) l).
Proof.
  induction 1 as [|t l Ht Hl IH]; [reflexivity|].
  assert (E : at_minute m (pair_of t) = key_is m t).
  { unfold at_minute, key_is, pair_of, consistent in *. cbn [snd].
    rewrite Ht. reflexivity. }
  cbn [map List.filter]. rewrite E, IH.
  destruct (key_is m t); reflexivity.
Qed.

Lemma key_is_gt m cur t :
  key_is m t = true -> JS.gt (minutesSinceMidnight t) cur = JS.gt (JS.Num m) cur.
Proof.
  unfold key_is. destruct (minutesSinceMidnight t) as [k|]; [|discriminate].
  intros H. apply Z.eqb_eq in H. subst k. reflexivity.
Qed.

Lemma filter_future_prefix m cur l :
  exists rest,
    List.filter (key_is m) l
    = List.filter (key_is m)
        (List.filter (fun t => JS.gt (minutesSinceMidnight t) cur) l) ++ rest.
Proof.
  destruct (JS.gt (JS.Num m) cur) eqn:E.
  - exists []. rewrite app_nil_r. induction l as [|t l IH]; [reflexivity|].
    cbn [List.filter].
    destruct (key_is m t) eqn:K.
    + rewrite (key_is_gt m cur t K), E. cbn [List.filter]. rewrite K, <- IH.
      reflexivity.
    + destruct (JS.gt (minutesSinceMidnight t) cur); cbn [List.filter];
        rewrite ?K; exact IH.
  - exists (List.filter (key_is m) l).
    replace (List.filter (key_is m)
               (List.filter (fun t => JS.gt (minutesSinceMidnight t) cur) l))
      with (@nil TimingWithMinutes); [reflexivity|].
    induction l as [|t l IH]; [reflexivity|].
    cbn [List.filter].
    destruct (JS.gt (minutesSinceMidnight t) cur) eqn:G; [|exact IH].
    cbn [List.filter]. destruct (key_is m t) eqn:K; [|exact IH].
    rewrite (key_is_gt m cur t K) in G. congruence.
Qed.

Lemma timingsWithMinutes_consistent event :
  Forall consistent (timingsWithMinutes event).
Proof.
  unfold timingsWithMinutes. rewrite Forall_forall. intros t Ht.
  apply in_map_iff in Ht. destruct Ht as (c & <- & _). reflexivity.
Qed.

Lemma timingsWithMinutes_fields event :
  map pair_of (timingsWithMinutes event) = set_fields event.
Proof. unfold timingsWithMinutes, set_fields. rewrite map_map. reflexivity. Qed.

Lemma futureTimings_In event now t :
  In t (futureTimings event now) ->
  In t (timingsWithMinutes event)
  /\ JS.gt (minutesSinceMidnight t) (currentTimeNumber now) = true.
Proof.
  unfold futureTimings. intros H. apply (proj1 (sort_In _ _)) in H.
  apply filter_In in H. exact H.
Qed.

Lemma gt_numeric a b : JS.gt a b = true -> exists m, a = JS.Num m.
Proof. destruct a, b; simpl; try discriminate. eauto. Qed.

Lemma futureTimings_sorted event now :
  StronglySorted (fun a b => key a <= key b) (futureTimings event now).
Proof.
  unfold futureTimings. apply sort_sorted. rewrite Forall_forall.
  intros t Ht. apply filter_In in Ht. destruct Ht as [_ Ht].
  eapply gt_numeric; eassumption.
Qed.

Lemma is_set_nonempty c : is_set c = true -> time_of c <> ""%string.
Proof.
  unfold is_set, time_of. destruct (snd c) as [s|]; [|discriminate].
  simpl. destruct s; [discriminate|]. discriminate.
Qed.

Lemma mark_not_after a b i j :
  consistent a -> consistent b -> numeric a -> numeric b ->
  key a <= key b -> not_after (mark i a) (mark j b).
Proof.
  unfold consistent, not_after, minutes_of, key. cbn [time mark].
  intros <- <- [x Hx] [y Hy]. rewrite Hx, Hy. simpl. lia.
Qed.

Lemma mapi_mark_sorted l i :
  Forall (fun t => consistent t /\ numeric t) l ->
  StronglySorted (fun a b => key a <= key b) l ->
  StronglySorted not_after (mapi mark i l).
Proof.
  intros Hl Hs. revert i. induction Hs as [|x l Hs IH Hx]; intros i; simpl.
  - constructor.
  - inversion Hl as [|? ? [Cx Nx] Hl']; subst.
    constructor; [apply IH; assumption|].
    rewrite Forall_forall in *. intros e He.
    assert (G : forall k, In e (mapi mark k l) ->
                exists t j, In t l /\ e = mark j t).
    { clear. induction l as [|y l IH]; simpl; intros k H; [contradiction|].
      destruct H as [<-|H]; [eauto|].
      destruct (IH _ H) as (t & j & ? & ?). eauto. }
    destruct (G _ He) as (t & j & Ht & ->).
    destruct (Hl' t Ht) as [Ct Nt].
    apply mark_not_after; auto.
Qed.

(** C3, as the specification states it, fails: with Show Down and
    Curfew both at 23:00 the selector returns two entries with the same
    time, so the result is not strictly ascending. *)
Lemma selector_not_strictly_sorted :
  ~ selector_strict tied_event (Date.at_ 0 19 0 0 0).
Proof.
  intros (_ & _ & H & _).
  replace (nextThreeTimings tied_event (Date.at_ 0 19 0 0 0))
    with [ {| title := "Show Down"; time := "23:00"; isNext := true |};
           {| title := "Curfew"; time := "23:00"; isNext := false |} ] in H
    by (vm_compute; reflexivity).
  apply StronglySorted_inv in H. destruct H as [_ H].
  apply Forall_inv in H. vm_compute in H. discriminate H.
Qed.

(** ** The arrangement of the fields *)

Lemma insert_perm x l : Permutation (insert x l) (x :: l).
Proof.
  induction l as [|y l IH]; simpl; [apply Permutation_refl|].
  destruct (comes_after x y); [|apply Permutation_refl].
  eapply Permutation_trans; [apply perm_skip, IH | apply perm_swap].
Qed.

Lemma sort_perm l : Permutation (sort l) l.
Proof.
  induction l as [|x l IH]; simpl; [constructor|].
  eapply Permutation_trans; [apply insert_perm | apply perm_skip, IH].
Qed.

Lemma sort_length l : List.length (sort l) = List.length l.
Proof. apply Permutation_length, sort_perm. Qed.

Lemma filter_map_pairs {A B} (f : A -> B) (p : B -> bool) l :
  List.filter p (map f l) = map f (List.filter (fun x => p (f x)) l).
Proof.
  induction l as [|x l IH]; [reflexivity|].
  simpl. destruct (p (f x)); simpl; rewrite IH; reflexivity.
Qed.

(** The fields after the current minute, from the intermediate list. *)
Lemma later_fields event now :
  List.filter (upcoming now) (set_fields event)
  = map pair_of
      (List.filter (fun t => JS.gt (minutesSinceMidnight t) (currentTimeNumber now))
                   (timingsWithMinutes event)).
Proof.
  rewrite <- timingsWithMinutes_fields, filter_map_pairs. f_equal.
  apply filter_ext_in. intros t Ht.
  pose proof (timingsWithMinutes_consistent event) as HC.
  rewrite Forall_forall in HC. unfold upcoming, pair_of.
  cbn [snd]. rewrite <- (HC t Ht). reflexivity.
Qed.

Lemma pairs_sorted l :
  Forall (fun t => consistent t /\ numeric t) l ->
  StronglySorted (fun a b => key a <= key b) l ->
  StronglySorted not_later (map pair_of l).
Proof.
  intros Hl Hs. induction Hs as [|x l Hs IH Hx]; simpl; [constructor|].
  inversion Hl as [|? ? [Cx [kx Nx]] Hl']; subst.
  constructor; [apply IH; assumption|].
  rewrite Forall_forall in *. intros p Hp.
  apply in_map_iff in Hp. destruct Hp as (t & <- & Ht).
  destruct (Hl' t Ht) as [Ct [kt Nt]]. specialize (Hx t Ht).
  unfold not_later, pair_minutes, pair_of. cbn [snd].
  rewrite <- Cx, <- Ct, Nx, Nt. unfold key in Hx. rewrite Nx, Nt in Hx.
  simpl. apply Z.leb_le. exact Hx.
Qed.

Lemma at_minute_numeric p :
  pair_numeric p -> exists k, pair_minutes p = JS.Num k /\ at_minute k p = true
                              /\ forall m, m <> k -> at_minute m p = false.
Proof.
  intros [k Hk]. exists k. split; [exact Hk|].
  unfold at_minute. unfold pair_minutes in Hk.
  rewrite Hk. split; [apply Z.eqb_refl|].
  intros m Hm. apply Z.eqb_neq. congruence.
Qed.

Lemma sorted_head_not_later x l p :
  pair_numeric x -> StronglySorted not_later (x :: l) -> In p (x :: l) ->
  not_later x p.
Proof.
  intros [k Hk] Hs [<-|Hp].
  - unfold not_later. rewrite Hk. simpl. apply Z.leb_refl.
  - apply StronglySorted_inv in Hs. destruct Hs as [_ Hs].
    rewrite Forall_forall in Hs. apply Hs, Hp.
Qed.

(** Ascending order with ties in a given order leaves one list only. *)
Lemma arranged_unique (a b : list (string * string)) :
  Forall pair_numeric a -> Forall pair_numeric b ->
  StronglySorted not_later a -> StronglySorted not_later b ->
  (forall m, List.filter (at_minute m) a = List.filter (at_minute m) b) ->
  a = b.
Proof.
  revert b. induction a as [|x a IH]; intros b Ha Hb Sa Sb Hf.
  - destruct b as [|y b]; [reflexivity|]. exfalso.
    apply Forall_inv in Hb.
    destruct (at_minute_numeric y Hb) as (k & _ & Hk & _).
    specialize (Hf k). simpl in Hf. rewrite Hk in Hf. discriminate Hf.
  - pose proof (Forall_inv Ha) as Nx.
    destruct (at_minute_numeric x Nx) as (kx & Mx & Hkx & Hox).
    destruct b as [|y b].
    { exfalso. specialize (Hf kx). simpl in Hf. rewrite Hkx in Hf. discriminate Hf. }
    pose proof (Forall_inv Hb) as Ny.
    destruct (at_minute_numeric y Ny) as (ky & My & Hky & Hoy).
    assert (Hxb : In x (y :: b)).
    { assert (H : In x (List.filter (at_minute kx) (y :: b))).
      { rewrite <- Hf. simpl. rewrite Hkx. left. reflexivity. }
      apply filter_In in H. apply H. }
    assert (Hya : In y (x :: a)).
    { assert (H : In y (List.filter (at_minute ky) (x :: a))).
      { rewrite Hf. simpl. rewrite Hky. left. reflexivity. }
      apply filter_In in H. apply H. }
    pose proof (sorted_head_not_later x a y Nx Sa Hya) as L1.
    pose proof (sorted_head_not_later y b x Ny Sb Hxb) as L2.
    unfold not_later in L1, L2. rewrite Mx, My in L1, L2. simpl in L1, L2.
    apply Z.leb_le in L1, L2. assert (kx = ky) by lia. subst ky.
    pose proof (Hf kx) as H0. simpl in H0. rewrite Hkx, Hky in H0.
    injection H0 as -> H0.
    f_equal. apply IH.
    + apply (Forall_inv_tail Ha).
    + apply (Forall_inv_tail Hb).
    + apply StronglySorted_inv in Sa. apply Sa.
    + apply StronglySorted_inv in Sb. apply Sb.
    + intros m. destruct (Z.eq_dec m kx) as [->|Hm]; [exact H0|].
      specialize (Hf m). simpl in Hf. rewrite (Hox m Hm) in Hf. exact Hf.
Qed.

Lemma perm_numeric (a b : list (string * string)) :
  Permutation a b -> Forall pair_numeric b -> Forall pair_numeric a.
Proof.
  intros P H. rewrite Forall_forall in *. intros p Hp.
  apply H. eapply Permutation_in; eassumption.
Qed.

Lemma later_numeric event now :
  Forall pair_numeric (List.filter (upcoming now) (set_fields event)).
Proof.
  rewrite Forall_forall. intros p Hp. apply filter_In in Hp.
  destruct Hp as [_ Hp]. unfold upcoming in Hp.
  destruct (gt_numeric _ _ Hp) as [m Hm]. exists m. exact Hm.
Qed.

(** C3 (amended): for every event row and every current time, the
    selector keeps the fields that are set to a time strictly after the
    current minute of the day, arranges them in ascending order of time,
    fields of equal time in the order of the fields (there is exactly
    one such arrangement), and returns its first three entries, all of
    them when there are fewer.  So the result has [min 3 n] entries for
    [n] such fields; each is a set field with a time after the current
    minute; the entries are in ascending, not strictly ascending, order
    of time; those returned for a minute are the first of the fields
    set to that minute, so that of several fields at one time the later
    ones are cut when the three entries are used up; exactly the first
    entry is flagged as next. *)
Theorem next_three_timings_ordered (event : EventRow) (now : Date.t) :
  let out := nextThreeTimings event now in
  let later := List.filter (upcoming now) (set_fields event) in
  (exists arranged,
      arrangement later arranged
      /\ (forall other, arrangement later other -> other = arranged)
      /\ map entry out = firstn 3 arranged)
  /\ List.length out = Nat.min 3 (List.length later)
  /\ (List.length out <= 3)%nat
  /\ Forall (in_future now) out
  /\ Forall (fun e => In (entry e) (set_fields event) /\ time e <> ""%string) out
  /\ StronglySorted not_after out
  /\ (forall m, exists rest,
        List.filter (at_minute m) (set_fields event)
        = List.filter (at_minute m) (map entry out) ++ rest)
  /\ first_flagged out.
Proof.
  cbv zeta. unfold nextThreeTimings.
  pose proof (timingsWithMinutes_consistent event) as HC.
  rewrite Forall_forall in HC.
  assert (HF : forall t, In t (firstn 3 (futureTimings event now)) ->
                In t (timingsWithMinutes event)
                /\ JS.gt (minutesSinceMidnight t) (currentTimeNumber now) = true).
  { intros t Ht. apply futureTimings_In. eapply firstn_In. exact Ht. }
  set (F := List.filter
              (fun t => JS.gt (minutesSinceMidnight t) (currentTimeNumber now))
              (timingsWithMinutes event)).
  assert (HFc : Forall consistent F).
  { rewrite Forall_forall. intros t Ht. apply filter_In in Ht. apply HC, Ht. }
  assert (HSc : Forall consistent (sort F)).
  { rewrite Forall_forall in *. intros t Ht. apply HFc, sort_In, Ht. }
  assert (HA : arrangement (List.filter (upcoming now) (set_fields event))
                           (map pair_of (futureTimings event now))).
  { rewrite later_fields. fold F. change (futureTimings event now) with (sort F).
    split; [|split].
    - apply Permutation_map, sort_perm.
    - apply pairs_sorted; [|apply futureTimings_sorted].
      rewrite Forall_forall. intros t Ht.
      destruct (futureTimings_In event now t Ht) as [Hin Hgt].
      split; [apply HC, Hin | eapply gt_numeric; exact Hgt].
    - intros m. rewrite !filter_at_minute by assumption.
      rewrite sort_stable. reflexivity. }
  split; [|split; [|split; [|split; [|split; [|split; [|split]]]]]].
  - exists (map pair_of (futureTimings event now)).
    split; [exact HA|]. split.
    + intros other (P & S & St). destruct HA as (P' & S' & St').
      apply arranged_unique; auto.
      * eapply perm_numeric; [exact P | apply later_numeric].
      * eapply perm_numeric; [exact P' | apply later_numeric].
      * intros m. rewrite St, St'. reflexivity.
    + rewrite mapi_mark_entries. symmetry. apply firstn_map.
  - rewrite mapi_length, length_firstn. f_equal.
    destruct HA as (P & _). rewrite <- (Permutation_length P).
    symmetry. apply length_map.
  - rewrite mapi_length. apply firstn_le_length.
  - rewrite Forall_forall. intros e He.
    destruct (mapi_mark_In _ _ _ He) as (t & Ht & _ & Htime).
    destruct (HF t Ht) as [Hin Hgt].
    unfold in_future, minutes_of. rewrite Htime, <- (HC t Hin). exact Hgt.
  - rewrite Forall_forall. intros e He.
    destruct (mapi_mark_In _ _ _ He) as (t & Ht & Htitle & Htime).
    destruct (HF t Ht) as [Hin _]. split.
    + rewrite <- timingsWithMinutes_fields. unfold entry.
      rewrite Htitle, Htime. apply (in_map pair_of). exact Hin.
    + unfold timingsWithMinutes in Hin. apply in_map_iff in Hin.
      destruct Hin as (c & <- & Hc). apply filter_In in Hc.
      rewrite Htime. apply is_set_nonempty. apply Hc.
  - apply mapi_mark_sorted.
    + rewrite Forall_forall. intros t Ht. destruct (HF t Ht) as [Hin Hgt].
      split; [apply HC; exact Hin | eapply gt_numeric; exact Hgt].
    + apply firstn_sorted, futureTimings_sorted.
  - intros m. rewrite mapi_mark_entries, <- timingsWithMinutes_fields.
    rewrite !filter_at_minute.
    + destruct (filter_future_prefix m (currentTimeNumber now)
                  (timingsWithMinutes event)) as [rest Hrest].
      rewrite Hrest.
      rewrite <- (sort_stable m
        (List.filter (fun t => JS.gt (minutesSinceMidnight t) (currentTimeNumber now))
                     (timingsWithMinutes event))).
      change (sort _) with (futureTimings event now).
      rewrite (filter_firstn_prefix (key_is m) 3 (futureTimings event now)).
      rewrite !map_app, <- app_assoc. eexists. reflexivity.
    + rewrite Forall_forall. intros t Ht. apply HC, HF, Ht.
    + rewrite Forall_forall. exact HC.
  - intros i e He. rewrite mapi_nth_error in He.
    destruct (nth_error (firstn 3 (futureTimings event now)) i); [|discriminate].
    injection He as <-. reflexivity.
Qed.

(** Four fields after 09:00, Show Down and Curfew both at 23:00: the
    three entries are used up before Curfew. *)
Example crowded_schedule :
  map entry (nextThreeTimings crowded_event (Date.at_ 0 9 0 0 0))
  = [("Security Call", "10:00"); ("Doors Open", "11:00"); ("Show Down", "23:00")].
Proof. vm_compute. reflexivity. Qed.

End Selector.

(* ------------------------------------------------------------------ *)
(** * The incident statistics                                           *)
(* ------------------------------------------------------------------ *)

Section Statistics.

Import Dashboard Spec.
Local Open Scope list_scope.

Lemma filter_length_cons {A} (p : A -> bool) x l :
  List.length (List.filter p (x :: l)) = bump (p x) (List.length (List.filter p l)).
Proof. simpl. destruct (p x); reflexivity. Qed.

Lemma filter_filter_length {A} (p q : A -> bool) l :
  List.length (List.filter q (List.filter p l))
  = List.length (List.filter (fun x => p x && q x) l).
Proof.
  induction l as [|x l IH]; [reflexivity|].
  simpl. destruct (p x); simpl; [destruct (q x); simpl|]; auto.
Qed.

Lemma includes_high i :
  includes ["Ejection"; "Code Green"; "Code Black"; "Code Pink"] (incident_type i)
  = high_priority i.
Proof.
  unfold includes, high_priority, category_is. simpl.
  rewrite !(String.eqb_sym (incident_type i)), orb_false_r, !orb_assoc.
  reflexivity.
Qed.

Lemma includes_medical i :
  includes ["Code Green"; "Code Purple"] (incident_type i) = medical_record i.
Proof.
  unfold includes, medical_record, category_is. simpl.
  rewrite !(String.eqb_sym (incident_type i)), orb_false_r. reflexivity.
Qed.

(** The object the code builds, bucket by bucket, in the vocabulary of
    the specification. *)
Lemma computeStats_buckets incidents :
  computeStats incidents
  = {| total := List.length incidents;
       high := List.length (List.filter high_priority incidents);
       open := List.length (List.filter
                 (fun i => negb (sit_rep_record i) && negb (closed_record i)) incidents);
       inProgress := List.length (List.filter
                 (fun i => negb (sit_rep_record i)
                           && (negb (closed_record i) && action_was_taken i)) incidents);
       closed := List.length (List.filter
                 (fun i => negb (sit_rep_record i) && closed_record i) incidents);
       logged := List.length (List.filter sit_rep_record incidents);
       avgResolution := 0;
       refusals := List.length (List.filter (category_is "Refusal") incidents);
       ejections := List.length (List.filter (category_is "Ejection") incidents);
       medical := List.length (List.filter medical_record incidents) |}.
Proof.
  unfold computeStats. rewrite !filter_filter_length.
  f_equal; f_equal; apply filter_ext; intros i;
    auto using includes_high, includes_medical.
Qed.

Lemma buckets_avgResolution incidents : avgResolution (buckets incidents) = 0%nat.
Proof. induction incidents; simpl; auto. Qed.

Lemma computeStats_cons i incidents :
  computeStats (i :: incidents) = tally i (computeStats incidents).
Proof.
  rewrite !computeStats_buckets. unfold tally. cbn [total high open inProgress
    closed logged avgResolution refusals ejections medical].
  rewrite !filter_length_cons, andb_assoc. reflexivity.
Qed.

(** C4: for every list of incident records the object built by
    [fetchIncidentStats] holds the buckets of the specification (total:
    all records; high priority: category Ejection, Code Green, Code
    Black or Code Pink; logged: the Sit Rep records; open, in progress
    and closed: the other records that are not closed, not closed with
    an action taken, and closed; refusals and ejections: the exact
    category); one Sit Rep, one open Ejection and one closed Refusal, in
    any order, give total 3, high 1, open 1, closed 1, logged 1,
    refusals 1, ejections 1. *)
Theorem incident_buckets :
  (forall incidents, computeStats incidents = buckets incidents)
  /\ (forall s e r incidents,
        incident_type s = "Sit Rep"%string ->
        incident_type e = "Ejection"%string -> closed_record e = false ->
        incident_type r = "Refusal"%string -> closed_record r = true ->
        Permutation [s; e; r] incidents ->
        let st := computeStats incidents in
        total st = 3%nat /\ high st = 1%nat /\ open st = 1%nat
        /\ closed st = 1%nat /\ logged st = 1%nat
        /\ refusals st = 1%nat /\ ejections st = 1%nat).
Proof.
  assert (G : forall incidents, computeStats incidents = buckets incidents).
  { induction incidents as [|i l IH]; [reflexivity|].
    rewrite computeStats_cons, IH. reflexivity. }
  split; [exact G|].
  intros s e r incidents Hs He Hoe Hr Hcr HP. cbv zeta.
  assert (E : forall p : Incident -> bool,
            List.length (List.filter p incidents)
            = List.length (List.filter p [s; e; r])).
  { intros p. symmetry. apply Permutation_length.
    clear - HP. induction HP; simpl;
      repeat match goal with |- context [if p ?x then _ else _] =>
               destruct (p x) end;
      eauto using Permutation. }
  rewrite computeStats_buckets.
  cbn [total high open closed logged refusals ejections].
  rewrite <- (Permutation_length HP), !E.
  unfold high_priority, sit_rep_record, category_is, closed_record in *.
  simpl. rewrite Hs, He, Hr, Hoe, Hcr. simpl. repeat split.
Qed.

(** C4 at a concrete input. *)
Lemma incident_buckets_sample :
  let st := computeStats [closed_refusal; sit_rep; open_ejection] in
  total st = 3%nat /\ high st = 1%nat /\ open st = 1%nat
  /\ closed st = 1%nat /\ logged st = 1%nat
  /\ refusals st = 1%nat /\ ejections st = 1%nat.
Proof.
  apply (proj2 incident_buckets sit_rep open_ejection closed_refusal);
    try reflexivity.
  apply Permutation_sym, (Permutation_cons_app [sit_rep; open_ejection] []).
  apply Permutation_refl.
Defined.

End Statistics.

(* ------------------------------------------------------------------ *)
(** * The occupancy view: listeners, fetches, lifecycle                 *)
(* ------------------------------------------------------------------ *)

Section Occupancy.

Import Backend Async VenueOccupancy Spec.
Local Open Scope list_scope.
Local Arguments channel_topic : simpl never.

Lemma apply_pushed_count_retained payload w :
  mounted w = true ->
  retained (apply_pushed_count payload w)
  = match numeric_count payload with
    | Some n => (n, loading w, venueCapacity w)
    | None => retained w
    end.
Proof.
  intros Hm. unfold apply_pushed_count, numeric_count, pushed_count, JS.get.
  destruct (new payload) as [| |b|n|s|props]; simpl;
    try (rewrite ?andb_false_r; reflexivity).
  destruct (JS.assoc "count" props); simpl; try reflexivity.
  unfold setCurrentCount. rewrite Hm. reflexivity.
Qed.

(** C9: when an INSERT or UPDATE notification reaches the view, the
    current count becomes the count of the payload's new row if the
    payload has such a row and its count is a number, and nothing of the
    retained state changes otherwise (row missing, count missing or not
    a number); the loading flag and the capacity never change. *)
Theorem pushed_count_applied (payload : Payload) (w : World) :
  mounted w = true ->
  let expected :=
    match numeric_count payload with
    | Some n => (n, loading w, venueCapacity w)
    | None => retained w
    end in
  retained (onInsert payload w) = expected
  /\ retained (onUpdate payload w) = expected
  /\ (forall c event_id,
        live (env w) = [c] -> filter c = Some event_id ->
        retained (step (Notification INSERT event_id payload) w) = expected
        /\ retained (step (Notification UPDATE event_id payload) w) = expected
        /\ retained (step (Notification DELETE event_id payload) w) = retained w).
Proof.
  intros Hm expected.
  assert (HI : retained (onInsert payload w) = expected).
  { unfold onInsert. rewrite apply_pushed_count_retained by exact Hm. reflexivity. }
  assert (HU : retained (onUpdate payload w) = expected).
  { unfold onUpdate. rewrite apply_pushed_count_retained by exact Hm. reflexivity. }
  split; [exact HI|]. split; [exact HU|].
  intros c event_id Hl Hf. unfold step. rewrite Hl. cbn [fold_left].
  unfold deliver. rewrite Hf. cbn [key_eqb]. rewrite String.eqb_refl.
  repeat split; auto.
Qed.

(** C9 at a concrete payload. *)
Lemma pushed_count_applied_sample :
  retained (onInsert {| new := JS.VObj [("count"%string, JS.VNum (JS.Num 1200))] |}
                     (run [Render (Some "A"%string) 1000] initial))
  = (JS.Num 1200, true, JS.Num 3500).
Proof.
  exact (proj1 (pushed_count_applied
                  {| new := JS.VObj [("count"%string, JS.VNum (JS.Num 1200))] |}
                  (run [Render (Some "A"%string) 1000] initial) eq_refl)).
Defined.

(** ** What a settled read does to the view *)

Ltac settle Hm :=
  unfold step, resume, fetchData_event, fetchData_attendance,
    try_catch_finally, fetchData_catch, fetchData_finally,
    bind, exec, ret, throw, setCurrentCount, setVenueCapacity, setLoading,
    drop_call, with_pending, with_env, retained, occupancy_defaults in *;
  cbn; rewrite ?Hm; cbn.

Lemma cleanup_retained w : retained (cleanup w) = retained w.
Proof. unfold cleanup. destruct (subscriptionRef w); reflexivity. Qed.

Lemma cleanup_mounted w : mounted (cleanup w) = mounted w.
Proof. unfold cleanup. destruct (subscriptionRef w); reflexivity. Qed.

Lemma cleanup_pending w : pending (cleanup w) = pending w.
Proof. unfold cleanup. destruct (subscriptionRef w); reflexivity. Qed.

Lemma cleanup_unhandled w : unhandled (env (cleanup w)) = unhandled (env w).
Proof. unfold cleanup. destruct (subscriptionRef w); reflexivity. Qed.

(** On an unmounted instance the setters do nothing, so a settled read
    leaves the retained state as it was. *)
Lemma settle_unmounted r w :
  mounted w = false -> occupancy_settles r = true ->
  retained (step r w) = retained w.
Proof.
  intros Hm Hr. destruct r as [| |call r|call r|]; try discriminate.
  - settle Hm. destruct (is_pending call AwaitEvent w); [|reflexivity].
    destruct r as [data [e|]|reason]; cbn; rewrite ?Hm; cbn; try reflexivity.
    destruct (JS.truthy (fetched_capacity data)); cbn; rewrite ?Hm; reflexivity.
  - settle Hm. destruct (is_pending call AwaitAttendance w); [|reflexivity].
    destruct r as [data e|reason]; cbn; rewrite ?Hm; cbn; try reflexivity.
    destruct (unexpected e); cbn; rewrite ?Hm; cbn; try reflexivity.
    destruct data; cbn; rewrite ?Hm; reflexivity.
Qed.

(** The retained state after a settled read depends on the retained
    state before, on the suspended calls and on the mounted flag only. *)
Lemma settle_retained r w1 w2 :
  occupancy_settles r = true ->
  retained w1 = retained w2 -> pending w1 = pending w2 -> mounted w1 = mounted w2 ->
  retained (step r w1) = retained (step r w2).
Proof.
  intros Hr HR HP HM. unfold retained in HR. injection HR as Hc Hl Hv.
  destruct r as [| |call r|call r|]; try discriminate.
  - unfold step, resume, is_pending. rewrite HP.
    destruct (existsb _ (pending w2)); [|unfold retained; congruence].
    settle HM. destruct r as [data [e|]|reason]; cbn; rewrite ?HM; cbn;
      try (destruct (mounted w2); cbn; congruence).
    destruct (JS.truthy (fetched_capacity data)); cbn; rewrite ?HM;
      destruct (mounted w2); cbn; congruence.
  - unfold step, resume, is_pending. rewrite HP.
    destruct (existsb _ (pending w2)); [|unfold retained; congruence].
    settle HM. destruct r as [data e|reason]; cbn; rewrite ?HM; cbn;
      try (destruct (mounted w2); cbn; congruence).
    destruct (unexpected e); cbn; rewrite ?HM; cbn;
      try (destruct (mounted w2); cbn; congruence).
    destruct data; cbn; rewrite ?HM; destruct (mounted w2); cbn; congruence.
Qed.

Lemma is_pending_requeued call ph ph' (l : list (nat * Phase)) :
  existsb (fun p => Nat.eqb (fst p) call && phase_eqb (snd p) ph')
          (List.filter (fun p => negb (Nat.eqb (fst p) call)) l ++ [(call, ph)])
  = phase_eqb ph ph'.
Proof.
  rewrite existsb_app. cbn. rewrite Nat.eqb_refl, orb_false_r. cbn.
  replace (existsb _ (List.filter _ l)) with false; [reflexivity|].
  symmetry. induction l as [|[c q] l IH]; [reflexivity|].
  cbn. destruct (Nat.eqb c call) eqn:E; cbn; [exact IH|].
  rewrite E. cbn. exact IH.
Qed.

(** The first read resolved without an error. *)
Lemma event_read_resolved call eventData w :
  mounted w = true -> is_pending call AwaitEvent w = true ->
  let w' := step (EventSettled call (Resolved eventData None)) w in
  venueCapacity w'
  = (if JS.truthy (fetched_capacity eventData)
     then JS.parseInt (fetched_capacity eventData) else venueCapacity w)
  /\ currentCount w' = currentCount w
  /\ loading w' = loading w
  /\ mounted w' = true
  /\ env w' = env w
  /\ is_pending call AwaitAttendance w' = true.
Proof.
  intros Hm Hp. cbv zeta. unfold step, resume. rewrite Hp.
  settle Hm.
  destruct (JS.truthy (fetched_capacity eventData)); cbn; rewrite ?Hm; cbn;
    repeat split; auto; unfold is_pending; cbn;
    apply (is_pending_requeued call AwaitAttendance AwaitAttendance).
Qed.

(** The first read failed. *)
Lemma event_read_failure call r w :
  mounted w = true -> is_pending call AwaitEvent w = true ->
  event_read_failed r ->
  let w' := step (EventSettled call r) w in
  occupancy_defaults w'
  /\ console (env w') = console (env w) ++ ["Error fetching occupancy data:"%string]
  /\ unhandled (env w') = unhandled (env w).
Proof.
  intros Hm Hp Hr. cbv zeta. unfold step, resume. rewrite Hp.
  destruct r as [data [e|]|reason]; try contradiction;
    settle Hm; repeat split; reflexivity.
Qed.

(** The second read settled. *)
Lemma attendance_read_failure call r w :
  mounted w = true -> is_pending call AwaitAttendance w = true ->
  attendance_read_failed r ->
  let w' := step (AttendanceSettled call r) w in
  occupancy_defaults w'
  /\ console (env w') = console (env w) ++ ["Error fetching occupancy data:"%string]
  /\ unhandled (env w') = unhandled (env w).
Proof.
  intros Hm Hp Hr. cbv zeta. unfold step, resume. rewrite Hp.
  destruct r as [data e|reason].
  - cbn in Hr. settle Hm. destruct (unexpected e); [|contradiction].
    cbn. rewrite ?Hm. cbn. repeat split; reflexivity.
  - settle Hm. repeat split; reflexivity.
Qed.

Lemma attendance_read_resolved call attendanceData attendanceError w :
  mounted w = true -> is_pending call AwaitAttendance w = true ->
  unexpected attendanceError = None ->
  let w' := step (AttendanceSettled call (Resolved attendanceData attendanceError)) w in
  venueCapacity w' = venueCapacity w
  /\ currentCount w'
     = match attendanceData with Some row => count row | None => JS.Num 0 end
  /\ loading w' = false
  /\ env w' = env w.
Proof.
  intros Hm Hp He. cbv zeta. unfold step, resume. rewrite Hp.
  settle Hm. rewrite He. destruct attendanceData; cbn; rewrite ?Hm; cbn;
    repeat split; reflexivity.
Qed.

(** No step lets a promise reject with nobody to catch it. *)
Lemma deliver_unhandled kind event_id payload c w :
  unhandled (env (deliver kind event_id payload c w)) = unhandled (env w).
Proof.
  unfold occupancy_frame, deliver, onInsert, onUpdate, apply_pushed_count.
  destruct (key_eqb _ _); [|reflexivity].
  destruct kind; cbn; try reflexivity;
    destruct (_ && _); try reflexivity;
    destruct (pushed_count payload); try reflexivity;
    unfold setCurrentCount; cbn; destruct (mounted w); reflexivity.
Qed.

Lemma step_unhandled ev w : unhandled (env (step ev w)) = unhandled (env w).
Proof.
  destruct ev as [k now| |call r|call r|kind event_id payload].
  - unfold step. destruct (mounted w); [|reflexivity].
    set (w0 := with_env (log "Render state:") w).
    change (unhandled (env w)) with (unhandled (env w0)).
    clearbody w0. clear w. rename w0 into w.
    unfold commit. destruct (deps_changed w k); [|reflexivity].
    assert (E : forall w0, unhandled (env (fst (effect k now w0)))
                           = unhandled (env w0)).
    { intros w0. unfold effect. destruct (valid_key k); cbn.
      - unfold fetchData, setLoading. cbn. rewrite cleanup_mounted. cbn.
        destruct (mounted w0); cbn; apply (cleanup_unhandled
          (with_env (log "Setting up venue occupancy for event:") w0)).
      - apply (cleanup_unhandled (with_env (log "No currentEventId provided") w0)). }
    destruct (effect k now _) as [w2 b] eqn:Eff.
    cbn. change w2 with (fst (w2, b)). rewrite <- Eff, E.
    destruct (has_cleanup w); [apply cleanup_unhandled | reflexivity].
  - unfold step. destruct (mounted w); [|reflexivity]. cbn.
    destruct (has_cleanup w); [apply cleanup_unhandled | reflexivity].
  - unfold step, resume. destruct (is_pending call AwaitEvent w); [|reflexivity].
    settle I. destruct r as [data [e|]|reason]; cbn;
      try (destruct (mounted w); reflexivity).
    destruct (JS.truthy (fetched_capacity data)); cbn;
      destruct (mounted w); reflexivity.
  - unfold step, resume. destruct (is_pending call AwaitAttendance w); [|reflexivity].
    settle I. destruct r as [data e|reason]; cbn;
      try (destruct (mounted w); reflexivity).
    destruct (unexpected e); cbn; try (destruct (mounted w); reflexivity).
    destruct data; cbn; destruct (mounted w); reflexivity.
  - unfold step. generalize (live (env w)) at 1. intros l. revert w.
    induction l as [|c l IH]; intros w; [reflexivity|].
    cbn. rewrite IH. apply deliver_unhandled.
Qed.

Lemma run_unhandled evs w : unhandled (env (run evs w)) = unhandled (env w).
Proof.
  revert w. induction evs as [|ev evs IH]; intros w; [reflexivity|].
  cbn. fold (run evs (step ev w)). rewrite IH. apply step_unhandled.
Qed.

(** ** The channel of the view *)

Lemma cleanup_channels w :
  occupancy_channel_inv w ->
  live (env (cleanup w)) = []
  /\ subscriptionRef (cleanup w) = None
  /\ ops (env (cleanup w)) = ops (env w) ++ map Unsubscribe (live (env w))
  /\ next_chan (env (cleanup w)) = next_chan (env w).
Proof.
  unfold occupancy_channel_inv, cleanup. intros H.
  destruct (subscriptionRef w) as [c|] eqn:R; cbn in *; rewrite H; cbn.
  - unfold same_channel. rewrite Nat.eqb_refl. cbn. auto.
  - rewrite R, app_nil_r. auto.
Qed.

Lemma cleanup_inv w : occupancy_channel_inv w -> occupancy_channel_inv (cleanup w).
Proof.
  intros H. destruct (cleanup_channels w H) as (Hl & Hr & _).
  unfold occupancy_channel_inv. rewrite Hl, Hr. reflexivity.
Qed.

Lemma log_inv msg w :
  occupancy_channel_inv w -> occupancy_channel_inv (with_env (log msg) w).
Proof. exact (fun H => H). Qed.

(** A commit that changes the key to a valid one: the channel held is
    closed, then one channel is opened for the new key. *)
Lemma commit_key_channels k now w :
  occupancy_channel_inv w -> mounted w = true ->
  deps_changed w (Some k) = true -> valid_key (Some k) = Some k ->
  let w' := commit (Some k) now w in
  let c := occupancy_channel k now w in
  ops (env w') = ops (env w) ++ map Unsubscribe (live (env w)) ++ [Subscribe c]
  /\ live (env w') = [c]
  /\ subscriptionRef w' = Some c.
Proof.
  intros Hinv Hm Hd Hv. cbv zeta. unfold commit. rewrite Hd.
  set (w1 := if has_cleanup w then cleanup w else w).
  assert (H1 : occupancy_channel_inv w1
               /\ ops (env (cleanup w1)) = ops (env w) ++ map Unsubscribe (live (env w))
               /\ next_chan (env (cleanup w1)) = next_chan (env w)
               /\ mounted w1 = true).
  { subst w1. destruct (has_cleanup w).
    - pose proof (cleanup_inv w Hinv) as Hc.
      destruct (cleanup_channels w Hinv) as (Hl & Hr & Ho & Hn).
      destruct (cleanup_channels (cleanup w) Hc) as (_ & _ & Ho' & Hn').
      rewrite Ho', Hn', Hl, Ho, Hn, app_nil_r, cleanup_mounted. auto.
    - destruct (cleanup_channels w Hinv) as (_ & _ & Ho & Hn). auto. }
  destruct H1 as (Hinv1 & Hops & Hnext & Hm1).
  unfold effect. rewrite Hv.
  set (w2 := with_env (log "Setting up venue occupancy for event:") w1).
  assert (Hinv2 : occupancy_channel_inv w2) by exact Hinv1.
  destruct (cleanup_channels w2 Hinv2) as (Hl & Hr & Ho & Hn).
  destruct (cleanup_channels w1 Hinv1) as (_ & _ & Ho1 & Hn1).
  unfold subscribe. cbn. unfold fetchData, setLoading. cbn.
  rewrite cleanup_mounted. subst w2. cbn. rewrite Hm1. cbn.
  rewrite Hl, Ho, Hn. cbn. unfold occupancy_channel.
  rewrite <- Hnext, Hn1. repeat split; auto.
  rewrite !app_assoc. f_equal. rewrite <- Ho1. exact Hops.
Qed.

Lemma render_key_channels k now w :
  occupancy_channel_inv w -> mounted w = true ->
  deps_changed w (Some k) = true -> valid_key (Some k) = Some k ->
  let w' := step (Render (Some k) now) w in
  let c := occupancy_channel k now w in
  ops (env w') = ops (env w) ++ map Unsubscribe (live (env w)) ++ [Subscribe c]
  /\ live (env w') = [c]
  /\ subscriptionRef w' = Some c.
Proof.
  intros Hinv Hm Hd Hv. cbv zeta. unfold step. rewrite Hm.
  exact (commit_key_channels k now (with_env (log "Render state:") w) Hinv Hm Hd Hv).
Qed.

Lemma valid_key_some k k' : valid_key k = Some k' -> k = Some k'.
Proof.
  unfold valid_key. destruct k as [s|]; [|discriminate].
  destruct (JS.truthy (JS.VStr s)); [|discriminate]. congruence.
Qed.

(** A commit that takes the key away, or an unmount: the channel held
    is closed and none is opened. *)
Lemma commit_none_channels k now w :
  occupancy_channel_inv w -> mounted w = true ->
  deps_changed w k = true -> valid_key k = None ->
  let w' := commit k now w in
  ops (env w') = ops (env w) ++ map Unsubscribe (live (env w))
  /\ live (env w') = []
  /\ subscriptionRef w' = None.
Proof.
  intros Hinv Hm Hd Hv. cbv zeta. unfold commit. rewrite Hd.
  unfold effect. rewrite Hv.
  destruct (has_cleanup w).
  - pose proof (cleanup_inv w Hinv) as Hc.
    destruct (cleanup_channels w Hinv) as (Hl & Hr & Ho & Hn).
    destruct (cleanup_channels (with_env (log "No currentEventId provided") (cleanup w)) Hc)
      as (Hl' & Hr' & Ho' & Hn').
    cbn. rewrite Hl', Hr', Ho'. cbn. rewrite Hl, Ho, app_nil_r. auto.
  - destruct (cleanup_channels (with_env (log "No currentEventId provided") w) Hinv)
      as (Hl' & Hr' & Ho' & Hn').
    cbn. rewrite Hl', Hr', Ho'. auto.
Qed.

Lemma render_none_channels k now w :
  occupancy_channel_inv w -> mounted w = true ->
  deps_changed w k = true -> valid_key k = None ->
  let w' := step (Render k now) w in
  ops (env w') = ops (env w) ++ map Unsubscribe (live (env w))
  /\ live (env w') = []
  /\ subscriptionRef w' = None.
Proof.
  intros Hinv Hm Hd Hv. cbv zeta. unfold step. rewrite Hm.
  exact (commit_none_channels k now (with_env (log "Render state:") w) Hinv Hm Hd Hv).
Qed.

Lemma unmount_channels w :
  occupancy_channel_inv w -> mounted w = true -> has_cleanup w = true ->
  let w' := step Unmount w in
  ops (env w') = ops (env w) ++ map Unsubscribe (live (env w))
  /\ live (env w') = []
  /\ subscriptionRef w' = None.
Proof.
  intros Hinv Hm Hc. cbv zeta. unfold step. rewrite Hm, Hc.
  destruct (cleanup_channels w Hinv) as (Hl & Hr & Ho & Hn). cbn. auto.
Qed.

Lemma deliver_frame kind event_id payload c w :
  occupancy_frame (deliver kind event_id payload c w) = occupancy_frame w.
Proof.
  unfold occupancy_frame, deliver, onInsert, onUpdate, apply_pushed_count.
  destruct (key_eqb _ _); [|reflexivity].
  destruct kind; cbn; try reflexivity;
    destruct (_ && _); try reflexivity;
    destruct (pushed_count payload); try reflexivity;
    unfold setCurrentCount; cbn; destruct (mounted w) eqn:Hm; cbn;
    rewrite ?Hm; reflexivity.
Qed.

Lemma notification_frame kind event_id payload w :
  occupancy_frame (step (Notification kind event_id payload) w) = occupancy_frame w.
Proof.
  unfold step. generalize (live (env w)) at 1. intros l. revert w.
  induction l as [|c l IH]; intros w; [reflexivity|].
  cbn. rewrite IH. apply deliver_frame.
Qed.

Lemma settle_frame r w :
  occupancy_settles r = true -> occupancy_frame (step r w) = occupancy_frame w.
Proof.
  unfold occupancy_frame.
  intros Hr. destruct r as [| |call r|call r|]; try discriminate.
  - unfold step, resume. destruct (is_pending call AwaitEvent w); [|reflexivity].
    settle I. destruct r as [data [e|]|reason]; cbn;
      try solve [destruct (mounted w) eqn:Hm; cbn; rewrite ?Hm; reflexivity].
    destruct (JS.truthy (fetched_capacity data)); cbn; destruct (mounted w) eqn:Hm; cbn; rewrite ?Hm; reflexivity.
  - unfold step, resume. destruct (is_pending call AwaitAttendance w); [|reflexivity].
    settle I. destruct r as [data e|reason]; cbn;
      try solve [destruct (mounted w) eqn:Hm; cbn; rewrite ?Hm; reflexivity].
    destruct (unexpected e); cbn; try solve [destruct (mounted w) eqn:Hm; cbn; rewrite ?Hm; reflexivity].
    destruct data; cbn; destruct (mounted w) eqn:Hm; cbn; rewrite ?Hm; reflexivity.
Qed.

Lemma frame_inv w w' :
  occupancy_frame w' = occupancy_frame w ->
  occupancy_lifecycle_inv w -> occupancy_lifecycle_inv w'.
Proof.
  unfold occupancy_frame, occupancy_lifecycle_inv, occupancy_channel_inv.
  intros H. injection H as Hl Ho Hr Hc Hm Hd. rewrite Hl, Hr, Hc, Hm. auto.
Qed.

Lemma step_inv ev w :
  occupancy_lifecycle_inv w -> occupancy_lifecycle_inv (step ev w).
Proof.
  intros Hall. pose proof Hall as (Hinv & Hnc & Hum).
  destruct ev as [k now| |call r|call r|kind event_id payload].
  - unfold step. destruct (mounted w) eqn:Hm; [|exact Hall].
    set (w0 := with_env (log "Render state:") w).
    assert (Hall0 : occupancy_lifecycle_inv w0) by exact Hall.
    assert (Hinv0 : occupancy_channel_inv w0) by exact Hinv.
    assert (Hm0 : mounted w0 = true) by exact Hm.
    clearbody w0.
    destruct (deps_changed w0 k) eqn:Hd.
    + destruct (valid_key k) as [k'|] eqn:Hv.
      * pose proof (valid_key_some _ _ Hv). subst k.
        destruct (commit_key_channels k' now w0 Hinv0 Hm0 Hd Hv) as (_ & Hl & Hr).
        unfold occupancy_lifecycle_inv, occupancy_channel_inv.
        rewrite Hl, Hr. split; [reflexivity|].
        unfold commit. rewrite Hd. unfold effect. rewrite Hv.
        cbn. split; discriminate.
      * destruct (commit_none_channels k now w0 Hinv0 Hm0 Hd Hv) as (_ & Hl & Hr).
        unfold occupancy_lifecycle_inv, occupancy_channel_inv.
        rewrite Hl, Hr. split; [reflexivity|]. split; [reflexivity|].
        unfold commit. rewrite Hd. unfold effect. rewrite Hv.
        cbn. discriminate.
    + unfold commit. rewrite Hd. exact Hall0.
  - unfold step. destruct (mounted w) eqn:Hm; [|exact Hall].
    unfold occupancy_lifecycle_inv, occupancy_channel_inv.
    destruct (has_cleanup w) eqn:Hc.
    + destruct (cleanup_channels w Hinv) as (Hl & Hr & _).
      cbn. rewrite Hl, Hr. auto.
    + cbn. unfold occupancy_channel_inv in Hinv.
      rewrite (Hnc eq_refl) in Hinv |- *. auto.
  - apply (frame_inv w); [apply (settle_frame (EventSettled call r)); reflexivity|exact Hall].
  - apply (frame_inv w); [apply (settle_frame (AttendanceSettled call r)); reflexivity|exact Hall].
  - apply (frame_inv w); [apply notification_frame|exact Hall].
Qed.

Lemma run_inv evs w :
  occupancy_lifecycle_inv w -> occupancy_lifecycle_inv (run evs w).
Proof.
  revert w. induction evs as [|ev evs IH]; intros w H; [exact H|].
  cbn. apply IH, step_inv, H.
Qed.

Lemma initial_inv : occupancy_lifecycle_inv initial.
Proof. repeat split; auto. Qed.

(** After an unmount no channel is live. *)
Lemma unmount_closes w :
  occupancy_lifecycle_inv w ->
  let w' := step Unmount w in
  live (env w') = []
  /\ ops (env w')
     = ops (env w) ++ (if mounted w then map Unsubscribe (live (env w)) else []).
Proof.
  intros (Hinv & Hnc & Hum). cbv zeta. unfold step.
  destruct (mounted w) eqn:Hm.
  - destruct (has_cleanup w) eqn:Hc.
    + destruct (cleanup_channels w Hinv) as (Hl & Hr & Ho & _). cbn. auto.
    + cbn. unfold occupancy_channel_inv in Hinv. rewrite (Hnc eq_refl) in Hinv.
      rewrite Hinv. cbn. rewrite app_nil_r. auto.
  - unfold occupancy_channel_inv in Hinv.
    rewrite (Hnc (Hum eq_refl)) in Hinv. rewrite Hinv, app_nil_r. auto.
Qed.

End Occupancy.
(** ** Renders without a key *)

Section OccupancyRenders.

Import Backend Async VenueOccupancy Spec.
Local Open Scope list_scope.
Local Arguments channel_topic : simpl never.

(** A commit that takes the key away changes nothing of the retained
    state and of the suspended fetches. *)
Lemma render_none_retained now w :
  retained (step (Render None now) w) = retained w
  /\ pending (step (Render None now) w) = pending w
  /\ mounted (step (Render None now) w) = mounted w.
Proof.
  unfold step. destruct (mounted w) eqn:Hm; [|auto].
  set (w0 := with_env (log "Render state:") w).
  change (retained w) with (retained w0). change (pending w) with (pending w0).
  assert (Hm0 : mounted w0 = true) by exact Hm.
  clearbody w0.
  unfold commit. destruct (deps_changed w0 None); [|auto].
  unfold effect. cbn [valid_key].
  set (w1 := if has_cleanup w0 then cleanup w0 else w0).
  assert (G : retained w1 = retained w0 /\ pending w1 = pending w0).
  { unfold w1. destruct (has_cleanup w0);
      rewrite ?cleanup_retained, ?cleanup_pending; auto. }
  split; [|split].
  - change (retained (cleanup (with_env (log "No currentEventId provided") w1))
            = retained w0).
    rewrite cleanup_retained. apply G.
  - change (pending (cleanup (with_env (log "No currentEventId provided") w1))
            = pending w0).
    rewrite cleanup_pending. apply G.
  - reflexivity.
Qed.

Lemma held_length (r : option Channel) : (List.length (held r) <= 1)%nat.
Proof. destruct r; cbn; lia. Qed.

End OccupancyRenders.


(* ------------------------------------------------------------------ *)
(** * The dashboard: fetches and lifecycle                              *)
(* ------------------------------------------------------------------ *)

Section DashboardLifecycle.

Import Backend Async Dashboard Spec.
Local Open Scope list_scope.

Ltac dsettle :=
  unfold step, resume, checkCurrentEvent_resume, fetchIncidentStats_current,
    fetchIncidentStats_incidents, try_catch, bind, exec, ret, throw,
    setIncidentStats, setCurrentEventId, setHasCurrentEvent,
    drop_call, with_pending, with_env, dashboard_retained in *;
  cbn.

Lemma dashboard_cleanup_retained w :
  dashboard_retained (cleanup w) = dashboard_retained w.
Proof. unfold cleanup. destruct (subscriptionRef w); reflexivity. Qed.

Lemma dashboard_cleanup_unhandled w :
  unhandled (env (cleanup w)) = unhandled (env w).
Proof. unfold cleanup. destruct (subscriptionRef w); reflexivity. Qed.

(** On an unmounted instance the setters do nothing. *)
Lemma dashboard_settle_unmounted r w :
  mounted w = false -> dashboard_settles r = true ->
  dashboard_retained (step r w) = dashboard_retained w.
Proof.
  intros Hm Hr. destruct r as [| |call r|call r|call r| | |]; try discriminate.
  - dsettle. destruct (is_pending call AwaitCheck w); [|reflexivity].
    destruct r as [data e|reason]; cbn; rewrite ?Hm; cbn; reflexivity.
  - dsettle. destruct (is_pending call AwaitCurrent w); [|reflexivity].
    destruct r as [[row|] e|reason]; cbn; reflexivity.
  - dsettle. destruct (is_pending call AwaitIncidents w); [|reflexivity].
    destruct r as [[rows|] e|reason]; cbn; rewrite ?Hm; cbn; reflexivity.
Qed.

(** A failed read of [fetchIncidentStats]: the statistics stay as they
    were; the console gets a line only when the promise rejected. *)
Lemma current_read_failure call r w :
  dashboard_read_failed r ->
  let w' := step (CurrentSettled call r) w in
  dashboard_retained w' = dashboard_retained w
  /\ unhandled (env w') = unhandled (env w)
  /\ console (env w')
     = match r with
       | Rejected _ =>
           if is_pending call AwaitCurrent w
           then console (env w) ++ ["Error fetching incident stats:"%string]
           else console (env w)
       | Resolved _ _ => console (env w)
       end.
Proof.
  intros Hr. cbv zeta. dsettle.
  destruct (is_pending call AwaitCurrent w);
    destruct r as [[row|] [e|]|reason]; try contradiction; cbn; auto.
Qed.

Lemma incidents_read_failure call r w :
  dashboard_read_failed r ->
  let w' := step (IncidentsSettled call r) w in
  dashboard_retained w' = dashboard_retained w
  /\ unhandled (env w') = unhandled (env w)
  /\ console (env w')
     = match r with
       | Rejected _ =>
           if is_pending call AwaitIncidents w
           then console (env w) ++ ["Error fetching incident stats:"%string]
           else console (env w)
       | Resolved _ _ => console (env w)
       end.
Proof.
  intros Hr. cbv zeta. dsettle.
  destruct (is_pending call AwaitIncidents w);
    destruct r as [[row|] [e|]|reason]; try contradiction; cbn; auto.
Qed.

Lemma suspend_fold {A} ph (l : list A) w :
  unhandled (env (fold_left (fun w _ => suspend ph w) l w)) = unhandled (env w)
  /\ dashboard_frame (fold_left (fun w _ => suspend ph w) l w) = dashboard_frame w.
Proof.
  revert w. induction l as [|x l IH]; intros w; [auto|].
  cbn. destruct (IH (suspend ph w)) as (-> & ->). auto.
Qed.

Lemma dashboard_step_unhandled ev w :
  unhandled (env (step ev w)) = unhandled (env w).
Proof.
  destruct ev as [now| |call r|call r|call r| | |].
  - unfold step. destruct (mounted w && negb (effect_ran w)); [|reflexivity].
    unfold effect, checkCurrentEvent, fetchIncidentStats, suspend. cbn.
    apply (dashboard_cleanup_unhandled
             (with_pending _ _ (with_pending _ _ w))).
  - unfold step. destruct (mounted w); [|reflexivity]. cbn.
    destruct (effect_ran w); [apply dashboard_cleanup_unhandled | reflexivity].
  - dsettle. destruct (is_pending call AwaitCheck w); [|reflexivity].
    destruct r as [data e|reason]; cbn; try reflexivity.
    destruct (mounted w); reflexivity.
  - dsettle. destruct (is_pending call AwaitCurrent w); [|reflexivity].
    destruct r as [[row|] e|reason]; reflexivity.
  - dsettle. destruct (is_pending call AwaitIncidents w); [|reflexivity].
    destruct r as [[rows|] e|reason]; cbn; try reflexivity.
    destruct (mounted w); reflexivity.
  - unfold step, fetchIncidentStats. apply suspend_fold.
  - unfold step. destruct (mounted w); reflexivity.
  - unfold step. destruct (mounted w); reflexivity.
Qed.

Lemma dashboard_run_unhandled evs w :
  unhandled (env (run evs w)) = unhandled (env w).
Proof.
  revert w. induction evs as [|ev evs IH]; intros w; [reflexivity|].
  cbn. fold (run evs (step ev w)). rewrite IH. apply dashboard_step_unhandled.
Qed.

(** ** The channel of the dashboard *)

Lemma dashboard_cleanup_channels w :
  dashboard_channel_inv w ->
  live (env (cleanup w)) = []
  /\ subscriptionRef (cleanup w) = None
  /\ ops (env (cleanup w)) = ops (env w) ++ map Unsubscribe (live (env w))
  /\ next_chan (env (cleanup w)) = next_chan (env w).
Proof.
  unfold dashboard_channel_inv, cleanup. intros H.
  destruct (subscriptionRef w) as [c|] eqn:R; cbn in *; rewrite H; cbn.
  - unfold same_channel. rewrite Nat.eqb_refl. cbn. auto.
  - rewrite R, app_nil_r. auto.
Qed.

(** The first commit: the effect opens one channel. *)
Lemma dashboard_mount_channels now w :
  dashboard_channel_inv w -> mounted w = true -> effect_ran w = false ->
  let w' := step (Render now) w in
  let c := dashboard_channel now w in
  ops (env w') = ops (env w) ++ map Unsubscribe (live (env w)) ++ [Subscribe c]
  /\ live (env w') = [c]
  /\ subscriptionRef w' = Some c.
Proof.
  intros Hinv Hm He. cbv zeta. unfold step. rewrite Hm, He. cbn [andb negb].
  unfold effect.
  set (w1 := fetchIncidentStats (checkCurrentEvent w)).
  assert (Hinv1 : dashboard_channel_inv w1) by exact Hinv.
  destruct (dashboard_cleanup_channels w1 Hinv1) as (Hl & Hr & Ho & Hn).
  unfold subscribe. cbn. rewrite Hl, Ho, Hn. cbn.
  unfold dashboard_channel. rewrite <- app_assoc. auto.
Qed.

Lemma dashboard_unmount_channels w :
  dashboard_channel_inv w -> mounted w = true -> effect_ran w = true ->
  let w' := step Unmount w in
  ops (env w') = ops (env w) ++ map Unsubscribe (live (env w))
  /\ live (env w') = []
  /\ subscriptionRef w' = None.
Proof.
  intros Hinv Hm Hc. cbv zeta. unfold step. rewrite Hm, Hc.
  destruct (dashboard_cleanup_channels w Hinv) as (Hl & Hr & Ho & Hn). cbn. auto.
Qed.

Lemma dashboard_settle_frame r w :
  dashboard_settles r = true -> dashboard_frame (step r w) = dashboard_frame w.
Proof.
  unfold dashboard_frame.
  intros Hr. destruct r as [| |call r|call r|call r| | |]; try discriminate.
  - dsettle. destruct (is_pending call AwaitCheck w); [|reflexivity].
    destruct r as [data e|reason]; cbn; try reflexivity.
    destruct (mounted w) eqn:Hm; cbn; rewrite ?Hm; reflexivity.
  - dsettle. destruct (is_pending call AwaitCurrent w); [|reflexivity].
    destruct r as [[row|] e|reason]; reflexivity.
  - dsettle. destruct (is_pending call AwaitIncidents w); [|reflexivity].
    destruct r as [[rows|] e|reason]; cbn; try reflexivity.
    destruct (mounted w) eqn:Hm; cbn; rewrite ?Hm; reflexivity.
Qed.

Lemma dashboard_frame_inv w w' :
  dashboard_frame w' = dashboard_frame w ->
  dashboard_lifecycle_inv w -> dashboard_lifecycle_inv w'.
Proof.
  unfold dashboard_frame, dashboard_lifecycle_inv, dashboard_channel_inv.
  intros H. injection H as Hl Ho Hr Hc Hm. rewrite Hl, Hr, Hc, Hm. auto.
Qed.

Lemma dashboard_step_inv ev w :
  dashboard_lifecycle_inv w -> dashboard_lifecycle_inv (step ev w).
Proof.
  intros Hall. pose proof Hall as (Hinv & Hnr & Hum).
  destruct ev as [now| |call r|call r|call r| | |].
  - destruct (mounted w && negb (effect_ran w)) eqn:E.
    + apply andb_prop in E. destruct E as [Hm He].
      apply negb_true_iff in He.
      destruct (dashboard_mount_channels now w Hinv Hm He) as (_ & Hl & Hr).
      unfold dashboard_lifecycle_inv, dashboard_channel_inv.
      rewrite Hl, Hr. split; [reflexivity|].
      unfold step. rewrite Hm, He. cbn. split; discriminate.
    + unfold step. rewrite E. exact Hall.
  - unfold step. destruct (mounted w) eqn:Hm; [|exact Hall].
    unfold dashboard_lifecycle_inv, dashboard_channel_inv.
    destruct (effect_ran w) eqn:He.
    + destruct (dashboard_cleanup_channels w Hinv) as (Hl & Hr & _).
      cbn. rewrite Hl, Hr. auto.
    + cbn. unfold dashboard_channel_inv in Hinv.
      rewrite (Hnr eq_refl) in Hinv |- *. auto.
  - apply (dashboard_frame_inv w);
      [apply (dashboard_settle_frame (CheckSettled call r)); reflexivity|exact Hall].
  - apply (dashboard_frame_inv w);
      [apply (dashboard_settle_frame (CurrentSettled call r)); reflexivity|exact Hall].
  - apply (dashboard_frame_inv w);
      [apply (dashboard_settle_frame (IncidentsSettled call r)); reflexivity|exact Hall].
  - apply (dashboard_frame_inv w); [|exact Hall].
    unfold step, fetchIncidentStats. apply suspend_fold.
  - apply (dashboard_frame_inv w); [|exact Hall].
    unfold step. destruct (mounted w); reflexivity.
  - apply (dashboard_frame_inv w); [|exact Hall].
    unfold step. destruct (mounted w); reflexivity.
Qed.

Lemma dashboard_run_inv evs w :
  dashboard_lifecycle_inv w -> dashboard_lifecycle_inv (run evs w).
Proof.
  revert w. induction evs as [|ev evs IH]; intros w H; [exact H|].
  cbn. apply IH, dashboard_step_inv, H.
Qed.

Lemma dashboard_initial_inv : dashboard_lifecycle_inv initial.
Proof. repeat split; auto. Qed.

(** After an unmount no channel is live. *)
Lemma dashboard_unmount_closes w :
  dashboard_lifecycle_inv w ->
  let w' := step Unmount w in
  live (env w') = []
  /\ ops (env w')
     = ops (env w) ++ (if mounted w then map Unsubscribe (live (env w)) else []).
Proof.
  intros (Hinv & Hnr & Hum). cbv zeta. unfold step.
  destruct (mounted w) eqn:Hm.
  - destruct (effect_ran w) eqn:Hc.
    + destruct (dashboard_cleanup_channels w Hinv) as (Hl & Hr & Ho & _). cbn. auto.
    + cbn. unfold dashboard_channel_inv in Hinv. rewrite (Hnr eq_refl) in Hinv.
      rewrite Hinv. cbn. rewrite app_nil_r. auto.
  - unfold dashboard_channel_inv in Hinv.
    rewrite (Hum eq_refl) in Hinv. rewrite Hinv, app_nil_r. auto.
Qed.

End DashboardLifecycle.

(* ------------------------------------------------------------------ *)
(** * Deactivation, channels, read errors, the fetched capacity         *)
(* ------------------------------------------------------------------ *)

Section Lifecycle.

Import Backend Spec.
Local Open Scope list_scope.

(** C1, as the specification states it, fails: the occupancy view is
    activated for event A, the key goes away (the cleanup of the
    effect runs), then the capacity read of A's [fetchData] resolves
    with 5000, and the retained capacity changes from 3500 to 5000. *)
Lemma late_result_mutates_state : ~ late_results_discarded.
Proof.
  intros [H _].
  specialize (H [VenueOccupancy.Render (Some "A"%string) 1000]
                (VenueOccupancy.Render None 2000)
                (VenueOccupancy.EventSettled 0
                   (Resolved (Some {| VenueOccupancy.venue_capacity :=
                                        JS.VNum (JS.Num 5000) |}) None))
                eq_refl eq_refl).
  vm_compute in H. discriminate H.
Qed.

(** C1 (amended): a read that settles after the instance has been
    unmounted changes nothing of the retained state, in the occupancy
    view and in the dashboard, because the setters of an unmounted
    instance do nothing.  The cleanup of the occupancy effect only
    closes the channel: a commit that takes the key away leaves the
    retained state as it is, and, the source keeping no flag for it, a
    read that settles afterwards on the still mounted instance is
    applied exactly as if the cleanup had not run. *)
Theorem late_results_after_deactivation :
  (forall w r,
      occupancy_settles r = true ->
      let w' := VenueOccupancy.step VenueOccupancy.Unmount w in
      VenueOccupancy.retained (VenueOccupancy.step r w') = VenueOccupancy.retained w')
  /\ (forall w r,
      dashboard_settles r = true ->
      let w' := Dashboard.step Dashboard.Unmount w in
      dashboard_retained (Dashboard.step r w') = dashboard_retained w')
  /\ (forall w now r,
      VenueOccupancy.mounted w = true -> occupancy_settles r = true ->
      let w' := VenueOccupancy.step (VenueOccupancy.Render None now) w in
      VenueOccupancy.retained w' = VenueOccupancy.retained w
      /\ VenueOccupancy.retained (VenueOccupancy.step r w')
         = VenueOccupancy.retained (VenueOccupancy.step r w)).
Proof.
  split; [|split].
  - intros w r Hr. cbv zeta.
    destruct (VenueOccupancy.mounted w) eqn:Hm.
    + apply settle_unmounted; [|exact Hr].
      unfold VenueOccupancy.step. rewrite Hm. reflexivity.
    + unfold VenueOccupancy.step at 2 3. rewrite Hm.
      apply settle_unmounted; assumption.
  - intros w r Hr. cbv zeta.
    destruct (Dashboard.mounted w) eqn:Hm.
    + apply dashboard_settle_unmounted; [|exact Hr].
      unfold Dashboard.step. rewrite Hm. reflexivity.
    + unfold Dashboard.step at 2 3. rewrite Hm.
      apply dashboard_settle_unmounted; assumption.
  - intros w now r Hm Hr. cbv zeta.
    destruct (render_none_retained now w) as (HR & HP & HM).
    split; [exact HR|].
    apply settle_retained; assumption.
Qed.

(** C1 (amended) at the run of the counterexample: the capacity read
    resolving after the cleanup sets the capacity to 5000, as it does
    without the cleanup. *)
Lemma late_results_after_deactivation_sample :
  let w := VenueOccupancy.run [VenueOccupancy.Render (Some "A"%string) 1000]
                              VenueOccupancy.initial in
  let r := VenueOccupancy.EventSettled 0
             (Resolved (Some {| VenueOccupancy.venue_capacity :=
                                  JS.VNum (JS.Num 5000) |}) None) in
  let w' := VenueOccupancy.step (VenueOccupancy.Render None 2000) w in
  VenueOccupancy.retained w' = VenueOccupancy.retained w
  /\ VenueOccupancy.retained (VenueOccupancy.step r w')
     = VenueOccupancy.retained (VenueOccupancy.step r w).
Proof.
  exact (proj2 (proj2 late_results_after_deactivation)
           (VenueOccupancy.run [VenueOccupancy.Render (Some "A"%string) 1000]
                               VenueOccupancy.initial)
           2000
           (VenueOccupancy.EventSettled 0
              (Resolved (Some {| VenueOccupancy.venue_capacity :=
                                   JS.VNum (JS.Num 5000) |}) None))
           eq_refl eq_refl).
Defined.

(** C2: in every run of an occupancy view or of a dashboard, the
    instance holds at most one live channel, the one its reference
    points to.  A commit that changes the key of the occupancy view to
    a valid one calls [unsubscribe] on the channel held, if any, and
    then opens exactly one channel, bound to the new key; a commit that
    takes the key away and an unmount close the channel held and open
    none.  The dashboard opens one channel at its first commit and
    closes it at unmount. *)
Theorem one_live_channel :
  (forall evs,
      let w := VenueOccupancy.run evs VenueOccupancy.initial in
      live (VenueOccupancy.env w) = held (VenueOccupancy.subscriptionRef w)
      /\ (List.length (live (VenueOccupancy.env w)) <= 1)%nat)
  /\ (forall evs k now,
      let w := VenueOccupancy.run evs VenueOccupancy.initial in
      VenueOccupancy.mounted w = true ->
      VenueOccupancy.deps_changed w (Some k) = true ->
      VenueOccupancy.valid_key (Some k) = Some k ->
      let w' := VenueOccupancy.step (VenueOccupancy.Render (Some k) now) w in
      let c := occupancy_channel k now w in
      ops (VenueOccupancy.env w')
      = ops (VenueOccupancy.env w)
        ++ map Unsubscribe (live (VenueOccupancy.env w)) ++ [Subscribe c]
      /\ live (VenueOccupancy.env w') = [c])
  /\ (forall evs k now,
      let w := VenueOccupancy.run evs VenueOccupancy.initial in
      VenueOccupancy.mounted w = true ->
      VenueOccupancy.deps_changed w k = true ->
      VenueOccupancy.valid_key k = None ->
      let w' := VenueOccupancy.step (VenueOccupancy.Render k now) w in
      ops (VenueOccupancy.env w')
      = ops (VenueOccupancy.env w) ++ map Unsubscribe (live (VenueOccupancy.env w))
      /\ live (VenueOccupancy.env w') = [])
  /\ (forall evs,
      let w := VenueOccupancy.run evs VenueOccupancy.initial in
      let w' := VenueOccupancy.step VenueOccupancy.Unmount w in
      live (VenueOccupancy.env w') = []
      /\ ops (VenueOccupancy.env w')
         = ops (VenueOccupancy.env w)
           ++ (if VenueOccupancy.mounted w
               then map Unsubscribe (live (VenueOccupancy.env w)) else []))
  /\ (forall evs,
      let w := Dashboard.run evs Dashboard.initial in
      live (Dashboard.env w) = held (Dashboard.subscriptionRef w)
      /\ (List.length (live (Dashboard.env w)) <= 1)%nat)
  /\ (forall evs now,
      let w := Dashboard.run evs Dashboard.initial in
      Dashboard.mounted w = true -> Dashboard.effect_ran w = false ->
      let w' := Dashboard.step (Dashboard.Render now) w in
      ops (Dashboard.env w')
      = ops (Dashboard.env w) ++ map Unsubscribe (live (Dashboard.env w))
        ++ [Subscribe (dashboard_channel now w)]
      /\ live (Dashboard.env w') = [dashboard_channel now w])
  /\ (forall evs,
      let w := Dashboard.run evs Dashboard.initial in
      let w' := Dashboard.step Dashboard.Unmount w in
      live (Dashboard.env w') = []
      /\ ops (Dashboard.env w')
         = ops (Dashboard.env w)
           ++ (if Dashboard.mounted w
               then map Unsubscribe (live (Dashboard.env w)) else [])).
Proof.
  assert (HV : forall evs,
             occupancy_lifecycle_inv (VenueOccupancy.run evs VenueOccupancy.initial))
    by (intros; apply run_inv, initial_inv).
  assert (HD : forall evs,
             dashboard_lifecycle_inv (Dashboard.run evs Dashboard.initial))
    by (intros; apply dashboard_run_inv, dashboard_initial_inv).
  repeat match goal with |- _ /\ _ => split end; cbv zeta.
  - intros evs. destruct (HV evs) as (H & _). split; [exact H|].
    rewrite H. apply held_length.
  - intros evs k now Hm Hd Hv. destruct (HV evs) as (H & _).
    destruct (render_key_channels k now _ H Hm Hd Hv) as (Ho & Hl & _). auto.
  - intros evs k now Hm Hd Hv. destruct (HV evs) as (H & _).
    destruct (render_none_channels k now _ H Hm Hd Hv) as (Ho & Hl & _). auto.
  - intros evs. apply unmount_closes, HV.
  - intros evs. destruct (HD evs) as (H & _). split; [exact H|].
    rewrite H. apply held_length.
  - intros evs now Hm He. destruct (HD evs) as (H & _).
    destruct (dashboard_mount_channels now _ H Hm He) as (Ho & Hl & _). auto.
  - intros evs. apply dashboard_unmount_closes, HD.
Qed.

(** C2 at a concrete run: the view is active for key A, the key changes
    to B; the calls on channels are: open A, close A, open B. *)
Lemma one_live_channel_sample :
  let w := VenueOccupancy.run [VenueOccupancy.Render (Some "A"%string) 1000]
                              VenueOccupancy.initial in
  let w' := VenueOccupancy.step (VenueOccupancy.Render (Some "B"%string) 2000) w in
  let c := occupancy_channel "B" 2000 w in
  ops (VenueOccupancy.env w')
  = ops (VenueOccupancy.env w)
    ++ map Unsubscribe (live (VenueOccupancy.env w)) ++ [Subscribe c]
  /\ live (VenueOccupancy.env w') = [c].
Proof.
  exact (proj1 (proj2 one_live_channel)
           [VenueOccupancy.Render (Some "A"%string) 1000] "B"%string 2000
           eq_refl eq_refl eq_refl).
Defined.

End Lifecycle.

Section ReadErrors.

Import Backend Spec.
Local Open Scope list_scope.

(** C8, as the specification states it, fails for [fetchIncidentStats]:
    the dashboard has fetched one incident (total 1), a notification
    starts a new fetch, and its first read resolves with an error
    object; the statistics stay at total 1 instead of falling back to
    zero. *)
Lemma failed_stats_read_keeps_stats : ~ read_errors_fall_back.
Proof.
  intros [_ H].
  specialize (H [Dashboard.Render 1000;
                 Dashboard.CurrentSettled 1
                   (Resolved (Some {| Dashboard.id := "e1" |}) None);
                 Dashboard.IncidentsSettled 1 (Resolved (Some [open_ejection]) None);
                 Dashboard.Notification]
                2%nat
                (Resolved None (Some {| code := "500"; message := "backend down" |}))
                eq_refl I).
  destruct H as [H _]. vm_compute in H. discriminate H.
Qed.

(** C8 (amended): when a read of the occupancy [fetchData] fails (the
    promise rejects, the first read resolves with an error, or the
    second with an error other than "no row"), the view falls back to
    count 0, capacity 3500 and loading false, and the error is logged.
    When a read of the dashboard's [fetchIncidentStats] fails, the
    retained state, the statistics included, stays as it was (zero only
    if nothing had been fetched), and the console gets a line only if
    the promise rejected.  In no run of either component does an
    exception leave a fetcher. *)
Theorem read_errors_recovered :
  (forall w call r,
      VenueOccupancy.mounted w = true ->
      VenueOccupancy.is_pending call VenueOccupancy.AwaitEvent w = true ->
      event_read_failed r ->
      let w' := VenueOccupancy.step (VenueOccupancy.EventSettled call r) w in
      occupancy_defaults w'
      /\ console (VenueOccupancy.env w')
         = console (VenueOccupancy.env w) ++ ["Error fetching occupancy data:"%string])
  /\ (forall w call r,
      VenueOccupancy.mounted w = true ->
      VenueOccupancy.is_pending call VenueOccupancy.AwaitAttendance w = true ->
      attendance_read_failed r ->
      let w' := VenueOccupancy.step (VenueOccupancy.AttendanceSettled call r) w in
      occupancy_defaults w'
      /\ console (VenueOccupancy.env w')
         = console (VenueOccupancy.env w) ++ ["Error fetching occupancy data:"%string])
  /\ (forall w call r,
      dashboard_read_failed r ->
      let w' := Dashboard.step (Dashboard.CurrentSettled call r) w in
      dashboard_retained w' = dashboard_retained w
      /\ console (Dashboard.env w')
         = match r with
           | Rejected _ =>
               if Dashboard.is_pending call Dashboard.AwaitCurrent w
               then console (Dashboard.env w) ++ ["Error fetching incident stats:"%string]
               else console (Dashboard.env w)
           | Resolved _ _ => console (Dashboard.env w)
           end)
  /\ (forall w call r,
      dashboard_read_failed r ->
      let w' := Dashboard.step (Dashboard.IncidentsSettled call r) w in
      dashboard_retained w' = dashboard_retained w
      /\ console (Dashboard.env w')
         = match r with
           | Rejected _ =>
               if Dashboard.is_pending call Dashboard.AwaitIncidents w
               then console (Dashboard.env w) ++ ["Error fetching incident stats:"%string]
               else console (Dashboard.env w)
           | Resolved _ _ => console (Dashboard.env w)
           end)
  /\ (forall evs,
      unhandled (VenueOccupancy.env (VenueOccupancy.run evs VenueOccupancy.initial)) = [])
  /\ (forall evs,
      unhandled (Dashboard.env (Dashboard.run evs Dashboard.initial)) = []).
Proof.
  repeat match goal with |- _ /\ _ => split end; cbv zeta.
  - intros w call r Hm Hp Hr.
    destruct (event_read_failure call r w Hm Hp Hr) as (H1 & H2 & _). auto.
  - intros w call r Hm Hp Hr.
    destruct (attendance_read_failure call r w Hm Hp Hr) as (H1 & H2 & _). auto.
  - intros w call r Hr.
    destruct (current_read_failure call r w Hr) as (H1 & _ & H2). auto.
  - intros w call r Hr.
    destruct (incidents_read_failure call r w Hr) as (H1 & _ & H2). auto.
  - intros evs. rewrite run_unhandled. reflexivity.
  - intros evs. rewrite dashboard_run_unhandled. reflexivity.
Qed.

(** C8 (amended) at a concrete run: the capacity read of the first
    fetch rejects. *)
Lemma read_errors_recovered_sample :
  let w := VenueOccupancy.run [VenueOccupancy.Render (Some "A"%string) 1000]
                              VenueOccupancy.initial in
  let w' := VenueOccupancy.step
              (VenueOccupancy.EventSettled 0 (Rejected "network error")) w in
  occupancy_defaults w'
  /\ console (VenueOccupancy.env w')
     = console (VenueOccupancy.env w) ++ ["Error fetching occupancy data:"%string].
Proof.
  exact (proj1 read_errors_recovered
           (VenueOccupancy.run [VenueOccupancy.Render (Some "A"%string) 1000]
                               VenueOccupancy.initial)
           0%nat (Rejected "network error") eq_refl eq_refl I).
Defined.

(** C10, as stated, fails over a whole fetch: the view shows event A
    with capacity 5000, the key changes to B whose [venue_capacity] is
    null, and B's attendance read rejects; the capacity is reset to
    3500 instead of keeping 5000. *)
Lemma failed_fetch_resets_capacity : ~ capacity_kept_without_field.
Proof.
  intros H.
  specialize (H [VenueOccupancy.Render (Some "A"%string) 1000;
                 VenueOccupancy.EventSettled 0
                   (Resolved (Some {| VenueOccupancy.venue_capacity :=
                                        JS.VNum (JS.Num 5000) |}) None);
                 VenueOccupancy.AttendanceSettled 0
                   (Resolved (Some {| VenueOccupancy.count := JS.Num 10 |}) None);
                 VenueOccupancy.Render (Some "B"%string) 2000]
                1%nat
                (Some {| VenueOccupancy.venue_capacity := JS.VNull |})
                (Rejected "network error")
                eq_refl eq_refl).
  vm_compute in H. discriminate H.
Qed.

(** C10 (amended): when the first read of [fetchData] resolves without
    an error, the capacity becomes [parseInt] of the fetched
    [venue_capacity] if that field is truthy and keeps its value
    otherwise (absent, null and the number zero are not truthy); the
    second read leaves the capacity alone unless it fails; a failing
    read resets the capacity to 3500.  So after a fetch whose field is
    not truthy the capacity is the prior one or 3500: a capacity stored
    as the number zero is never written by the fetch.  A capacity stored
    as a text is truthy unless the text is empty: after a fetch whose
    reads succeed the capacity is [parseInt] of the text, which is 0
    for the text "0". *)
Theorem fetched_capacity_applied (w : VenueOccupancy.World) (call : nat) :
  VenueOccupancy.mounted w = true ->
  VenueOccupancy.is_pending call VenueOccupancy.AwaitEvent w = true ->
  (forall eventData,
      let w1 := VenueOccupancy.step
                  (VenueOccupancy.EventSettled call (Resolved eventData None)) w in
      VenueOccupancy.venueCapacity w1
      = (if JS.truthy (VenueOccupancy.fetched_capacity eventData)
         then JS.parseInt (VenueOccupancy.fetched_capacity eventData)
         else VenueOccupancy.venueCapacity w)
      /\ (forall attendanceData attendanceError,
            VenueOccupancy.unexpected attendanceError = None ->
            VenueOccupancy.venueCapacity
              (VenueOccupancy.step
                 (VenueOccupancy.AttendanceSettled call
                    (Resolved attendanceData attendanceError)) w1)
            = VenueOccupancy.venueCapacity w1)
      /\ (forall r,
            attendance_read_failed r ->
            VenueOccupancy.venueCapacity
              (VenueOccupancy.step (VenueOccupancy.AttendanceSettled call r) w1)
            = JS.Num 3500))
  /\ (forall r,
        event_read_failed r ->
        VenueOccupancy.venueCapacity
          (VenueOccupancy.step (VenueOccupancy.EventSettled call r) w)
        = JS.Num 3500)
  /\ (forall eventData r,
        JS.truthy (VenueOccupancy.fetched_capacity eventData) = false ->
        let w2 := VenueOccupancy.run
                    [VenueOccupancy.EventSettled call (Resolved eventData None);
                     VenueOccupancy.AttendanceSettled call r] w in
        VenueOccupancy.venueCapacity w2 = VenueOccupancy.venueCapacity w
        \/ VenueOccupancy.venueCapacity w2 = JS.Num 3500)
  /\ JS.truthy (VenueOccupancy.fetched_capacity None) = false
  /\ JS.truthy JS.VNull = false
  /\ JS.truthy (JS.VNum (JS.Num 0)) = false
  /\ (forall eventData attendanceData attendanceError,
        JS.truthy (VenueOccupancy.fetched_capacity eventData) = true ->
        VenueOccupancy.unexpected attendanceError = None ->
        VenueOccupancy.venueCapacity
          (VenueOccupancy.run
             [VenueOccupancy.EventSettled call (Resolved eventData None);
              VenueOccupancy.AttendanceSettled call
                (Resolved attendanceData attendanceError)] w)
        = JS.parseInt (VenueOccupancy.fetched_capacity eventData))
  /\ (forall text, text <> ""%string -> JS.truthy (JS.VStr text) = true)
  /\ JS.parseInt (JS.VStr "0") = JS.Num 0
  /\ (forall attendanceData attendanceError,
        VenueOccupancy.unexpected attendanceError = None ->
        VenueOccupancy.venueCapacity
          (VenueOccupancy.run
             [VenueOccupancy.EventSettled call
                (Resolved (Some {| VenueOccupancy.venue_capacity := JS.VStr "0" |})
                          None);
              VenueOccupancy.AttendanceSettled call
                (Resolved attendanceData attendanceError)] w)
        = JS.Num 0).
Proof.
  intros Hm Hp.
  assert (A : forall eventData r,
            let w1 := VenueOccupancy.step
                        (VenueOccupancy.EventSettled call (Resolved eventData None)) w in
            (attendance_read_failed r ->
             VenueOccupancy.venueCapacity
               (VenueOccupancy.step (VenueOccupancy.AttendanceSettled call r) w1)
             = JS.Num 3500)
            /\ (forall d e, r = Resolved d e -> VenueOccupancy.unexpected e = None ->
                VenueOccupancy.venueCapacity
                  (VenueOccupancy.step (VenueOccupancy.AttendanceSettled call r) w1)
                = VenueOccupancy.venueCapacity w1)).
  { intros eventData r. cbv zeta.
    destruct (event_read_resolved call eventData w Hm Hp)
      as (_ & _ & _ & Hm1 & _ & Hp1).
    split.
    - intros Hr.
      destruct (attendance_read_failure call r _ Hm1 Hp1 Hr) as ((_ & H & _) & _).
      exact H.
    - intros d e -> He.
      destruct (attendance_read_resolved call d e _ Hm1 Hp1 He) as (H & _).
      exact H. }
  assert (T : forall eventData attendanceData attendanceError,
            JS.truthy (VenueOccupancy.fetched_capacity eventData) = true ->
            VenueOccupancy.unexpected attendanceError = None ->
            VenueOccupancy.venueCapacity
              (VenueOccupancy.run
                 [VenueOccupancy.EventSettled call (Resolved eventData None);
                  VenueOccupancy.AttendanceSettled call
                    (Resolved attendanceData attendanceError)] w)
            = JS.parseInt (VenueOccupancy.fetched_capacity eventData)).
  { intros eventData d e Ht He.
    change (VenueOccupancy.run
              [VenueOccupancy.EventSettled call (Resolved eventData None);
               VenueOccupancy.AttendanceSettled call (Resolved d e)] w)
      with (VenueOccupancy.step (VenueOccupancy.AttendanceSettled call (Resolved d e))
              (VenueOccupancy.step
                 (VenueOccupancy.EventSettled call (Resolved eventData None)) w)).
    rewrite (proj2 (A eventData (Resolved d e)) d e eq_refl He).
    destruct (event_read_resolved call eventData w Hm Hp) as (Hc & _).
    rewrite Ht in Hc. exact Hc. }
  split; [|split; [|split; [|split; [|split; [|split; [|split; [|split; [|split]]]]]]]];
    try reflexivity.
  - intros eventData. cbv zeta. split; [|split].
    + apply (event_read_resolved call eventData w Hm Hp).
    + intros d e He. apply (proj2 (A eventData (Resolved d e)) d e eq_refl He).
    + intros r Hr. apply (proj1 (A eventData r) Hr).
  - intros r Hr.
    destruct (event_read_failure call r w Hm Hp Hr) as ((_ & H & _) & _). exact H.
  - intros eventData r Hf. cbv zeta.
    change (VenueOccupancy.run
              [VenueOccupancy.EventSettled call (Resolved eventData None);
               VenueOccupancy.AttendanceSettled call r] w)
      with (VenueOccupancy.step (VenueOccupancy.AttendanceSettled call r)
              (VenueOccupancy.step
                 (VenueOccupancy.EventSettled call (Resolved eventData None)) w)).
    destruct (event_read_resolved call eventData w Hm Hp) as (Hc & _).
    rewrite Hf in Hc.
    destruct r as [d e|reason].
    + destruct (VenueOccupancy.unexpected e) eqn:He.
      * right. apply (proj1 (A eventData (Resolved d e))). cbn. congruence.
      * left. rewrite (proj2 (A eventData (Resolved d e)) d e eq_refl He). exact Hc.
    + right. apply (proj1 (A eventData (Rejected reason))). exact I.
  - exact T.
  - intros text Ht. cbn. destruct text; [congruence|reflexivity].
  - intros d e He.
    apply (T (Some {| VenueOccupancy.venue_capacity := JS.VStr "0" |}) d e eq_refl He).
Qed.

(** C10 (amended) at concrete runs: the stored capacity is the number
    zero, and the text "0". *)
Lemma fetched_capacity_applied_sample :
  VenueOccupancy.venueCapacity
    (VenueOccupancy.step
       (VenueOccupancy.EventSettled 0
          (Resolved (Some {| VenueOccupancy.venue_capacity := JS.VNum (JS.Num 0) |})
                    None))
       (VenueOccupancy.run [VenueOccupancy.Render (Some "A"%string) 1000]
                           VenueOccupancy.initial))
  = JS.Num 3500
  /\ VenueOccupancy.venueCapacity
       (VenueOccupancy.run
          [VenueOccupancy.EventSettled 0
             (Resolved (Some {| VenueOccupancy.venue_capacity := JS.VStr "0" |}) None);
           VenueOccupancy.AttendanceSettled 0
             (Resolved (Some {| VenueOccupancy.count := JS.Num 10 |}) None)]
          (VenueOccupancy.run [VenueOccupancy.Render (Some "A"%string) 1000]
                              VenueOccupancy.initial))
     = JS.Num 0.
Proof.
  pose proof (fetched_capacity_applied
                (VenueOccupancy.run [VenueOccupancy.Render (Some "A"%string) 1000]
                                    VenueOccupancy.initial)
                0%nat eq_refl eq_refl) as (H1 & _ & _ & _ & _ & _ & _ & _ & _ & H2).
  split.
  - exact (proj1 (H1 (Some {| VenueOccupancy.venue_capacity := JS.VNum (JS.Num 0) |}))).
  - exact (H2 (Some {| VenueOccupancy.count := JS.Num 10 |}) None eq_refl).
Defined.

End ReadErrors.

(* ------------------------------------------------------------------ *)
(** * Rendering the occupancy                                           *)
(* ------------------------------------------------------------------ *)

Section Rendering.

Import VenueOccupancy.
Local Open Scope list_scope.

Lemma gauge_divisors currentCount venueCapacity :
  snd (gauge currentCount venueCapacity) = [venueCapacity; venueCapacity].
Proof. reflexivity. Qed.

(** C7: whatever the count, the render divides by the capacity only
    under the test [venueCapacity > 0], so every divisor it meets is
    positive; when the capacity is zero it evaluates no division at all
    and shows neither the bar nor the percentage. *)
Theorem zero_capacity_suppresses_gauge (currentEventId : option string) (w : World) :
  Forall (fun d => JS.gt d (JS.Num 0) = true) (snd (render currentEventId w))
  /\ (venueCapacity w = JS.Num 0 ->
      snd (render currentEventId w) = []
      /\ (forall c cap g, fst (render currentEventId w) <> Occupancy c cap (Some g))
      /\ (loading w = false -> valid_key currentEventId <> None ->
          fst (render currentEventId w) = Occupancy (currentCount w) (JS.Num 0) None)).
Proof.
  unfold render. split.
  - destruct (loading w); [constructor|].
    destruct (valid_key currentEventId); [|constructor].
    destruct (JS.gt (venueCapacity w) (JS.Num 0)) eqn:E; [|constructor].
    cbn. repeat constructor; exact E.
  - intros ->. cbn [JS.gt Z.ltb Z.compare].
    destruct (loading w); [|destruct (valid_key currentEventId)]; cbn;
      repeat split; try discriminate; try congruence.
Qed.

(** C7 at a concrete state: 1200 people counted, capacity 0. *)
Lemma zero_capacity_suppresses_gauge_sample :
  let w := setVenueCapacity (JS.Num 0)
             (setCurrentCount (JS.Num 1200) (setLoading false initial)) in
  snd (render (Some "A"%string) w) = []
  /\ (forall c cap g, fst (render (Some "A"%string) w) <> Occupancy c cap (Some g))
  /\ (loading w = false -> valid_key (Some "A"%string) <> None ->
      fst (render (Some "A"%string) w) = Occupancy (currentCount w) (JS.Num 0) None).
Proof.
  exact (proj2 (zero_capacity_suppresses_gauge (Some "A"%string)
                  (setVenueCapacity (JS.Num 0)
                     (setCurrentCount (JS.Num 1200) (setLoading false initial))))
               eq_refl).
Defined.

End Rendering.

(* ------------------------------------------------------------------ *)
(** * Binary64: rounding to nearest                                     *)
(* ------------------------------------------------------------------ *)

Section Binary64.

Import Spec.

(** ** Digits *)

Lemma digits2_pos_log2 p : Z.pos (digits2_pos p) = Z.log2 (Z.pos p) + 1.
Proof.
  assert (H : forall q, digits2_pos q = Pos.size q).
  { induction q; simpl; congruence. }
  rewrite H. destruct p; simpl; rewrite ?Pos2Z.inj_succ; lia.
Qed.

Lemma digits_bounds p :
  2 ^ (Z.pos (digits2_pos p) - 1) <= Z.pos p < 2 ^ Z.pos (digits2_pos p).
Proof.
  rewrite digits2_pos_log2.
  replace (Z.log2 (Z.pos p) + 1 - 1) with (Z.log2 (Z.pos p)) by lia.
  apply (Z.log2_spec (Z.pos p)). lia.
Qed.

Lemma digits_unique p k :
  2 ^ (k - 1) <= Z.pos p < 2 ^ k -> Z.pos (digits2_pos p) = k.
Proof.
  intros H. rewrite digits2_pos_log2.
  assert (0 < k).
  { destruct (Z.le_gt_cases k 0) as [Hk|Hk]; [|lia].
    assert (2 ^ k <= 2 ^ 0) by (apply Z.pow_le_mono_r; lia).
    simpl in *. lia. }
  assert (E : Z.log2 (Z.pos p) = k - 1).
  { apply Z.log2_unique; [lia|].
    replace (Z.succ (k - 1)) with k by lia. exact H. }
  lia.
Qed.

Lemma Zdigits2_pos m : 0 < m -> exists p, m = Z.pos p /\ Zdigits2 m = Z.pos (digits2_pos p).
Proof. destruct m as [|p|p]; try lia. intros _. exists p. auto. Qed.

(** ** Shifting right *)

Lemma iter_pos_nat {A} (f : A -> A) p x :
  iter_pos f p x = Nat.iter (Pos.to_nat p) f x.
Proof.
  revert x. induction p as [p IH|p IH|]; intros x; cbn [iter_pos].
  - rewrite !IH, Pos2Nat.inj_xI.
    replace (S (2 * Pos.to_nat p)) with (Pos.to_nat p + Pos.to_nat p + 1)%nat by lia.
    rewrite !Nat.iter_add. reflexivity.
  - rewrite !IH, Pos2Nat.inj_xO.
    replace (2 * Pos.to_nat p)%nat with (Pos.to_nat p + Pos.to_nat p)%nat by lia.
    rewrite Nat.iter_add. reflexivity.
  - reflexivity.
Qed.

Lemma shr_iter mrs e n :
  0 <= n -> shr mrs e n = (Nat.iter (Z.to_nat n) shr_1 mrs, e + n).
Proof.
  intros Hn. destruct n as [|p|p]; try lia; simpl.
  - rewrite Z.add_0_r. reflexivity.
  - rewrite iter_pos_nat. reflexivity.
Qed.

Lemma shr_1_nonneg m r s :
  0 <= m ->
  shr_1 {| shr_m := m; shr_r := r; shr_s := s |}
  = {| shr_m := m / 2; shr_r := Z.odd m; shr_s := r || s |}.
Proof.
  intros Hm. destruct m as [|p|p]; try lia.
  - reflexivity.
  - destruct p as [p|p|]; simpl.
    + f_equal. rewrite Pos2Z.inj_xI.
      apply (Z.div_unique _ _ _ 1); lia.
    + f_equal. rewrite Pos2Z.inj_xO.
      apply (Z.div_unique _ _ _ 0); lia.
    + reflexivity.
Qed.

Lemma located_shr_1 N D n mrs :
  0 < D -> 0 <= n -> located N D n mrs -> located N D (n + 1) (shr_1 mrs).
Proof.
  intros HD Hn. destruct mrs as [m r s]. unfold located. cbn [shr_m shr_r shr_s].
  intros [Hm H]. rewrite (shr_1_nonneg m r s Hm). cbn [shr_m shr_r shr_s].
  rewrite Z.pow_add_r, Z.pow_1_r by lia.
  assert (HP : 0 < 2 ^ n * D) by (apply Z.mul_pos_pos; [apply Z.pow_pos_nonneg|]; lia).
  set (P := 2 ^ n * D) in *.
  replace (2 ^ n * 2 * D) with (2 * P) by (unfold P; ring).
  pose proof (Z.div_mod m 2 ltac:(lia)) as E.
  pose proof (Z.mod_pos_bound m 2 ltac:(lia)) as B.
  rewrite Zodd_mod. set (q := m / 2) in *. set (b := m mod 2) in *.
  assert (Hq : 0 <= q) by (apply Z.div_pos; lia).
  split; [exact Hq|].
  assert (Hb : b = 0 \/ b = 1) by lia.
  clearbody q b P. subst m.
  destruct Hb as [-> | ->]; simpl (_ =? _);
    destruct r, s; cbn [orb]; cbv iota; nia.
Qed.

Lemma located_iter N D k mrs :
  0 < D -> located N D 0 mrs ->
  located N D (Z.of_nat k) (Nat.iter k shr_1 mrs).
Proof.
  intros HD H. induction k as [|k IH]; [exact H|].
  rewrite Nat2Z.inj_succ. cbn [Nat.iter]. unfold Z.succ.
  apply located_shr_1; [exact HD|lia|exact IH].
Qed.

Lemma located_bounds N D n mrs :
  0 < D -> 0 <= n -> located N D n mrs ->
  2 ^ n * D * shr_m mrs <= N < 2 ^ n * D * (shr_m mrs + 1).
Proof.
  intros HD Hn [Hm H].
  assert (HP : 0 < 2 ^ n * D) by (apply Z.mul_pos_pos; [apply Z.pow_pos_nonneg|]; lia).
  destruct (shr_r mrs), (shr_s mrs); nia.
Qed.

(** ** Rounding the mantissa *)

Lemma round_nearest_even_located N D n mrs :
  0 < D -> 0 <= n -> located N D n mrs ->
  let m' := round_nearest_even (shr_m mrs) (loc_of_shr_record mrs) in
  (m' = shr_m mrs \/ m' = shr_m mrs + 1)
  /\ Z.abs (2 * (2 ^ n * D * m') - 2 * N) <= 2 ^ n * D
  /\ ((exists q, N = 2 ^ n * D * q) -> N = 2 ^ n * D * m').
Proof.
  intros HD Hn [Hm H]. cbv zeta.
  assert (HP : 0 < 2 ^ n * D) by (apply Z.mul_pos_pos; [apply Z.pow_pos_nonneg|]; lia).
  destruct mrs as [m r s]. cbn [shr_m shr_r shr_s loc_of_shr_record] in *.
  set (P := 2 ^ n * D) in *. clearbody P.
  assert (Hx : forall q, N = P * q -> 2 * N = P * (2 * q)) by (intros; lia).
  assert (Hlt : forall a b, P * a < P * b -> a < b)
    by (intros a b; apply Z.mul_lt_mono_pos_l; exact HP).
  assert (Heq : forall a b, P * a = P * b -> a = b)
    by (intros a b; apply Z.mul_reg_l; lia).
  assert (E1 : P * (m + 1) = P * m + P) by ring.
  assert (E2 : P * (2 * m) = 2 * (P * m)) by ring.
  assert (E3 : P * (2 * m + 1) = 2 * (P * m) + P) by ring.
  assert (E4 : P * (2 * m + 2) = 2 * (P * m) + 2 * P) by ring.
  destruct r, s; cbn [round_nearest_even].
  - split; [right; reflexivity|]. split; [lia|]. intros [q Hq].
    apply Hx in Hq. rewrite Hq in H. destruct H as [Ha Hb].
    apply Hlt in Ha, Hb. lia.
  - assert (Hodd : forall q, N = P * q -> False).
    { intros q Hq. apply Hx in Hq. rewrite Hq in H. apply Heq in H. lia. }
    destruct (Z.even m).
    + split; [left; reflexivity|]. split; [lia|]. intros [q Hq].
      destruct (Hodd q Hq).
    + split; [right; reflexivity|]. split; [lia|]. intros [q Hq].
      destruct (Hodd q Hq).
  - split; [left; reflexivity|]. split; [lia|]. intros [q Hq].
    apply Hx in Hq. rewrite Hq in H. destruct H as [Ha Hb].
    apply Hlt in Ha, Hb. lia.
  - split; [left; reflexivity|]. split; [lia|]. intros _. exact H.
Qed.

(** ** Rounding a located value, away from underflow and overflow *)

Lemma fexp_normal e :
  -1074 <= e - 53 -> fexp F64.prec F64.emax e = e - 53.
Proof. unfold fexp, emin, F64.prec, F64.emax. lia. Qed.

Lemma pow2_split n k : 0 <= n -> 0 <= k -> 2 ^ (n + k) = 2 ^ n * 2 ^ k.
Proof. intros. apply Z.pow_add_r; assumption. Qed.

Lemma pow2_pos n : 0 <= n -> 0 < 2 ^ n.
Proof. intros. apply Z.pow_pos_nonneg; lia. Qed.

Lemma binary_round_aux_normal sx mx ex lx N D :
  0 < D -> 2 ^ 52 <= mx -> located N D 0 (shr_record_of_loc mx lx) ->
  let n := Zdigits2 mx - 53 in
  -1074 <= ex + n -> ex + n < 971 ->
  exists M E,
    binary_round_aux F64.prec F64.emax sx mx ex lx = S754_finite sx M E
    /\ 2 ^ 52 <= Z.pos M < 2 ^ 53
    /\ ex + n <= E <= ex + n + 1
    /\ Z.abs (2 * (2 ^ (E - ex) * D * Z.pos M) - 2 * N) <= 2 ^ (E - ex) * D
    /\ ((exists q, N = 2 ^ n * D * q) -> N = 2 ^ (E - ex) * D * Z.pos M).
Proof.
  intros HD Hmx Hloc n Hlo Hhi.
  destruct (Zdigits2_pos mx ltac:(lia)) as (p & Hp & Hd).
  pose proof (digits_bounds p) as Hdig. rewrite <- Hd, <- Hp in Hdig.
  assert (Hn : 0 <= n).
  { unfold n. destruct (Z.le_gt_cases 53 (Zdigits2 mx)) as [?|Hlt]; [lia|].
    assert (2 ^ Zdigits2 mx <= 2 ^ 52) by (apply Z.pow_le_mono_r; lia). lia. }
  assert (Hm0 : shr_m (shr_record_of_loc mx lx) = mx)
    by (destruct lx as [|[| |]]; reflexivity).
  pose proof (located_bounds N D 0 _ HD (Z.le_refl 0) Hloc) as B0.
  rewrite Hm0 in B0. change (2 ^ 0) with 1 in B0.
  pose proof (located_iter N D (Z.to_nat n) _ HD Hloc) as Hloc'.
  rewrite Z2Nat.id in Hloc' by exact Hn.
  set (mrs := Nat.iter (Z.to_nat n) shr_1 (shr_record_of_loc mx lx)) in *.
  pose proof (located_bounds N D n mrs HD Hn Hloc') as B1.
  pose proof (pow2_pos n Hn) as Hpn.
  assert (Hm : 2 ^ 52 <= shr_m mrs < 2 ^ 53).
  { assert (E1 : 2 ^ Zdigits2 mx = 2 ^ n * 2 ^ 53).
    { rewrite <- pow2_split by lia. f_equal. unfold n. lia. }
    assert (E2 : 2 ^ (Zdigits2 mx - 1) = 2 ^ n * 2 ^ 52).
    { rewrite <- pow2_split by lia. f_equal. unfold n. lia. }
    rewrite E1, E2 in Hdig. clear E1 E2.
    assert (HP : 0 < 2 ^ n * D) by (apply Z.mul_pos_pos; assumption).
    split.
    - assert (2 ^ n * D * 2 ^ 52 < 2 ^ n * D * (shr_m mrs + 1)) by nia.
      assert (2 ^ 52 < shr_m mrs + 1)
        by (apply (Z.mul_lt_mono_pos_l (2 ^ n * D)); assumption).
      lia.
    - assert (2 ^ n * D * shr_m mrs < 2 ^ n * D * 2 ^ 53) by nia.
      apply (Z.mul_lt_mono_pos_l (2 ^ n * D)); assumption. }
  destruct (round_nearest_even_located N D n mrs HD Hn Hloc') as (Hr & Herr & Hex).
  set (mr := round_nearest_even (shr_m mrs) (loc_of_shr_record mrs)) in *.
  assert (Hmr : 2 ^ 52 <= mr <= 2 ^ 53) by lia.
  unfold binary_round_aux, shr_fexp.
  rewrite (fexp_normal (Zdigits2 mx + ex)) by (unfold n in Hlo; lia).
  replace (Zdigits2 mx + ex - 53 - ex) with n by (unfold n; lia).
  rewrite shr_iter by exact Hn. fold mrs. cbv iota beta. fold mr.
  destruct (Zdigits2_pos mr ltac:(lia)) as (pr & Hpr & Hdr).
  destruct (Z.eq_dec mr (2 ^ 53)) as [Etop|Etop].
  - (* the rounded mantissa has one digit too many *)
    assert (Hdig54 : Zdigits2 mr = 54).
    { rewrite Hdr. apply digits_unique. rewrite <- Hpr, Etop.
      change (54 - 1) with 53. split; [lia|].
      apply Z.pow_lt_mono_r; lia. }
    rewrite Hdig54, (fexp_normal (54 + (ex + n))) by lia.
    replace (54 + (ex + n) - 53 - (ex + n)) with 1 by lia.
    rewrite Etop.
    change (shr (shr_record_of_loc (2 ^ 53) loc_Exact) (ex + n) 1)
      with ({| shr_m := 2 ^ 52; shr_r := false; shr_s := false |}, ex + n + 1).
    cbn [shr_m].
    change (2 ^ 52) with (Z.pos (Z.to_pos (2 ^ 52))).
    cbv iota beta.
    replace (ex + n + 1 <=? F64.emax - F64.prec) with true
      by (symmetry; apply Z.leb_le; unfold F64.emax, F64.prec; lia).
    exists (Z.to_pos (2 ^ 52)), (ex + n + 1).
    change (Z.pos (Z.to_pos (2 ^ 52))) with (2 ^ 52).
    replace (ex + n + 1 - ex) with (n + 1) by lia.
    rewrite (pow2_split n 1) by lia. change (2 ^ 1) with 2.
    assert (E : 2 ^ n * 2 * D * 2 ^ 52 = 2 ^ n * D * mr).
    { rewrite Etop. change (2 ^ 53) with (2 * 2 ^ 52). ring. }
    rewrite E.
    split; [reflexivity|]. split; [lia|]. split; [lia|].
    split; [|exact Hex].
    assert (0 < 2 ^ n * D) by (apply Z.mul_pos_pos; assumption). nia.
  - assert (Hdig53 : Zdigits2 mr = 53).
    { rewrite Hdr. apply digits_unique. rewrite <- Hpr.
      change (53 - 1) with 52. lia. }
    rewrite Hdig53, (fexp_normal (53 + (ex + n))) by lia.
    replace (53 + (ex + n) - 53 - (ex + n)) with 0 by lia.
    cbn [shr shr_record_of_loc shr_m]. rewrite Hpr.
    replace (ex + n <=? F64.emax - F64.prec) with true
      by (symmetry; apply Z.leb_le; unfold F64.emax, F64.prec; lia).
    exists pr, (ex + n). rewrite <- Hpr.
    replace (ex + n - ex) with n by lia.
    split; [reflexivity|]. split; [lia|]. split; [lia|].
    split; [exact Herr|exact Hex].
Qed.

End Binary64.
Section Binary64b.
Import Spec.

Lemma iter_xO_pow p q : Z.pos (Pos.iter xO p q) = Z.pos p * 2 ^ Z.pos q.
Proof.
  induction q as [|q IH] using Pos.peano_ind.
  - cbn [Pos.iter]. rewrite Pos2Z.inj_xO. change (2 ^ 1) with 2. lia.
  - rewrite Pos.iter_succ, Pos2Z.inj_xO, IH, Pos2Z.inj_succ.
    unfold Z.succ. rewrite Z.pow_add_r by lia. change (2 ^ 1) with 2. ring.
Qed.

(** The binary64 form of a positive integer below 2^53: a 53-bit
    mantissa and the exponent that scales it back. *)
Lemma of_Z_finite z :
  0 < z < 2 ^ 53 ->
  exists M E,
    F64.of_Z z = S754_finite false M E
    /\ 2 ^ 52 <= Z.pos M < 2 ^ 53
    /\ -52 <= E <= 0
    /\ Z.pos M = z * 2 ^ (- E).
Proof.
  intros Hz. destruct z as [|p|p]; try lia.
  unfold F64.of_Z, binary_normalize, binary_round.
  pose proof (digits_bounds p) as Hd.
  set (d := Z.pos (digits2_pos p)) in *.
  assert (Hd1 : 1 <= d <= 53).
  { split; [unfold d; lia|].
    destruct (Z.le_gt_cases d 53) as [?|Hgt]; [assumption|].
    assert (2 ^ 53 <= 2 ^ (d - 1)) by (apply Z.pow_le_mono_r; lia). lia. }
  rewrite Z.add_0_r, fexp_normal by lia.
  assert (A : exists mz, shl_align p 0 (d - 53) = (mz, d - 53)
                         /\ Z.pos mz = Z.pos p * 2 ^ (53 - d)).
  { unfold shl_align. destruct (d - 53 - 0) as [|q|q] eqn:E; try lia.
    - exists p. replace (d - 53) with 0 by lia.
      replace (53 - d) with 0 by lia. split; [reflexivity|]. change (2 ^ 0) with 1. lia.
    - exists (Pos.iter xO p q). split; [reflexivity|].
      rewrite iter_xO_pow. f_equal. f_equal. lia. }
  destruct A as (mz & -> & Hmz).
  assert (Hmzb : 2 ^ 52 <= Z.pos mz < 2 ^ 53).
  { rewrite Hmz.
    assert (E1 : 2 ^ 52 = 2 ^ (d - 1) * 2 ^ (53 - d))
      by (rewrite <- Z.pow_add_r by lia; f_equal; lia).
    assert (E2 : 2 ^ 53 = 2 ^ d * 2 ^ (53 - d))
      by (rewrite <- Z.pow_add_r by lia; f_equal; lia).
    rewrite E1, E2. pose proof (pow2_pos (53 - d) ltac:(lia)). nia. }
  assert (Hdz : Zdigits2 (Z.pos mz) = 53).
  { apply (digits_unique mz 53). change (53 - 1) with 52. exact Hmzb. }
  destruct (binary_round_aux_normal false (Z.pos mz) (d - 53) loc_Exact (Z.pos mz) 1)
    as (M & E & HR & HM & HE & _ & Hex).
  - lia.
  - lia.
  - split; [cbn; lia|]. cbn [shr_record_of_loc shr_r shr_s shr_m].
    change (2 ^ 0) with 1. lia.
  - rewrite Hdz. lia.
  - rewrite Hdz. lia.
  - rewrite Hdz in *. replace (53 - 53) with 0 in * by lia.
    rewrite Z.add_0_r in HE.
    assert (Hq : exists q, Z.pos mz = 2 ^ 0 * 1 * q)
      by (exists (Z.pos mz); rewrite Z.pow_0_r; lia).
    specialize (Hex Hq).
    assert (E = d - 53).
    { destruct (Z.eq_dec E (d - 53)) as [?|Hne]; [assumption|].
      replace (E - (d - 53)) with 1 in Hex by lia. change (2 ^ 1) with 2 in Hex. lia. }
    subst E. replace (d - 53 - (d - 53)) with 0 in Hex by lia.
    change (2 ^ 0) with 1 in Hex.
    exists M, (d - 53). rewrite HR. split; [reflexivity|].
    split; [exact HM|]. split; [lia|].
    replace (- (d - 53)) with (53 - d) by lia. lia.
Qed.

Lemma new_location_located D q r :
  0 < D -> 0 <= q -> 0 <= r < D ->
  located (D * q + r) D 0 (shr_record_of_loc q (new_location D r)).
Proof.
  intros HD Hq Hr. unfold located. rewrite Z.pow_0_r, Z.mul_1_l.
  assert (Hm : forall l, shr_m (shr_record_of_loc q l) = q)
    by (intros [|[| |]]; reflexivity).
  rewrite Hm. split; [exact Hq|]. clear Hm.
  unfold new_location, new_location_even, new_location_odd.
  destruct (Z.even D) eqn:Ev.
  - clear Ev. destruct (Z.eqb_spec r 0) as [Er|Er];
      [cbn [shr_record_of_loc shr_r shr_s]; lia|].
    destruct (Z.compare_spec (2 * r) D) as [C|C|C];
      cbn [shr_record_of_loc shr_r shr_s]; lia.
  - assert (Hodd : 2 * r + 1 <> D + 1 /\ 2 * r <> D).
    { rewrite <- Z.negb_odd in Ev. apply negb_false_iff in Ev.
      rewrite Z.odd_spec in Ev. destruct Ev as [k Hk]. lia. }
    clear Ev. destruct (Z.eqb_spec r 0) as [Er|Er];
      [cbn [shr_record_of_loc shr_r shr_s]; lia|].
    destruct (Z.compare_spec (2 * r + 1) D) as [C|C|C];
      cbn [shr_record_of_loc shr_r shr_s]; lia.
Qed.

Lemma div_finite Ma Ea Mb Eb :
  2 ^ 52 <= Z.pos Ma < 2 ^ 53 -> 2 ^ 52 <= Z.pos Mb < 2 ^ 53 ->
  -1000 <= Ea - Eb <= 1000 ->
  let e0 := Ea - Eb - 53 in
  exists M E,
    F64.div (S754_finite false Ma Ea) (S754_finite false Mb Eb) = S754_finite false M E
    /\ 2 ^ 52 <= Z.pos M < 2 ^ 53
    /\ e0 <= E <= e0 + 2
    /\ Z.abs (2 * (2 ^ (E - e0) * Z.pos Mb * Z.pos M) - 2 * (Z.pos Ma * 2 ^ 53))
       <= 2 ^ (E - e0) * Z.pos Mb.
Proof.
  intros Ha Hb He e0.
  assert (Hda : Zdigits2 (Z.pos Ma) = 53)
    by (apply (digits_unique Ma 53); change (53 - 1) with 52; exact Ha).
  assert (Hdb : Zdigits2 (Z.pos Mb) = 53)
    by (apply (digits_unique Mb 53); change (53 - 1) with 52; exact Hb).
  unfold F64.div, SFdiv, SFdiv_core_binary.
  rewrite Hda, Hdb.
  replace (53 + Ea - (53 + Eb)) with (Ea - Eb) by lia.
  rewrite fexp_normal by lia.
  rewrite Z.min_l by lia.
  replace (Ea - Eb - (Ea - Eb - 53)) with 53 by lia.
  cbv beta iota. rewrite Z.shiftl_mul_pow2 by lia.
  pose proof (Z_div_mod (Z.pos Ma * 2 ^ 53) (Z.pos Mb) ltac:(lia)) as Hdm.
  destruct (Z.div_eucl (Z.pos Ma * 2 ^ 53) (Z.pos Mb)) as [q r].
  destruct Hdm as [Hdm Hr]. cbn [xorb].
  assert (Hq : 2 ^ 52 <= q < 2 ^ 54).
  { change (2 ^ 54) with (2 * 2 ^ 53). split; nia. }
  destruct (Zdigits2_pos q ltac:(lia)) as (pq & Hpq & Hdq).
  assert (Hn : 53 <= Zdigits2 q <= 54).
  { rewrite Hdq. pose proof (digits_bounds pq) as B. rewrite <- Hpq in B.
    set (d := Z.pos (digits2_pos pq)) in *. split.
    - destruct (Z.le_gt_cases 53 d) as [?|Hlt]; [assumption|].
      assert (2 ^ d <= 2 ^ 52) by (apply Z.pow_le_mono_r; lia). lia.
    - destruct (Z.le_gt_cases d 54) as [?|Hgt]; [assumption|].
      assert (2 ^ 54 <= 2 ^ (d - 1)) by (apply Z.pow_le_mono_r; lia). lia. }
  destruct (binary_round_aux_normal false q (Ea - Eb - 53) (new_location (Z.pos Mb) r)
              (Z.pos Ma * 2 ^ 53) (Z.pos Mb))
    as (M & E & HR & HM & HE & Herr & _).
  - lia.
  - lia.
  - rewrite Hdm. apply new_location_located; lia.
  - lia.
  - lia.
  - exists M, E. rewrite HR. fold e0 in HE, Herr |- *.
    split; [reflexivity|]. split; [exact HM|]. split; [lia|]. exact Herr.
Qed.

Lemma mul_finite M1 E1 M2 E2 :
  2 ^ 52 <= Z.pos M1 < 2 ^ 53 -> 2 ^ 52 <= Z.pos M2 < 2 ^ 53 ->
  -1000 <= E1 + E2 <= 800 ->
  let e0 := E1 + E2 in
  exists M E,
    F64.mul (S754_finite false M1 E1) (S754_finite false M2 E2) = S754_finite false M E
    /\ 2 ^ 52 <= Z.pos M < 2 ^ 53
    /\ e0 + 52 <= E <= e0 + 54
    /\ Z.abs (2 * (2 ^ (E - e0) * Z.pos M) - 2 * (Z.pos M1 * Z.pos M2))
       <= 2 ^ (E - e0).
Proof.
  intros H1 H2 He e0.
  unfold F64.mul, SFmul. cbn [xorb]. rewrite Pos2Z.inj_mul.
  set (mx := Z.pos M1 * Z.pos M2).
  assert (Hmx : 2 ^ 104 <= mx < 2 ^ 106).
  { change (2 ^ 104) with (2 ^ 52 * 2 ^ 52). change (2 ^ 106) with (2 ^ 53 * 2 ^ 53).
    unfold mx. split; nia. }
  destruct (Zdigits2_pos mx ltac:(lia)) as (pq & Hpq & Hdq).
  assert (Hn : 105 <= Zdigits2 mx <= 106).
  { rewrite Hdq. pose proof (digits_bounds pq) as B. rewrite <- Hpq in B.
    set (d := Z.pos (digits2_pos pq)) in *. split.
    - destruct (Z.le_gt_cases 105 d) as [?|Hlt]; [assumption|].
      assert (2 ^ d <= 2 ^ 104) by (apply Z.pow_le_mono_r; lia). lia.
    - destruct (Z.le_gt_cases d 106) as [?|Hgt]; [assumption|].
      assert (2 ^ 106 <= 2 ^ (d - 1)) by (apply Z.pow_le_mono_r; lia). lia. }
  destruct (binary_round_aux_normal false mx (E1 + E2) loc_Exact mx 1)
    as (M & E & HR & HM & HE & Herr & _).
  - lia.
  - assert (2 ^ 52 <= 2 ^ 104) by (apply Z.pow_le_mono_r; lia). lia.
  - split; [cbn [shr_record_of_loc shr_m]; lia|].
    cbn [shr_record_of_loc shr_r shr_s shr_m]. rewrite Z.pow_0_r. lia.
  - lia.
  - lia.
  - exists M, E. rewrite HR. fold e0 in HE, Herr |- *.
    rewrite !Z.mul_1_r in Herr.
    split; [reflexivity|]. split; [exact HM|]. split; [lia|]. exact Herr.
Qed.

(** ** Integers as binary64 values *)

Lemma of_Z_zero : F64.of_Z 0 = S754_zero false.
Proof. reflexivity. Qed.

(** Comparison of two positive values with 53-bit mantissas. *)
Lemma compare_finite M1 E1 M2 E2 :
  2 ^ 52 <= Z.pos M1 < 2 ^ 53 -> 2 ^ 52 <= Z.pos M2 < 2 ^ 53 ->
  SFcompare (S754_finite false M1 E1) (S754_finite false M2 E2)
  = Some (Z.pos M1 * 2 ^ (E1 - Z.min E1 E2) ?= Z.pos M2 * 2 ^ (E2 - Z.min E1 E2)).
Proof.
  intros H1 H2. cbn [SFcompare]. f_equal.
  destruct (Z.compare_spec E1 E2) as [He|He|He].
  - subst E2. rewrite Z.min_id, Z.sub_diag, Z.pow_0_r, !Z.mul_1_r.
    rewrite Pos.compare_cont_spec.
    change (Z.pos M1 ?= Z.pos M2) with (M1 ?= M2)%positive.
    destruct (M1 ?= M2)%positive; reflexivity.
  - rewrite Z.min_l, Z.sub_diag, Z.pow_0_r, Z.mul_1_r by lia.
    symmetry. apply Z.compare_lt_iff.
    assert (2 ^ 1 <= 2 ^ (E2 - E1)) by (apply Z.pow_le_mono_r; lia).
    change (2 ^ 1) with 2 in *. change (2 ^ 53) with (2 * 2 ^ 52) in *. nia.
  - rewrite Z.min_r, Z.sub_diag, Z.pow_0_r, Z.mul_1_r by lia.
    symmetry. apply Z.compare_gt_iff.
    assert (2 ^ 1 <= 2 ^ (E1 - E2)) by (apply Z.pow_le_mono_r; lia).
    change (2 ^ 1) with 2 in *. change (2 ^ 53) with (2 * 2 ^ 52) in *. nia.
Qed.

Lemma of_Z_compare x y :
  0 <= x < 2 ^ 53 -> 0 <= y < 2 ^ 53 ->
  SFcompare (F64.of_Z x) (F64.of_Z y) = Some (x ?= y).
Proof.
  intros Hx Hy.
  destruct (Z.eq_dec x 0) as [->|Hx0]; destruct (Z.eq_dec y 0) as [->|Hy0].
  - reflexivity.
  - destruct (of_Z_finite y ltac:(lia)) as (M & E & -> & _).
    rewrite of_Z_zero. cbn [SFcompare]. f_equal. symmetry.
    apply (proj2 (Z.compare_lt_iff 0 y)). lia.
  - destruct (of_Z_finite x ltac:(lia)) as (M & E & -> & _).
    rewrite of_Z_zero. cbn [SFcompare]. f_equal. symmetry.
    apply (proj2 (Z.compare_gt_iff x 0)). lia.
  - destruct (of_Z_finite x ltac:(lia)) as (M1 & E1 & -> & HM1 & HE1 & Hv1).
    destruct (of_Z_finite y ltac:(lia)) as (M2 & E2 & -> & HM2 & HE2 & Hv2).
    rewrite compare_finite by assumption. f_equal.
    rewrite Hv1, Hv2.
    set (m := Z.min E1 E2).
    assert (G : forall z E, -52 <= E <= 0 -> m <= E ->
                z * 2 ^ (- E) * 2 ^ (E - m) = z * 2 ^ (- m)).
    { intros z E HE Hm. rewrite <- Z.mul_assoc, <- Z.pow_add_r by lia.
      f_equal. f_equal. lia. }
    rewrite !G by (unfold m; lia).
    pose proof (pow2_pos (- m) ltac:(unfold m; lia)) as Hp.
    rewrite !(Z.mul_comm _ (2 ^ (- m))).
    symmetry. apply Zmult_compare_compat_l. lia.
Qed.

Lemma abs_scale u x y : 0 < u -> (Z.abs (u * x) <= u * y <-> Z.abs x <= y).
Proof.
  intros Hu. rewrite Z.abs_mul, (Z.abs_eq u) by lia.
  symmetry. apply Z.mul_le_mono_pos_l. exact Hu.
Qed.

(** The quotient of two positive integers below 2^53: the result is
    within half a unit in the last place of the exact quotient. *)
Lemma div_of_Z a b :
  0 < a < 2 ^ 53 -> 0 < b < 2 ^ 53 ->
  exists M E,
    F64.div (F64.of_Z a) (F64.of_Z b) = S754_finite false M E
    /\ 2 ^ 52 <= Z.pos M < 2 ^ 53
    /\ -105 <= E <= 1
    /\ Z.abs (2 * b * (Z.pos M * 2 ^ Z.max 0 E) - 2 * a * 2 ^ Z.max 0 (- E))
       <= b * 2 ^ Z.max 0 E.
Proof.
  intros Ha Hb.
  destruct (of_Z_finite a Ha) as (Ma & Ea & -> & HMa & HEa & Hva).
  destruct (of_Z_finite b Hb) as (Mb & Eb & -> & HMb & HEb & Hvb).
  destruct (div_finite Ma Ea Mb Eb HMa HMb ltac:(lia))
    as (M & E & -> & HM & HE & Herr).
  exists M, E. split; [reflexivity|]. split; [exact HM|]. split; [lia|].
  set (e0 := Ea - Eb - 53) in *.
  set (pos := 2 ^ Z.max 0 E). set (neg := 2 ^ Z.max 0 (- E)).
  set (u := 2 ^ (53 - Ea)).
  assert (Hu : 0 < u) by (apply pow2_pos; lia).
  assert (Hneg : 0 < neg) by (apply pow2_pos; lia).
  assert (W : 2 ^ (E - e0) * 2 ^ (- Eb) * neg = u * pos).
  { unfold neg, u, pos. rewrite <- !Z.pow_add_r by lia. f_equal. unfold e0. lia. }
  rewrite Hva, Hvb in Herr.
  apply (abs_scale u); [exact Hu|].
  apply (abs_scale neg) in Herr; [|exact Hneg].
  replace (u * (2 * b * (Z.pos M * pos) - 2 * a * neg))
    with (neg * (2 * (2 ^ (E - e0) * (b * 2 ^ (- Eb)) * Z.pos M)
                 - 2 * (a * 2 ^ (- Ea) * 2 ^ 53))).
  - replace (u * (b * pos)) with (neg * (2 ^ (E - e0) * (b * 2 ^ (- Eb)))).
    + exact Herr.
    + transitivity (2 ^ (E - e0) * 2 ^ (- Eb) * neg * b); [ring|]. rewrite W. ring.
  - assert (U : 2 ^ (- Ea) * 2 ^ 53 = u)
      by (unfold u; rewrite <- Z.pow_add_r by lia; f_equal; lia).
    transitivity (2 * b * Z.pos M * (2 ^ (E - e0) * 2 ^ (- Eb) * neg)
                  - 2 * a * neg * (2 ^ (- Ea) * 2 ^ 53)); [ring|].
    rewrite W, U. ring.
Qed.

(** [Math.floor(a / b)] is the integer quotient. *)
Lemma floor_div_exact a b :
  0 <= a < 2 ^ 53 - 1 -> 0 < b < 2 ^ 53 ->
  F64.Math_floor (F64.div (F64.of_Z a) (F64.of_Z b)) = F64.of_Z (a / b).
Proof.
  intros Ha Hb.
  destruct (Z.eq_dec a 0) as [->|Ha0].
  - destruct (of_Z_finite b Hb) as (Mb & Eb & -> & _).
    rewrite Z.div_0_l by lia. reflexivity.
  - destruct (div_of_Z a b ltac:(lia) Hb) as (M & E & -> & HM & HE & Herr).
    pose proof (Z.div_mod a b ltac:(lia)) as Hdm.
    pose proof (Z.mod_pos_bound a b ltac:(lia)) as Hr.
    set (q := a / b) in *. set (r := a mod b) in *.
    assert (Hq : 0 <= q) by (apply Z.div_pos; lia).
    assert (HE1 : E <> 1).
    { intros HE1. replace (Z.max 0 E) with 1 in Herr by lia.
      replace (Z.max 0 (- E)) with 0 in Herr by lia.
      rewrite Z.pow_1_r, Z.pow_0_r in Herr.
      assert (b * (2 * Z.pos M - 1) <= a) by lia.
      assert (1 * (2 * Z.pos M - 1) <= b * (2 * Z.pos M - 1))
        by (apply Z.mul_le_mono_nonneg_r; lia).
      lia. }
    unfold F64.Math_floor.
    destruct (Z.leb_spec 0 E) as [HE0|HE0].
    + assert (E = 0) by lia. subst E.
      replace (Z.max 0 0) with 0 in Herr by lia.
      replace (Z.max 0 (- 0)) with 0 in Herr by lia.
      rewrite Z.pow_0_r in Herr.
      assert (b = 1).
      { destruct (Z.eq_dec b 1) as [?|Hb1]; [assumption|].
        assert (2 * (2 * Z.pos M - 1) <= b * (2 * Z.pos M - 1))
          by (apply Z.mul_le_mono_nonneg_r; lia).
        lia. }
      subst b. assert (Hqa : q = a) by lia.
      assert (HMa : Z.pos M = a) by lia.
      destruct (of_Z_finite q ltac:(lia)) as (M' & E' & -> & HM' & HE' & Hv').
      assert (E' = 0).
      { destruct (Z.eq_dec E' 0) as [?|Hne]; [assumption|].
        assert (2 ^ 1 <= 2 ^ (- E')) by (apply Z.pow_le_mono_r; lia).
        change (2 ^ 1) with 2 in *. nia. }
      subst E'. change (2 ^ (- 0)) with 1 in Hv'.
      f_equal. apply Pos2Z.inj. lia.
    + replace (Z.max 0 E) with 0 in Herr by lia.
      replace (Z.max 0 (- E)) with (- E) in Herr by lia.
      rewrite Z.pow_0_r in Herr.
      pose proof (pow2_pos (- E) ltac:(lia)) as Ht.
      set (t := 2 ^ (- E)) in *.
      f_equal. unfold F64.signed. rewrite Z.shiftr_div_pow2 by lia. fold t.
      symmetry. apply (Z.div_unique_pos (Z.pos M) t q (Z.pos M - t * q)); [|ring].
      assert (Hat : a * t = b * (q * t) + r * t) by (rewrite Hdm; ring).
      assert (Hrt : 0 <= r * t < b * t).
      { split; [apply Z.mul_nonneg_nonneg; lia|].
        apply Z.mul_lt_mono_pos_r; lia. }
      split.
      * (* q * t <= M *)
        destruct (Z.le_gt_cases (t * q) (Z.pos M)) as [?|Hlt]; [lia|].
        assert (b * (Z.pos M + 1) <= b * (q * t)) by (apply Z.mul_le_mono_nonneg_l; lia).
        lia.
      * (* M < (q + 1) * t *)
        destruct (Z.lt_ge_cases (Z.pos M) (t * q + t)) as [?|Hge]; [lia|].
        assert (b * (q * t + t) <= b * Z.pos M) by (apply Z.mul_le_mono_nonneg_l; lia).
        assert (t * 1 <= t * (b - r)) by (apply Z.mul_le_mono_nonneg_l; lia).
        assert (2 * t <= b) by lia.
        assert (2 * t * (2 * Z.pos M - 1) <= b * (2 * Z.pos M - 1))
          by (apply Z.mul_le_mono_nonneg_r; lia).
        assert (t * (2 * Z.pos M - 1) <= t * a) by lia.
        assert (2 * Z.pos M - 1 <= a)
          by (apply (Z.mul_le_mono_pos_l _ _ t); assumption).
        lia.
Qed.

End Binary64b.
Section Countdown.
Import Spec TimeCard Reference.

Lemma to_Z_of_Z k : 0 <= k < 2 ^ 53 -> F64.to_Z (F64.of_Z k) = Some k.
Proof.
  intros Hk. destruct (Z.eq_dec k 0) as [->|Hk0]; [reflexivity|].
  destruct (of_Z_finite k ltac:(lia)) as (M & E & -> & HM & HE & Hv).
  unfold F64.to_Z, F64.signed.
  destruct (Z.leb_spec 0 E) as [HE0|HE0].
  - assert (E = 0) by lia. subst E. change (- 0) with 0 in Hv.
    rewrite Z.pow_0_r in *. f_equal. lia.
  - pose proof (pow2_pos (- E) ltac:(lia)) as Ht. rewrite Hv.
    rewrite Z.mod_mul, Z.eqb_refl, Z.div_mul by lia. reflexivity.
Qed.

Lemma toString_of_Z k :
  0 <= k < 2 ^ 53 -> F64.toString (F64.of_Z k) = JS.toString (JS.Num k).
Proof.
  intros Hk. pose proof (to_Z_of_Z k Hk) as H.
  unfold F64.toString. rewrite H.
  destruct (F64.of_Z k); try reflexivity; discriminate H.
Qed.

Lemma floor_div_number a b :
  0 <= a < 2 ^ 53 - 1 -> 0 < b < 2 ^ 53 ->
  floor_div (JS.Num a) b = F64.of_Z (a / b).
Proof. intros. unfold floor_div, F64.of_number. apply floor_div_exact; assumption. Qed.

Lemma seconds_until_range tl h m :
  0 <= h < 24 -> 0 <= m < 60 -> 0 <= seconds_until tl h m < 86400.
Proof. intros. unfold seconds_until. apply Z.mod_pos_bound. lia. Qed.

(** Today's target, counted in seconds from the local time. *)
Lemma target_local_seconds tl h m :
  target_local tl h m = tl + 1000 * (3600 * h + 60 * m - (tl mod 86400000) / 1000).
Proof.
  unfold target_local, Date.startOfDay,
    Date.msPerDay, Date.msPerHour, Date.msPerMinute, Date.msPerSecond.
  pose proof (Z.mod_pos_bound tl 86400000 ltac:(lia)) as Htod.
  pose proof (Z.div_mod (tl mod 86400000) 1000 ltac:(lia)) as Hc.
  pose proof (Z.mod_pos_bound (tl mod 86400000) 1000 ltac:(lia)) as Hsub.
  assert (Hsubeq : tl mod 1000 = (tl mod 86400000) mod 1000).
  { symmetry.
    pose proof (Z.div_mod tl 86400000 ltac:(lia)) as Hd.
    apply (Z.mod_unique_pos tl 1000
             (86400 * (tl / 86400000) + (tl mod 86400000) / 1000)); lia. }
  rewrite Hsubeq. lia.
Qed.

Lemma eventTime_seconds tz now_tv next h m :
  hours_minutes (time next) = (JS.Num h, JS.Num m) ->
  0 <= h < 24 -> 0 <= m < 60 ->
  steady_clock tz now_tv h m ->
  eventTime tz (JS.Num now_tv) next
  = JS.Num (now_tv + 1000 * seconds_until (Date.LocalTime tz now_tv) h m).
Proof.
  intros Hhm Hh Hm [H1 H2]. unfold eventTime. rewrite Hhm.
  unfold Date.setHours, Date.addDays, Date.lift, Date.UTC.
  set (tl := Date.LocalTime tz now_tv) in *.
  change (Date.startOfDay tl + h * Date.msPerHour + m * Date.msPerMinute
          + 0 * Date.msPerSecond + tl mod Date.msPerSecond)
    with (target_local tl h m).
  set (o := Date.offset_at tz now_tv) in *.
  assert (Htl : tl = now_tv + o) by reflexivity.
  rewrite H1.
  pose proof (target_local_seconds tl h m) as E0.
  pose proof (Z.mod_pos_bound tl 86400000 ltac:(lia)) as Htod.
  assert (Hcr : 0 <= (tl mod 86400000) / 1000 < 86400)
    by (split; [apply Z.div_pos; lia | apply Z.div_lt_upper_bound; lia]).
  unfold seconds_until.
  set (x := 3600 * h + 60 * m - (tl mod 86400000) / 1000) in *.
  unfold JS.lt.
  destruct (Z.ltb_spec (target_local tl h m - o) now_tv) as [Hlt|Hge].
  - destruct H2 as [H2 H3]; [lia|].
    unfold Date.LocalTime. rewrite H2, Z.mul_1_l.
    replace (target_local tl h m - o + o) with (target_local tl h m) by lia.
    rewrite H3. f_equal.
    assert (x mod 86400 = x + 86400)
      by (symmetry; apply (Z.mod_unique_pos x 86400 (-1)); lia).
    unfold Date.msPerDay. lia.
  - f_equal. rewrite Z.mod_small by lia. lia.
Qed.

(** The target and the text of the countdown to a valid time of day. *)
Lemma calculateCountdown_seconds tz now_tv next h m :
  hours_minutes (time next) = (JS.Num h, JS.Num m) ->
  0 <= h < 24 -> 0 <= m < 60 ->
  steady_clock tz now_tv h m ->
  let s := seconds_until (Date.LocalTime tz now_tv) h m in
  0 <= s < 86400
  /\ eventTime tz (JS.Num now_tv) next = JS.Num (now_tv + 1000 * s)
  /\ calculateCountdown tz (JS.Num now_tv) next
     = (JS.toString (JS.Num (s / 3600)) ++ "h " ++
        JS.toString (JS.Num (s mod 3600 / 60)) ++ "m " ++
        JS.toString (JS.Num (s mod 60)) ++ "s")%string.
Proof.
  intros Hhm Hh Hm Hsteady s.
  pose proof (seconds_until_range (Date.LocalTime tz now_tv) h m Hh Hm) as Hs.
  fold s in Hs.
  split; [exact Hs|]. split; [apply eventTime_seconds; assumption|].
  unfold calculateCountdown, Date.getTime.
  rewrite (eventTime_seconds tz now_tv next h m Hhm Hh Hm Hsteady). fold s.
  unfold JS.sub. replace (now_tv + 1000 * s - now_tv) with (1000 * s) by lia.
  change (1000 * 60 * 60) with (1000 * 3600).
  unfold JS.rem.
  change (1000 * 3600 =? 0) with false. change (1000 * 60 =? 0) with false.
  cbv iota.
  rewrite !Z.rem_mod_nonneg by lia.
  rewrite !Z.mul_mod_distr_l by lia.
  assert (B1 : 0 <= s mod 3600 < 3600) by (apply Z.mod_pos_bound; lia).
  assert (B2 : 0 <= s mod 60 < 60) by (apply Z.mod_pos_bound; lia).
  assert (P : 2 ^ 53 - 1 > 100000000) by reflexivity.
  rewrite !floor_div_number by lia.
  rewrite Z.div_mul_cancel_l by lia.
  rewrite (Z.div_mul_cancel_l (s mod 3600) 60 1000) by lia.
  replace (1000 * (s mod 60) / 1000) with (s mod 60)
    by (rewrite Z.mul_comm, Z.div_mul; lia).
  assert (0 <= s / 3600 < 24)
    by (split; [apply Z.div_pos; lia | apply Z.div_lt_upper_bound; lia]).
  assert (0 <= s mod 3600 / 60 < 60)
    by (split; [apply Z.div_pos; lia | apply Z.div_lt_upper_bound; lia]).
  rewrite !toString_of_Z by lia. reflexivity.
Qed.

(** X1: in any time zone, for a next entry whose time reads [h:m] with
    [h] below 24 and [m] below 60, and provided the clocks of the zone
    do not change between now and the next time they show [h:m]: the
    target of the countdown is the first instant at or after now at
    which the local clock shows [h:m:00] and the milliseconds of now;
    it is a whole number [s] of seconds away, less than one day, and
    the text is [s] split into hours, minutes and seconds.  A target
    that is now to the millisecond counts as reached today: the text is
    then "0h 0m 0s".  (Across a clock change the distance is an hour
    more or less: see the examples [countdown_clocks_go_back] and
    [countdown_clocks_go_forward].) *)
Theorem countdown_to_next_occurrence tz now_tv next h m :
  hours_minutes (time next) = (JS.Num h, JS.Num m) ->
  0 <= h < 24 -> 0 <= m < 60 ->
  steady_clock tz now_tv h m ->
  let s := seconds_until (Date.LocalTime tz now_tv) h m in
  0 <= s < 86400
  /\ eventTime tz (JS.Num now_tv) next = JS.Num (now_tv + 1000 * s)
  /\ calculateCountdown tz (JS.Num now_tv) next
     = (JS.toString (JS.Num (s / 3600)) ++ "h " ++
        JS.toString (JS.Num (s mod 3600 / 60)) ++ "m " ++
        JS.toString (JS.Num (s mod 60)) ++ "s")%string.
Proof. exact (calculateCountdown_seconds tz now_tv next h m). Qed.

(** X1 in London on 15 June 2026 at 20:00:01 summer time (19:00:01
    UTC), one second after the time of the entry: the target has moved
    to the next day. *)
Lemma countdown_to_next_occurrence_sample :
  calculateCountdown europe_london_2026 (JS.Num 1781550001000)
    {| title := "Main Act"; time := "20:00"; isNext := true |}
  = "23h 59m 59s".
Proof.
  destruct (countdown_to_next_occurrence europe_london_2026 1781550001000
              {| title := "Main Act"; time := "20:00"; isNext := true |} 20 0)
    as (_ & _ & H);
    [vm_compute; reflexivity | lia | lia
    | split; [reflexivity | intros _; split; reflexivity] |].
  exact H.
Defined.

End Countdown.
Section Percent.
Import Spec.

Lemma nearest_percent_arith c A M1 t1 M2 t2 p :
  0 < c < 2 ^ 32 -> 0 < A ->
  2 ^ 52 <= M1 < 2 ^ 53 -> 2 ^ 52 <= M2 -> 0 < t1 -> 0 < t2 ->
  Z.abs (2 * A * M1 - 2 * c * t1) <= A ->
  Z.abs (2 * t1 * M2 - 200 * M1 * t2) <= t1 ->
  2 * t2 * p <= 2 * M2 + t2 < 2 * t2 * (p + 1) ->
  Z.abs (200 * c - 2 * p * A) <= A.
Proof.
  intros Hc HA HM1 HM2 Ht1 Ht2 H1 H2 [H3a H3b].
  assert (P53 : 2 ^ 53 = 9007199254740992) by reflexivity.
  assert (P52 : 2 ^ 52 = 4503599627370496) by reflexivity.
  assert (P32 : 2 ^ 32 = 4294967296) by reflexivity.
  rewrite P53, P52 in *. rewrite P32 in Hc.
  apply Z.abs_le in H1. destruct H1 as [H1b H1a].
  apply Z.abs_le in H2. destruct H2 as [H2b H2a].
  (* t1 is large: the quotient is small *)
  assert (T1 : 1600 * A <= t1).
  { destruct (Z.le_gt_cases (1600 * A) t1) as [?|Hlt]; [assumption|].
    assert (c * t1 <= c * (1600 * A)) by (apply Z.mul_le_mono_nonneg_l; lia).
    assert (A * 9007199254740991 <= A * (2 * M1 - 1))
      by (apply Z.mul_le_mono_nonneg_l; lia).
    assert (A * c <= A * 4294967296) by (apply Z.mul_le_mono_nonneg_l; lia).
    lia. }
  assert (T2 : 4 * A <= t2).
  { destruct (Z.le_gt_cases (4 * A) t2) as [?|Hlt]; [assumption|].
    assert (M1 * t2 <= 9007199254740992 * t2) by (apply Z.mul_le_mono_nonneg_r; lia).
    assert (t1 * 9007199254740991 <= t1 * (2 * M2 - 1))
      by (apply Z.mul_le_mono_nonneg_l; lia).
    lia. }
  assert (Ht12 : 0 < t1 * t2) by (apply Z.mul_pos_pos; assumption).
  apply Z.abs_le. split.
  - (* 2 p A - 200 c <= A *)
    destruct (Z.le_gt_cases (2 * p * A) (200 * c + A)) as [?|Hgt]; [lia|].
    exfalso.
    assert (F1 : (200 * c + A + 1) * (t1 * t2) <= (2 * p * A) * (t1 * t2))
      by (apply Z.mul_le_mono_nonneg_r; lia).
    assert (F2 : (2 * t2 * p) * (A * t1) <= (2 * M2 + t2) * (A * t1))
      by (apply Z.mul_le_mono_nonneg_r; [apply Z.mul_nonneg_nonneg|]; lia).
    assert (F3 : (2 * A * M1 - 2 * c * t1) * (100 * t2) <= A * (100 * t2))
      by (apply Z.mul_le_mono_nonneg_r; lia).
    assert (F4 : (2 * t1 * M2 - 200 * M1 * t2) * A <= t1 * A)
      by (apply Z.mul_le_mono_nonneg_r; lia).
    assert (F5 : 0 <= t1 * (t2 - 4 * A)) by (apply Z.mul_nonneg_nonneg; lia).
    assert (F6 : 0 <= t2 * (t1 - 1600 * A)) by (apply Z.mul_nonneg_nonneg; lia).
    assert (F7 : 0 < A * t1) by (apply Z.mul_pos_pos; lia).
    assert (F8 : 0 < A * t2) by (apply Z.mul_pos_pos; lia).
    lia.
  - (* 200 c - 2 p A <= A *)
    destruct (Z.le_gt_cases (200 * c) (2 * p * A + A)) as [?|Hgt]; [lia|].
    exfalso.
    assert (F1 : (2 * p * A + A + 1) * (t1 * t2) <= (200 * c) * (t1 * t2))
      by (apply Z.mul_le_mono_nonneg_r; lia).
    assert (F2 : (2 * M2 + t2 + 1) * (A * t1) <= (2 * t2 * (p + 1)) * (A * t1))
      by (apply Z.mul_le_mono_nonneg_r; [apply Z.mul_nonneg_nonneg|]; lia).
    assert (F3 : (2 * c * t1 - 2 * A * M1) * (100 * t2) <= A * (100 * t2))
      by (apply Z.mul_le_mono_nonneg_r; lia).
    assert (F4 : (200 * M1 * t2 - 2 * t1 * M2) * A <= t1 * A)
      by (apply Z.mul_le_mono_nonneg_r; lia).
    assert (F5 : 0 <= t2 * (t1 - 1600 * A)) by (apply Z.mul_nonneg_nonneg; lia).
    assert (F7 : 0 < A * t1) by (apply Z.mul_pos_pos; lia).
    assert (F8 : 0 < A * t2) by (apply Z.mul_pos_pos; lia).
    lia.
Qed.

Lemma of_Z_100 : F64.of_Z 100 = S754_finite false 7036874417766400 (-46).
Proof. vm_compute. reflexivity. Qed.

(** A quotient of a count below 2^32: its exponent is well below zero,
    and the mantissa is within one half of [c / cap] scaled. *)
Lemma div_small c cap :
  0 < c < 2 ^ 32 -> 0 < cap < 2 ^ 53 ->
  exists M E,
    F64.div (F64.of_Z c) (F64.of_Z cap) = S754_finite false M E
    /\ 2 ^ 52 <= Z.pos M < 2 ^ 53
    /\ -105 <= E <= -21
    /\ Z.abs (2 * cap * Z.pos M - 2 * c * 2 ^ (- E)) <= cap.
Proof.
  intros Hc Hcap.
  assert (P53 : 2 ^ 53 = 9007199254740992) by reflexivity.
  assert (P52 : 2 ^ 52 = 4503599627370496) by reflexivity.
  assert (P32 : 2 ^ 32 = 4294967296) by reflexivity.
  destruct (div_of_Z c cap ltac:(lia) Hcap) as (M & E & HR & HM & HE & Herr).
  exists M, E. split; [exact HR|]. split; [exact HM|].
  rewrite P53, P52 in *. rewrite P32 in *.
  assert (HEn : E < 0).
  { destruct (Z.lt_ge_cases E 0) as [?|HE0]; [assumption|]. exfalso.
    replace (Z.max 0 E) with E in Herr by lia.
    replace (Z.max 0 (- E)) with 0 in Herr by lia.
    rewrite Z.pow_0_r in Herr.
    pose proof (pow2_pos E HE0) as Hp. set (pos := 2 ^ E) in *.
    apply Z.abs_le in Herr. destruct Herr as [_ Herr].
    assert (1 * (2 * Z.pos M - 1) <= (cap * pos) * (2 * Z.pos M - 1)).
    { apply Z.mul_le_mono_nonneg_r; [lia|].
      assert (0 < cap * pos) by (apply Z.mul_pos_pos; lia). lia. }
    lia. }
  replace (Z.max 0 E) with 0 in Herr by lia.
  replace (Z.max 0 (- E)) with (- E) in Herr by lia.
  rewrite Z.pow_0_r, !Z.mul_1_r in Herr.
  split; [|exact Herr].
  split; [lia|].
  destruct (Z.le_gt_cases E (-21)) as [?|Hgt]; [assumption|]. exfalso.
  assert (2 ^ (- E) <= 2 ^ 20) by (apply Z.pow_le_mono_r; lia).
  change (2 ^ 20) with 1048576 in *.
  pose proof (pow2_pos (- E) ltac:(lia)) as Ht. set (t := 2 ^ (- E)) in *.
  apply Z.abs_le in Herr. destruct Herr as [_ Herr].
  assert (c * t <= 4294967295 * 1048576) by (apply Z.mul_le_mono_nonneg; lia).
  assert (1 * (2 * Z.pos M - 1) <= cap * (2 * Z.pos M - 1))
    by (apply Z.mul_le_mono_nonneg_r; lia).
  lia.
Qed.

(** The product of a value with negative exponent by a constant
    [mc * 2^-ec]: the mantissa of the result is within one half of the
    exact product scaled. *)
Lemma mul_small M1 E1 Mc ec :
  2 ^ 52 <= Z.pos M1 < 2 ^ 53 -> 2 ^ 52 <= Z.pos Mc < 2 ^ 53 ->
  -900 <= E1 <= 0 -> 0 <= ec <= 60 -> E1 - ec + 54 < 0 ->
  exists M E,
    F64.mul (S754_finite false M1 E1) (S754_finite false Mc (- ec)) = S754_finite false M E
    /\ 2 ^ 52 <= Z.pos M < 2 ^ 53
    /\ E1 - ec + 52 <= E <= E1 - ec + 54
    /\ Z.abs (2 * (2 ^ (- E1) * 2 ^ ec) * Z.pos M - 2 * (Z.pos M1 * Z.pos Mc) * 2 ^ (- E))
       <= 2 ^ (- E1) * 2 ^ ec.
Proof.
  intros H1 Hc HE1 Hec Hneg.
  destruct (mul_finite M1 E1 Mc (- ec) H1 Hc ltac:(lia)) as (M & E & HR & HM & HE & Herr).
  exists M, E. split; [exact HR|]. split; [exact HM|]. split; [lia|].
  pose proof (pow2_pos (- E) ltac:(lia)) as Ht.
  apply (abs_scale (2 ^ (- E))) in Herr; [|exact Ht].
  assert (W : 2 ^ (- E) * 2 ^ (E - (E1 + - ec)) = 2 ^ (- E1) * 2 ^ ec).
  { rewrite <- !Z.pow_add_r by lia. f_equal. lia. }
  replace (2 * (2 ^ (- E1) * 2 ^ ec) * Z.pos M - 2 * (Z.pos M1 * Z.pos Mc) * 2 ^ (- E))
    with (2 ^ (- E) * (2 * (2 ^ (E - (E1 + - ec)) * Z.pos M) - 2 * (Z.pos M1 * Z.pos Mc))).
  - rewrite <- W. exact Herr.
  - transitivity (2 * (2 ^ (- E) * 2 ^ (E - (E1 + - ec))) * Z.pos M
                  - 2 * (Z.pos M1 * Z.pos Mc) * 2 ^ (- E)); [ring|].
    rewrite W. reflexivity.
Qed.

(** [Math.round((c / cap) * 100)] is an integer nearest to the exact
    percentage. *)
Lemma percentage_nearest c cap :
  0 <= c < 2 ^ 32 -> 0 < cap < 2 ^ 53 ->
  exists p,
    F64.Math_round (F64.mul (F64.div (F64.of_Z c) (F64.of_Z cap)) (F64.of_Z 100))
    = F64.of_Z p
    /\ 0 <= p
    /\ Z.abs (200 * c - 2 * p * cap) <= cap.
Proof.
  intros Hc Hcap.
  destruct (Z.eq_dec c 0) as [->|Hc0].
  - destruct (of_Z_finite cap Hcap) as (Mb & Eb & -> & _).
    exists 0. split; [reflexivity|]. split; lia.
  - destruct (div_small c cap ltac:(lia) Hcap) as (M1 & E1 & -> & HM1 & HE1 & Herr1).
    rewrite of_Z_100.
    destruct (mul_small M1 E1 7036874417766400 46 HM1 ltac:(split; [discriminate|reflexivity])
                ltac:(lia) ltac:(lia) ltac:(lia))
      as (M2 & E2 & HR2 & HM2 & HE2 & Herr2).
    change (Z.opp 46) with (Z.neg 46) in HR2. rewrite HR2.
    unfold F64.Math_round, F64.signed.
    destruct (Z.leb_spec 0 E2) as [?|_]; [lia|].
    pose proof (pow2_pos (- E1) ltac:(lia)) as Ht1.
    pose proof (pow2_pos (- E2) ltac:(lia)) as Ht2.
    rewrite Z.shiftr_div_pow2 by lia.
    replace (- E2 + 1) with (1 + - E2) by lia.
    rewrite Z.pow_add_r, Z.pow_1_r by lia.
    set (t1 := 2 ^ (- E1)) in *. set (t2 := 2 ^ (- E2)) in *.
    set (p := (2 * Z.pos M2 + t2) / (2 * t2)).
    exists p.
    assert (Hp : 2 * t2 * p <= 2 * Z.pos M2 + t2 < 2 * t2 * (p + 1)).
    { unfold p. split.
      - apply Z.mul_div_le. lia.
      - replace (2 * t2 * ((2 * Z.pos M2 + t2) / (2 * t2) + 1))
          with (2 * t2 * Z.succ ((2 * Z.pos M2 + t2) / (2 * t2))) by lia.
        apply Z.mul_succ_div_gt. lia. }
    split; [reflexivity|]. split.
    + unfold p. apply Z.div_pos; lia.
    + apply (nearest_percent_arith c cap (Z.pos M1) t1 (Z.pos M2) t2 p);
        try lia; try assumption.
Qed.

End Percent.

Section Threshold.
Import Spec Reference.

Lemma nine_tenths_finite :
  F64.nine_tenths = S754_finite false 8106479329266893 (-53).
Proof. vm_compute. reflexivity. Qed.

(** The integer core of the comparison [c >= cap * 0.9]: [M] is the
    mantissa of the rounded product, [u] its unit and [w] the weight of
    an integer, both counted in units of the exact product. *)
Lemma threshold_arith c cap M Mb u w :
  0 <= c -> 0 < cap -> 0 < M ->
  2 ^ 52 <= Mb < 2 ^ 53 -> 2 ^ 52 <= u -> 2 ^ 20 <= w ->
  Mb * 2 ^ 53 = cap * (u * w) ->
  Z.abs (2 * (u * M) - 2 * (Mb * 8106479329266893)) <= u ->
  (M <= c * w <-> 9 * cap <= 10 * c).
Proof.
  intros Hc Hcap HM HMb Hu Hw HT Herr.
  assert (P53 : 2 ^ 53 = 9007199254740992) by reflexivity.
  assert (P52 : 2 ^ 52 = 4503599627370496) by reflexivity.
  assert (P20 : 2 ^ 20 = 1048576) by reflexivity.
  rewrite P53, P52 in *. rewrite P20 in *.
  apply Z.abs_le in Herr. destruct Herr as [Hlo Hhi].
  set (T := u * w) in *.
  assert (HTpos : 0 < T) by (apply Z.mul_pos_pos; lia).
  assert (HuT : u * 1048576 <= T) by (apply Z.mul_le_mono_nonneg_l; lia).
  (* 10 * Mb * K = 9 * cap * T + 2 * Mb *)
  assert (HK : 10 * (Mb * 8106479329266893) = 9 * (cap * T) + 2 * Mb) by lia.
  split.
  - intros HMc.
    destruct (Z.le_gt_cases (9 * cap) (10 * c)) as [?|Hgt]; [assumption|exfalso].
    assert (H1 : u * M <= u * (c * w)) by (apply Z.mul_le_mono_nonneg_l; lia).
    replace (u * (c * w)) with (c * T) in H1 by (unfold T; ring).
    assert (H2 : (10 * c + 1) * T <= 9 * cap * T)
      by (apply Z.mul_le_mono_nonneg_r; lia).
    lia.
  - intros H910.
    assert (H2 : 9 * cap * T <= 10 * c * T)
      by (apply Z.mul_le_mono_nonneg_r; lia).
    assert (H3 : u * M < u * (c * w + 1)).
    { replace (u * (c * w + 1)) with (c * T + u) by (unfold T; ring). lia. }
    apply Z.mul_lt_mono_pos_l in H3; lia.
Qed.

(** [c >= cap * 0.9] in binary64 decides [10 c >= 9 cap] exactly. *)
Lemma nine_tenths_threshold c cap :
  0 <= c < 2 ^ 53 -> 0 < cap < 2 ^ 32 ->
  F64.geb (F64.of_Z c) (F64.mul (F64.of_Z cap) F64.nine_tenths)
  = (9 * cap <=? 10 * c).
Proof.
  intros Hc Hcap.
  assert (P53 : 2 ^ 53 = 9007199254740992) by reflexivity.
  assert (P52 : 2 ^ 52 = 4503599627370496) by reflexivity.
  assert (P32 : 2 ^ 32 = 4294967296) by reflexivity.
  rewrite nine_tenths_finite.
  destruct (of_Z_finite cap ltac:(lia)) as (Mb & Eb & -> & HMb & HEb & Hvb).
  assert (HEb' : Eb <= -21).
  { destruct (Z.le_gt_cases Eb (-21)) as [?|Hgt]; [assumption|exfalso].
    assert (2 ^ (- Eb) <= 2 ^ 20) by (apply Z.pow_le_mono_r; lia).
    change (2 ^ 20) with 1048576 in *.
    pose proof (pow2_pos (- Eb) ltac:(lia)).
    assert (cap * 2 ^ (- Eb) <= 4294967295 * 1048576)
      by (apply Z.mul_le_mono_nonneg; lia).
    lia. }
  destruct (mul_finite Mb Eb 8106479329266893 (-53) HMb
              ltac:(split; [discriminate|reflexivity]) ltac:(lia))
    as (M & E & -> & HM & HE & Herr).
  unfold F64.geb, SFleb.
  destruct (Z.eq_dec c 0) as [->|Hc0].
  - rewrite of_Z_zero. cbn [SFcompare].
    symmetry. apply Z.leb_gt. lia.
  - destruct (of_Z_finite c ltac:(lia)) as (Ma & Ea & -> & HMa & HEa & Hva).
    rewrite (compare_finite M E Ma Ea HM HMa).
    set (m := Z.min E Ea).
    assert (Hm : m <= E /\ m <= Ea) by (unfold m; lia).
    assert (Hw : 2 ^ 20 <= 2 ^ (- E)) by (apply Z.pow_le_mono_r; lia).
    pose proof (pow2_pos (E - m) ltac:(lia)) as Hq.
    assert (HY : Z.pos Ma * 2 ^ (Ea - m) = (c * 2 ^ (- E)) * 2 ^ (E - m)).
    { rewrite Hva, <- !Z.mul_assoc, <- !Z.pow_add_r by lia.
      do 2 f_equal. lia. }
    rewrite HY.
    assert (HA : (Z.pos M <= c * 2 ^ (- E) <-> 9 * cap <= 10 * c)).
    { apply (threshold_arith c cap (Z.pos M) (Z.pos Mb) (2 ^ (E - (Eb + -53)))
               (2 ^ (- E))); try lia.
      - apply Z.pow_le_mono_r; lia.
      - rewrite Hvb, <- Z.mul_assoc, <- !Z.pow_add_r by lia.
        do 2 f_equal. lia. }
    destruct (Z.compare_spec (Z.pos M * 2 ^ (E - m)) (c * 2 ^ (- E) * 2 ^ (E - m)))
      as [He|Hl|Hg]; symmetry.
    + apply Z.leb_le, HA. apply Z.mul_cancel_r in He; lia.
    + apply Z.leb_le, HA. apply Z.mul_lt_mono_pos_r in Hl; lia.
    + apply Z.leb_gt. apply Z.mul_lt_mono_pos_r in Hg; [|lia].
      destruct (Z.le_gt_cases (9 * cap) (10 * c)) as [Hle|?]; [|assumption].
      apply HA in Hle. lia.
Qed.

(** [Math.min] of two integers below 2^53. *)
Lemma Math_min_of_Z x y :
  0 <= x < 2 ^ 53 -> 0 <= y < 2 ^ 53 ->
  F64.Math_min (F64.of_Z x) (F64.of_Z y) = F64.of_Z (Z.min x y).
Proof.
  intros Hx Hy. unfold F64.Math_min. rewrite of_Z_compare by assumption.
  destruct (Z.compare_spec x y); f_equal; lia.
Qed.

Lemma statusColor_tier c cap :
  0 <= c < 2 ^ 53 -> 0 < cap < 2 ^ 32 ->
  VenueOccupancy.statusColor (JS.Num c) (JS.Num cap) = status_tier c cap.
Proof.
  intros Hc Hcap. unfold VenueOccupancy.statusColor, status_tier.
  cbn [JS.gt F64.of_number]. rewrite nine_tenths_threshold by assumption.
  reflexivity.
Qed.

(** X2: for a count and a positive capacity below 2^32 the block of
    the gauge shows an integer [p] nearest to the exact percentage
    [100 c / cap] (either neighbour when the percentage ends in one
    half), printed unclamped; the bar is [min p 100] wide, so it is full
    whenever the count reaches the capacity; "Over Capacity" shows
    exactly when the count exceeds the capacity; the colour is that of
    over capacity above the capacity, the warning colour from exactly
    nine tenths of the capacity on, and the normal colour below. *)
Theorem occupancy_gauge (c cap : Z) :
  0 <= c < 2 ^ 32 -> 0 < cap < 2 ^ 32 ->
  exists p,
    0 <= p
    /\ Z.abs (200 * c - 2 * p * cap) <= cap
    /\ fst (VenueOccupancy.gauge (JS.Num c) (JS.Num cap))
       = {| VenueOccupancy.percent := F64.of_Z p;
            VenueOccupancy.text_color := status_tier c cap;
            VenueOccupancy.over_capacity := cap <? c;
            VenueOccupancy.width := F64.of_Z (Z.min p 100);
            VenueOccupancy.bar_color := status_tier c cap |}
    /\ F64.toString (F64.of_Z p) = JS.toString (JS.Num p)
    /\ (cap <= c -> Z.min p 100 = 100).
Proof.
  intros Hc Hcap.
  assert (P53 : 2 ^ 53 = 9007199254740992) by reflexivity.
  assert (P32 : 2 ^ 32 = 4294967296) by reflexivity.
  destruct (percentage_nearest c cap Hc ltac:(lia)) as (p & Hp & Hp0 & Hnear).
  assert (Hpb : p < 2 ^ 53).
  { apply Z.abs_le in Hnear. destruct Hnear as [Hlo Hhi].
    rewrite P53, P32 in *.
    destruct (Z.lt_ge_cases p 9007199254740992) as [?|Hge]; [assumption|exfalso].
    assert (9007199254740992 * cap <= p * cap)
      by (apply Z.mul_le_mono_nonneg_r; lia).
    assert (200 * c <= 200 * 4294967296) by lia.
    lia. }
  exists p. split; [exact Hp0|]. split; [exact Hnear|]. split; [|split].
  - unfold VenueOccupancy.gauge, VenueOccupancy.percentage, VenueOccupancy.divide,
      VenueOccupancy.and_then, VenueOccupancy.pure.
    cbn [fst F64.of_number]. rewrite Hp.
    rewrite statusColor_tier by lia.
    rewrite Math_min_of_Z by (rewrite ?P53; lia).
    reflexivity.
  - apply toString_of_Z. lia.
  - intros Hfull. apply Z.abs_le in Hnear. destruct Hnear as [Hlo Hhi].
    destruct (Z.le_gt_cases 100 p) as [?|Hlt]; [lia|exfalso].
    assert (p * cap <= 99 * cap) by (apply Z.mul_le_mono_nonneg_r; lia).
    lia.
Qed.

(** X2 at 4000 people for a capacity of 3500. *)
Lemma occupancy_gauge_sample :
  exists p,
    0 <= p
    /\ Z.abs (200 * 4000 - 2 * p * 3500) <= 3500
    /\ fst (VenueOccupancy.gauge (JS.Num 4000) (JS.Num 3500))
       = {| VenueOccupancy.percent := F64.of_Z p;
            VenueOccupancy.text_color := status_tier 4000 3500;
            VenueOccupancy.over_capacity := 3500 <? 4000;
            VenueOccupancy.width := F64.of_Z (Z.min p 100);
            VenueOccupancy.bar_color := status_tier 4000 3500 |}
    /\ F64.toString (F64.of_Z p) = JS.toString (JS.Num p)
    /\ (3500 <= 4000 -> Z.min p 100 = 100).
Proof.
  apply (occupancy_gauge 4000 3500); split; (reflexivity || discriminate).
Defined.

End Threshold.
(* ------------------------------------------------------------------ *)
(** * The schedule                                                      *)
(* ------------------------------------------------------------------ *)

Section Schedule.

Import TimeCard Spec Reference.
Local Open Scope list_scope.

Lemma split_free sep s : free_of sep s = true -> JS.split sep s = [s].
Proof.
  induction s as [|c r IH]; [reflexivity|].
  cbn [free_of JS.split]. destruct (Ascii.eqb c sep); [discriminate|].
  cbn [negb andb]. intros H. rewrite (IH H). reflexivity.
Qed.

Lemma split_at sep h r :
  free_of sep h = true ->
  JS.split sep (h ++ String sep r) = h :: JS.split sep r.
Proof.
  induction h as [|c h IH].
  - intros _. cbn [append JS.split]. rewrite Ascii.eqb_refl. reflexivity.
  - cbn [free_of append JS.split]. destruct (Ascii.eqb c sep); [discriminate|].
    cbn [negb andb]. intros H. rewrite (IH H). reflexivity.
Qed.

(** X3: of a time string only the text before the first colon and the
    text between the first and the second colon are read: a third
    component (the seconds of "20:00:00") changes nothing, and a string
    with no colon has no minutes, so that its time in minutes is [NaN]. *)
Theorem seconds_are_ignored (h m rest : string) :
  free_of ":" h = true -> free_of ":" m = true ->
  hours_minutes (h ++ ":" ++ m ++ ":" ++ rest) = (JS.Number h, JS.Number m)
  /\ hours_minutes (h ++ ":" ++ m) = (JS.Number h, JS.Number m)
  /\ timeInMinutes (h ++ ":" ++ m ++ ":" ++ rest) = timeInMinutes (h ++ ":" ++ m)
  /\ timeInMinutes h = JS.NaN.
Proof.
  intros Hh Hm.
  assert (A : hours_minutes (h ++ ":" ++ m ++ ":" ++ rest) = (JS.Number h, JS.Number m)).
  { unfold hours_minutes.
    change (h ++ ":" ++ m ++ ":" ++ rest)%string
      with (h ++ String ":" (m ++ String ":" rest))%string.
    rewrite (split_at _ h _ Hh), (split_at _ m _ Hm). reflexivity. }
  assert (B : hours_minutes (h ++ ":" ++ m) = (JS.Number h, JS.Number m)).
  { unfold hours_minutes.
    change (h ++ ":" ++ m)%string with (h ++ String ":" m)%string.
    rewrite (split_at _ h _ Hh), (split_free _ m Hm). reflexivity. }
  split; [exact A|]. split; [exact B|]. split.
  - unfold timeInMinutes. rewrite A, B. reflexivity.
  - unfold timeInMinutes, hours_minutes. rewrite (split_free _ h Hh).
    cbn [map nth]. destruct (JS.mul (JS.Number h) (JS.Num 60)); reflexivity.
Qed.

(** X3 on the time 20:00:00. *)
Lemma seconds_are_ignored_sample :
  timeInMinutes "20:00:00" = timeInMinutes "20:00".
Proof.
  exact (proj1 (proj2 (proj2 (seconds_are_ignored "20" "00" "00" eq_refl eq_refl)))).
Defined.

Lemma filter_map_length {A B} (f : A -> B) (p : B -> bool) l :
  List.length (List.filter p (map f l))
  = List.length (List.filter (fun x => p (f x)) l).
Proof.
  induction l as [|x l IH]; [reflexivity|].
  simpl. destruct (p (f x)); simpl; rewrite IH; reflexivity.
Qed.

Lemma futureTimings_length event now :
  List.length (futureTimings event now)
  = List.length (List.filter (upcoming now) (set_fields event)).
Proof.
  unfold futureTimings, set_fields. rewrite sort_length, !filter_map_length.
  reflexivity.
Qed.

Lemma nextThreeTimings_length event now :
  List.length (nextThreeTimings event now)
  = Nat.min 3 (List.length (List.filter (upcoming now) (set_fields event))).
Proof.
  unfold nextThreeTimings.
  rewrite mapi_length, length_firstn, futureTimings_length. reflexivity.
Qed.

Lemma nextThreeTimings_nil event now :
  nextThreeTimings event now = []
  <-> forall p, In p (set_fields event) -> upcoming now p = false.
Proof.
  pose proof (nextThreeTimings_length event now) as L. split.
  - intros E p Hp. rewrite E in L. simpl in L.
    destruct (upcoming now p) eqn:U; [|reflexivity].
    assert (In p (List.filter (upcoming now) (set_fields event)))
      by (apply filter_In; auto).
    destruct (List.filter (upcoming now) (set_fields event)); [contradiction|].
    simpl in L. lia.
  - intros H.
    assert (E : List.filter (upcoming now) (set_fields event) = []).
    { destruct (List.filter (upcoming now) (set_fields event)) as [|p l] eqn:F;
        [reflexivity|].
      assert (Hp : In p (List.filter (upcoming now) (set_fields event)))
        by (rewrite F; left; reflexivity).
      apply filter_In in Hp. destruct Hp as [Hp U].
      rewrite (H p Hp) in U. discriminate. }
    rewrite E in L. simpl in L.
    destruct (nextThreeTimings event now); [reflexivity|discriminate].
Qed.

(** X4: the schedule lists as many entries as there are fields set to
    a time after the current minute, up to three; it is empty (the view
    then reads "No upcoming event timings") exactly when no field is
    set to a later time of the day. *)
Theorem schedule_length (event : EventRow) (now : Date.t) :
  List.length (nextThreeTimings event now)
  = Nat.min 3 (List.length (List.filter (upcoming now) (set_fields event)))
  /\ (nextThreeTimings event now = []
      <-> forall p, In p (set_fields event) -> upcoming now p = false).
Proof.
  split; [apply nextThreeTimings_length | apply nextThreeTimings_nil].
Qed.

Lemma sorted_head_least l x :
  StronglySorted (fun a b => key a <= key b) (x :: l) ->
  forall y, In y (x :: l) -> key x <= key y.
Proof.
  intros H y [<-|Hy]; [lia|].
  apply StronglySorted_inv in H. destruct H as [_ H].
  rewrite Forall_forall in H. apply H, Hy.
Qed.

(** The target after a read is the first of the sorted entries. *)
Lemma nextEvent_head event now st e :
  nextEvent (fetchEventTimings (Some event) now st) = Some e ->
  exists x l,
    futureTimings event now = x :: l /\ e = mark 0 x
    /\ In x (timingsWithMinutes event)
    /\ exists kx, minutesSinceMidnight x = JS.Num kx
                  /\ minutes_of e = JS.Num kx
                  /\ JS.gt (JS.Num kx) (currentTimeNumber now) = true.
Proof.
  cbn [fetchEventTimings nextEvent]. intros He.
  unfold nextThreeTimings in He. rewrite mapi_nth_error in He.
  destruct (futureTimings event now) as [|x l] eqn:F; [discriminate|].
  cbn [firstn nth_error option_map] in He. injection He as <-.
  exists x, l. split; [reflexivity|]. split; [reflexivity|].
  pose proof (timingsWithMinutes_consistent event) as HC.
  rewrite Forall_forall in HC.
  assert (Hx : In x (futureTimings event now)) by (rewrite F; left; reflexivity).
  destruct (futureTimings_In _ _ _ Hx) as [Hxin Hxgt].
  destruct (gt_numeric _ _ Hxgt) as [kx Hkx].
  split; [exact Hxin|]. exists kx. split; [exact Hkx|]. split.
  - unfold minutes_of. cbn [time mark]. rewrite <- (HC x Hxin). exact Hkx.
  - rewrite <- Hkx. exact Hxgt.
Qed.

(** X5: after a read that found the current event, the schedule is the
    selector's result and the countdown targets its first entry: an
    entry that is flagged, stands for a field that is set, and whose
    time is the earliest among all the set fields after the current
    minute (not only among the three listed).  There is no target
    exactly when no set field is later than the current minute.  The
    text of the countdown is left as it was. *)
Theorem next_event_is_earliest (event : EventRow) (now : Date.t) (st : State) :
  let st' := fetchEventTimings (Some event) now st in
  eventTimings st' = nextThreeTimings event now
  /\ artistName st' = event_name event
  /\ countdown st' = countdown st
  /\ (nextEvent st' = None
      <-> forall p, In p (set_fields event) -> upcoming now p = false)
  /\ (forall e, nextEvent st' = Some e ->
        isNext e = true
        /\ In (entry e) (set_fields event)
        /\ in_future now e
        /\ forall p, In p (set_fields event) -> upcoming now p = true ->
             JS.ge (timeInMinutes (snd p)) (minutes_of e) = true).
Proof.
  cbv zeta.
  split; [reflexivity|]. split; [reflexivity|]. split; [reflexivity|].
  split.
  - cbn [fetchEventTimings nextEvent].
    rewrite <- (nextThreeTimings_nil event now).
    destruct (nextThreeTimings event now); simpl; split; congruence.
  - intros e He.
    destruct (nextEvent_head event now st e He)
      as (x & l & F & -> & Hxin & kx & Hkx & Hmin & Hgt).
    pose proof (futureTimings_sorted event now) as Hs. rewrite F in Hs.
    split; [reflexivity|]. split; [|split].
    + rewrite <- timingsWithMinutes_fields.
      change (entry (mark 0 x)) with (pair_of x). apply in_map. exact Hxin.
    + unfold in_future. rewrite Hmin. exact Hgt.
    + intros p Hp Up.
      unfold set_fields in Hp. apply in_map_iff in Hp.
      destruct Hp as (c & <- & Hc).
      assert (Hy : In (withMinutes c) (futureTimings event now)).
      { unfold futureTimings. apply sort_In, filter_In. split.
        - apply in_map. exact Hc.
        - exact Up. }
      rewrite F in Hy.
      pose proof (sorted_head_least l x Hs _ Hy) as Hle.
      destruct (gt_numeric _ _ Up) as [kp Hkp].
      rewrite Hmin. cbn [snd] in Hkp |- *. rewrite Hkp.
      unfold key in Hle. rewrite Hkx in Hle.
      cbn [minutesSinceMidnight withMinutes] in Hle. rewrite Hkp in Hle.
      simpl. apply Z.leb_le. exact Hle.
Qed.

(** The current time number is the minute of the day. *)
Lemma currentTimeNumber_minute tv :
  currentTimeNumber (JS.Num tv) = JS.Num ((tv mod 86400000) / 60000)
  /\ 0 <= (tv mod 86400000) / 60000 < 1440.
Proof.
  unfold currentTimeNumber, Date.getHours, Date.getMinutes, Date.lift,
    Date.msPerDay, Date.msPerHour, Date.msPerMinute.
  cbn [JS.mul JS.add].
  assert (B : 0 <= tv mod 86400000 < 86400000) by (apply Z.mod_pos_bound; lia).
  set (x := tv mod 86400000) in *.
  assert (E : tv mod 3600000 = x mod 3600000).
  { unfold x. replace 86400000 with (3600000 * 24) by reflexivity.
    rewrite Z.rem_mul_r by lia.
    rewrite (Z.mul_comm 3600000 ((tv / 3600000) mod 24)), Z.mod_add by lia.
    rewrite Z.mod_mod by lia. reflexivity. }
  rewrite E. split.
  - f_equal.
    rewrite (Z.div_mod x 3600000) at 3 by lia.
    replace (3600000 * (x / 3600000)) with ((x / 3600000 * 60) * 60000) by ring.
    rewrite Z.div_add_l by lia. reflexivity.
  - split; [apply Z.div_pos; lia | apply Z.div_lt_upper_bound; lia].
Qed.



End Schedule.
(* ------------------------------------------------------------------ *)
(** * Relations between the statistics                                  *)
(* ------------------------------------------------------------------ *)

Section StatisticsRelations.

Import Dashboard Spec.
Local Open Scope list_scope.
Local Open Scope nat_scope.

(** The categories the buckets test are distinct strings. *)
Lemma category_exclusive i :
  (bump (high_priority i) 0 + bump (category_is "Refusal" i) 0
   + bump (sit_rep_record i) 0 <= 1)
  /\ bump (category_is "Ejection" i) 0 <= bump (high_priority i) 0.
Proof.
  unfold high_priority, sit_rep_record, category_is.
  destruct (String.eqb_spec (incident_type i) "Ejection") as [->|_];
    [simpl; lia|].
  destruct (String.eqb_spec (incident_type i) "Code Green") as [->|_];
    [simpl; lia|].
  destruct (String.eqb_spec (incident_type i) "Code Black") as [->|_];
    [simpl; lia|].
  destruct (String.eqb_spec (incident_type i) "Code Pink") as [->|_];
    [simpl; lia|].
  destruct (String.eqb_spec (incident_type i) "Refusal") as [->|_];
    [simpl; lia|].
  destruct (incident_type i =? "Sit Rep")%string; simpl; lia.
Qed.

Lemma bump_0 b n : bump b n = bump b 0 + n.
Proof. destruct b; reflexivity. Qed.

(** X6: whatever the records, every record is counted once among open,
    closed and logged, so these three add up to the total; the records
    in progress are among the open ones; ejections are among the high
    priority records; a record is counted in at most one of high
    priority, refusals and logged; no bucket exceeds the total, and the
    average resolution is always 0. *)
Theorem stats_add_up (incidents : list Incident) :
  let s := computeStats incidents in
  open s + closed s + logged s = total s
  /\ inProgress s <= open s
  /\ ejections s <= high s
  /\ high s + refusals s + logged s <= total s
  /\ medical s <= total s
  /\ avgResolution s = 0.
Proof.
  induction incidents as [|i l IH]; [cbv; repeat split; lia|].
  cbv zeta in *. rewrite computeStats_cons.
  destruct IH as (H1 & H2 & H3 & H4 & H5 & H6).
  set (s := computeStats l) in *. clearbody s.
  unfold tally.
  cbn [total high open inProgress closed logged avgResolution refusals
       ejections medical].
  destruct (category_exclusive i) as [E1 E2].
  rewrite (bump_0 _ (high s)), (bump_0 _ (refusals s)), (bump_0 _ (logged s)),
    (bump_0 _ (ejections s)), (bump_0 _ (open s)), (bump_0 _ (closed s)),
    (bump_0 _ (inProgress s)), (bump_0 _ (medical s)).
  repeat split; try lia.
  - destruct (sit_rep_record i), (closed_record i); simpl; lia.
  - destruct (sit_rep_record i), (closed_record i), (action_was_taken i);
      simpl; lia.
  - destruct (medical_record i); simpl; lia.
Qed.

Lemma tally_comm i j s : tally i (tally j s) = tally j (tally i s).
Proof.
  unfold tally.
  cbn [total high open inProgress closed logged avgResolution refusals
       ejections medical].
  f_equal; unfold bump;
    repeat match goal with |- context [if ?b then _ else _] => destruct b end;
    reflexivity.
Qed.

Lemma computeStats_app l1 l2 :
  computeStats (l1 ++ l2) = fold_right tally (computeStats l2) l1.
Proof.
  induction l1 as [|i l1 IH]; [reflexivity|].
  simpl app. rewrite computeStats_cons, IH. reflexivity.
Qed.

(** X7: the statistics do not depend on the order in which the read
    returns the records. *)
Theorem stats_order_independent (incidents incidents' : list Incident) :
  Permutation incidents incidents' ->
  computeStats incidents = computeStats incidents'.
Proof.
  induction 1 as [|x l l' _ IH|x y l|l l' l'' _ IH1 _ IH2].
  - reflexivity.
  - rewrite !computeStats_cons, IH. reflexivity.
  - rewrite !computeStats_cons. apply tally_comm.
  - congruence.
Qed.

(** X7 on three records read in two orders. *)
Lemma stats_order_independent_sample :
  computeStats [sit_rep; open_ejection; closed_refusal]
  = computeStats [closed_refusal; sit_rep; open_ejection].
Proof.
  apply stats_order_independent.
  apply Permutation_sym, (Permutation_cons_app [sit_rep; open_ejection] []).
  apply Permutation_refl.
Defined.

End StatisticsRelations.
(* ------------------------------------------------------------------ *)
(** * The dashboard: what its reads and notifications do                *)
(* ------------------------------------------------------------------ *)

Section DashboardReads.

Import Backend Async Dashboard Spec Inv.
Local Open Scope list_scope.

Ltac dsettle :=
  unfold step, resume, checkCurrentEvent_resume, fetchIncidentStats_current,
    fetchIncidentStats_incidents, try_catch, bind, exec, ret, throw,
    setIncidentStats, setCurrentEventId, setHasCurrentEvent,
    drop_call, with_pending, with_env, dashboard_retained in *;
  cbn.

(** Once a call has been dropped it is pending in no phase. *)
Lemma dropped_not_pending call ph (l : list (nat * Phase)) :
  existsb (fun p => Nat.eqb (fst p) call && phase_eqb (snd p) ph)
          (List.filter (fun p => negb (Nat.eqb (fst p) call)) l) = false.
Proof.
  induction l as [|[c q] l IH]; [reflexivity|].
  simpl. destruct (Nat.eqb c call) eqn:E; simpl; [exact IH|].
  rewrite E. simpl. exact IH.
Qed.

(** The state after the read of [checkCurrentEvent] has settled. *)
Lemma check_settled call r w :
  mounted w = true -> is_pending call AwaitCheck w = true ->
  step (CheckSettled call r) w
  = match r with
    | Resolved event _ =>
        {| hasCurrentEvent := match event with Some _ => true | None => false end;
           currentEventId :=
             match event with
             | Some ev => if JS.truthy (JS.VStr (id ev)) then Some (id ev) else None
             | None => None
             end;
           incidentStats := incidentStats w;
           subscriptionRef := subscriptionRef w;
           mounted := mounted w; effect_ran := effect_ran w;
           pending := List.filter (fun p => negb (Nat.eqb (fst p) call)) (pending w);
           next_call := next_call w; env := env w |}
    | Rejected _ =>
        with_env (log "Error checking current event:") (drop_call call w)
    end.
Proof.
  intros Hm Hp. unfold step, resume. rewrite Hp.
  destruct r as [data e|reason]; dsettle; rewrite ?Hm; cbn; rewrite ?Hm;
    reflexivity.
Qed.

(** X8: when the read of [checkCurrentEvent] settles on a mounted
    dashboard, a row makes the dashboard hold a current event, with the
    row's id (no id when the id is the empty string); no row, with or
    without an error object, makes it hold none, and logs nothing; a
    rejected promise leaves the state as it was and logs one line.  The
    statistics are never touched, nothing is left unhandled, and the
    call is over. *)
Theorem current_event_checked (w : World) (call : nat) :
  mounted w = true -> is_pending call AwaitCheck w = true ->
  (forall ev err,
      let w' := step (CheckSettled call (Resolved (Some ev) err)) w in
      hasCurrentEvent w' = true
      /\ currentEventId w' = (if (id ev =? "")%string then None else Some (id ev))
      /\ console (env w') = console (env w))
  /\ (forall err,
      let w' := step (CheckSettled call (Resolved None err)) w in
      hasCurrentEvent w' = false
      /\ currentEventId w' = None
      /\ console (env w') = console (env w))
  /\ (forall reason,
      let w' := step (CheckSettled call (Rejected reason)) w in
      dashboard_retained w' = dashboard_retained w
      /\ console (env w')
         = console (env w) ++ ["Error checking current event:"%string])
  /\ (forall r ph,
      let w' := step (CheckSettled call r) w in
      incidentStats w' = incidentStats w
      /\ unhandled (env w') = unhandled (env w)
      /\ is_pending call ph w' = false).
Proof.
  intros Hm Hp.
  split; [|split; [|split]]; intros;
    repeat match goal with x := _ |- _ => subst x end;
    rewrite (check_settled _ _ _ Hm Hp).
  - cbn. destruct (id ev =? "")%string; auto.
  - cbn. auto.
  - cbn. auto.
  - unfold is_pending.
    destruct r as [data e|reason]; cbn; auto using dropped_not_pending.
Qed.

(** X8 for the read started by the first render, resolving with the
    event of id 7. *)
Lemma current_event_checked_sample :
  let w := step (CheckSettled 0 (Resolved (Some {| id := "7" |}) None))
             (run [Render 1000] initial) in
  hasCurrentEvent w = true
  /\ currentEventId w = Some "7"%string
  /\ console (env w) = [].
Proof.
  exact (proj1 (current_event_checked (run [Render 1000] initial) 0
                  eq_refl eq_refl) {| id := "7" |} None).
Defined.

(** A call that is put back in the queue is pending in its new phase only. *)
Lemma requeued_pending call ph ph' (l : list (nat * Phase)) :
  existsb (fun p => Nat.eqb (fst p) call && phase_eqb (snd p) ph')
          (List.filter (fun p => negb (Nat.eqb (fst p) call)) l ++ [(call, ph)])
  = phase_eqb ph ph'.
Proof.
  rewrite existsb_app, dropped_not_pending. simpl.
  rewrite Nat.eqb_refl, orb_false_r. reflexivity.
Qed.

(** Dropping a call leaves the other calls pending as they were. *)
Lemma other_still_pending a b ph (l : list (nat * Phase)) :
  a <> b ->
  existsb (fun p => Nat.eqb (fst p) a && phase_eqb (snd p) ph)
          (List.filter (fun p => negb (Nat.eqb (fst p) b)) l)
  = existsb (fun p => Nat.eqb (fst p) a && phase_eqb (snd p) ph) l.
Proof.
  intros Hab. induction l as [|[c q] l IH]; [reflexivity|].
  simpl. destruct (Nat.eqb c b) eqn:E; simpl.
  - apply Nat.eqb_eq in E. subst c.
    destruct (Nat.eqb_spec b a); [congruence|]. simpl. exact IH.
  - rewrite IH. reflexivity.
Qed.

(** The state after the first read of [fetchIncidentStats] has settled. *)
Lemma current_settled call r w :
  is_pending call AwaitCurrent w = true ->
  step (CurrentSettled call r) w
  = match r with
    | Resolved None _ => drop_call call w
    | Resolved (Some _) _ =>
        with_pending
          (List.filter (fun p => negb (Nat.eqb (fst p) call)) (pending w)
           ++ [(call, AwaitIncidents)]) (next_call w) w
    | Rejected _ =>
        with_env (log "Error fetching incident stats:") (drop_call call w)
    end.
Proof.
  intros Hp. unfold step, resume. rewrite Hp.
  destruct r as [[row|] e|reason]; reflexivity.
Qed.

(** The state after its second read has settled. *)
Lemma incidents_settled call r w :
  mounted w = true -> is_pending call AwaitIncidents w = true ->
  step (IncidentsSettled call r) w
  = match r with
    | Resolved None _ => drop_call call w
    | Resolved (Some incidents) _ =>
        {| hasCurrentEvent := hasCurrentEvent w;
           currentEventId := currentEventId w;
           incidentStats := computeStats incidents;
           subscriptionRef := subscriptionRef w;
           mounted := mounted w; effect_ran := effect_ran w;
           pending := List.filter (fun p => negb (Nat.eqb (fst p) call)) (pending w);
           next_call := next_call w; env := env w |}
    | Rejected _ =>
        with_env (log "Error fetching incident stats:") (drop_call call w)
    end.
Proof.
  intros Hm Hp. unfold step, resume. rewrite Hp.
  destruct r as [[rows|] e|reason]; dsettle; rewrite ?Hm; reflexivity.
Qed.

(** X9: a refresh of the statistics on a mounted dashboard.  When the
    first read finds the current event and the second returns the
    records, the statistics become those of the records and nothing
    else changes; when the first read finds no current event the call
    ends there: no second read is made and the statistics keep their
    previous values, as they do when the second read returns no list.
    Nothing is logged in these cases, and the call is over. *)
Theorem stats_refresh_completes (w : World) (call : nat) :
  mounted w = true -> is_pending call AwaitCurrent w = true ->
  (forall ev e1 incidents e2,
      let w' := run [CurrentSettled call (Resolved (Some ev) e1);
                     IncidentsSettled call (Resolved (Some incidents) e2)] w in
      incidentStats w' = computeStats incidents
      /\ hasCurrentEvent w' = hasCurrentEvent w
      /\ currentEventId w' = currentEventId w
      /\ env w' = env w
      /\ forall ph, is_pending call ph w' = false)
  /\ (forall e1,
      let w' := step (CurrentSettled call (Resolved None e1)) w in
      dashboard_retained w' = dashboard_retained w
      /\ env w' = env w
      /\ forall ph, is_pending call ph w' = false)
  /\ (forall ev e1 e2,
      let w' := run [CurrentSettled call (Resolved (Some ev) e1);
                     IncidentsSettled call (Resolved None e2)] w in
      dashboard_retained w' = dashboard_retained w
      /\ env w' = env w
      /\ forall ph, is_pending call ph w' = false).
Proof.
  intros Hm Hp.
  assert (Q : forall ev e1,
            let w1 := step (CurrentSettled call (Resolved (Some ev) e1)) w in
            mounted w1 = true /\ is_pending call AwaitIncidents w1 = true).
  { intros ev e1. cbv zeta. rewrite (current_settled _ _ _ Hp).
    split; [exact Hm|]. unfold is_pending. cbn [pending with_pending].
    apply requeued_pending. }
  split; [|split]; intros;
    repeat match goal with x := _ |- _ => subst x end.
  - destruct (Q ev e1) as [Hm1 Hp1]. unfold run. cbn [fold_left].
    rewrite (incidents_settled _ _ _ Hm1 Hp1).
    rewrite (current_settled _ _ _ Hp).
    cbn [incidentStats hasCurrentEvent currentEventId env with_pending
         dashboard_retained drop_call].
    repeat split. intros ph. apply dropped_not_pending.
  - rewrite (current_settled _ _ _ Hp). cbn. repeat split.
    intros ph. apply dropped_not_pending.
  - destruct (Q ev e1) as [Hm1 Hp1]. unfold run. cbn [fold_left].
    rewrite (incidents_settled _ _ _ Hm1 Hp1).
    rewrite (current_settled _ _ _ Hp).
    cbn [incidentStats hasCurrentEvent currentEventId env with_pending
         dashboard_retained drop_call].
    repeat split. intros ph. apply dropped_not_pending.
Qed.

(** X9 for the refresh started by the first render. *)
Lemma stats_refresh_completes_sample :
  incidentStats
    (run [CurrentSettled 1 (Resolved (Some {| id := "7" |}) None);
          IncidentsSettled 1 (Resolved (Some [sit_rep; open_ejection]) None)]
         (run [Render 1000] initial))
  = computeStats [sit_rep; open_ejection].
Proof.
  exact (proj1 (proj1 (stats_refresh_completes (run [Render 1000] initial) 1
                         eq_refl eq_refl)
                 {| id := "7" |} None [sit_rep; open_ejection] None)).
Defined.

(** X10: two refreshes in flight are not ordered: the statistics shown
    are those of the read that settles last, whichever call was started
    first, so the result of an older read can replace a newer one. *)
Theorem last_settled_read_wins (w : World) (a b : nat) :
  mounted w = true -> a <> b ->
  is_pending a AwaitIncidents w = true ->
  is_pending b AwaitIncidents w = true ->
  forall ra rb ea eb,
    incidentStats
      (run [IncidentsSettled b (Resolved (Some rb) eb);
            IncidentsSettled a (Resolved (Some ra) ea)] w)
    = computeStats ra.
Proof.
  intros Hm Hab Ha Hb ra rb ea eb. unfold run. cbn [fold_left].
  assert (Hm1 : mounted (step (IncidentsSettled b (Resolved (Some rb) eb)) w) = true)
    by (rewrite (incidents_settled _ _ _ Hm Hb); exact Hm).
  assert (Ha1 : is_pending a AwaitIncidents
                  (step (IncidentsSettled b (Resolved (Some rb) eb)) w) = true).
  { rewrite (incidents_settled _ _ _ Hm Hb). unfold is_pending. cbn [pending].
    rewrite other_still_pending by exact Hab. exact Ha. }
  rewrite (incidents_settled _ _ _ Hm1 Ha1). reflexivity.
Qed.

(** X10: the refresh of the first render (call 1) and the one started
    by a notification (call 2); the newer settles first, the older
    last, and the older result is what stays. *)
Lemma last_settled_read_wins_sample :
  incidentStats
    (run [IncidentsSettled 2 (Resolved (Some [sit_rep; open_ejection]) None);
          IncidentsSettled 1 (Resolved (Some [sit_rep]) None)]
         (run [Render 1000; Notification;
               CurrentSettled 1 (Resolved (Some {| id := "7" |}) None);
               CurrentSettled 2 (Resolved (Some {| id := "7" |}) None)] initial))
  = computeStats [sit_rep].
Proof.
  apply (last_settled_read_wins _ 1%nat 2%nat);
    [reflexivity | discriminate | reflexivity | reflexivity].
Defined.

(** ** Notifications and the life of the instance *)

Lemma frame_holds w w' :
  dashboard_frame w' = dashboard_frame w -> holds_channel w -> holds_channel w'.
Proof.
  unfold dashboard_frame, holds_channel. intros E H. injection E as _ _ -> -> ->.
  exact H.
Qed.

Lemma suspend_frame ph w : dashboard_frame (suspend ph w) = dashboard_frame w.
Proof. reflexivity. Qed.

Lemma step_holds ev w : holds_channel w -> holds_channel (step ev w).
Proof.
  intros H. destruct ev as [now| |call r|call r|call r| | |].
  - unfold step. destruct (mounted w && negb (effect_ran w)); [|exact H].
    unfold holds_channel, effect. intros _ _.
    destruct (subscribe _ None _) as [c e]. discriminate.
  - unfold step. destruct (mounted w) eqn:Hm; [|exact H].
    unfold holds_channel. cbn. discriminate.
  - apply (frame_holds w); [apply dashboard_settle_frame; reflexivity | exact H].
  - apply (frame_holds w); [apply dashboard_settle_frame; reflexivity | exact H].
  - apply (frame_holds w); [apply dashboard_settle_frame; reflexivity | exact H].
  - apply (frame_holds w); [|exact H]. apply suspend_fold.
  - unfold step. destruct (mounted w); [|exact H].
    apply (frame_holds w); [apply suspend_frame | exact H].
  - unfold step. destruct (mounted w); [|exact H].
    apply (frame_holds w); [apply suspend_frame | exact H].
Qed.

Lemma run_holds evs w : holds_channel w -> holds_channel (run evs w).
Proof.
  revert w. induction evs as [|ev evs IH]; intros w H; [exact H|].
  apply IH, step_holds, H.
Qed.

Lemma initial_holds : holds_channel initial.
Proof. intros _ H. discriminate H. Qed.

(** X11: after any history, a pushed change of the incident log starts
    exactly one refresh of the statistics when the dashboard is mounted
    and has run its effect, and does nothing at all otherwise (before
    the first render, after the unmount). *)
Theorem notification_refreshes_once (evs : list Event) :
  let w := run evs initial in
  step Notification w
  = if mounted w && effect_ran w then fetchIncidentStats w else w.
Proof.
  cbv zeta.
  pose proof (dashboard_run_inv evs initial dashboard_initial_inv) as (Hl & He & Hu).
  pose proof (run_holds evs initial initial_holds) as Hh.
  set (w := run evs initial) in *.
  unfold step. rewrite Hl.
  destruct (subscriptionRef w) as [c|] eqn:R.
  - destruct (mounted w); [|specialize (Hu eq_refl); congruence].
    destruct (effect_ran w); [|specialize (He eq_refl); congruence].
    reflexivity.
  - destruct (mounted w) eqn:Hm, (effect_ran w) eqn:Hr; try reflexivity.
    exfalso. exact (Hh Hm Hr R).
Qed.

(** X12: an unmounted dashboard is inert: whatever happens after the
    unmount (late results, notifications, callbacks of the modals,
    further renders), the state it retains is unchanged, no channel is
    opened and none is closed. *)
Theorem unmounted_dashboard_is_inert (before after : list Event) :
  let w := step Unmount (run before initial) in
  let w' := run after w in
  dashboard_retained w' = dashboard_retained w
  /\ live (env w') = []
  /\ ops (env w') = ops (env w)
  /\ mounted w' = false.
Proof.
  cbv zeta.
  pose proof (dashboard_run_inv before initial dashboard_initial_inv) as Hinv.
  pose proof (dashboard_unmount_closes _ Hinv) as [Hlive _].
  cbv zeta in Hlive.
  assert (Hm : mounted (step Unmount (run before initial)) = false).
  { unfold step. destruct (mounted (run before initial)) eqn:E; [reflexivity|exact E]. }
  set (w := step Unmount (run before initial)) in *. clearbody w.
  revert w Hlive Hm. induction after as [|ev evs IH]; intros w Hlive Hm.
  - auto.
  - change (run (ev :: evs) w) with (run evs (step ev w)).
    assert (S : dashboard_retained (step ev w) = dashboard_retained w
                /\ dashboard_frame (step ev w) = dashboard_frame w).
    { destruct ev as [now| |call r|call r|call r| | |].
      - unfold step. rewrite Hm. auto.
      - unfold step. rewrite Hm. auto.
      - split; [apply dashboard_settle_unmounted | apply dashboard_settle_frame]; auto.
      - split; [apply dashboard_settle_unmounted | apply dashboard_settle_frame]; auto.
      - split; [apply dashboard_settle_unmounted | apply dashboard_settle_frame]; auto.
      - unfold step. rewrite Hlive. auto.
      - unfold step. rewrite Hm. auto.
      - unfold step. rewrite Hm. auto. }
    destruct S as [Sr Sf]. unfold dashboard_frame in Sf.
    injection Sf as Sl So _ _ Sm.
    destruct (IH (step ev w)) as (I1 & I2 & I3 & I4); [congruence|congruence|].
    repeat split; congruence.
Qed.

End DashboardReads.
(* ------------------------------------------------------------------ *)
(** * The occupancy view: fetches, keys and notifications               *)
(* ------------------------------------------------------------------ *)

Section OccupancyReads.

Import Backend Async VenueOccupancy Spec Inv.
Local Open Scope list_scope.
Local Arguments channel_topic : simpl never.

Ltac osettle Hm :=
  unfold fetchData_event, fetchData_attendance,
    try_catch_finally, fetchData_catch, fetchData_finally,
    bind, exec, ret, throw, setCurrentCount, setVenueCapacity, setLoading,
    drop_call, with_pending, with_env;
  cbn; rewrite ?Hm; cbn.

Lemma occupancy_dropped_not_pending call ph (l : list (nat * Phase)) :
  existsb (fun p => Nat.eqb (fst p) call && phase_eqb (snd p) ph)
          (List.filter (fun p => negb (Nat.eqb (fst p) call)) l) = false.
Proof.
  induction l as [|[c q] l IH]; [reflexivity|].
  simpl. destruct (Nat.eqb c call) eqn:E; simpl; [exact IH|].
  rewrite E. simpl. exact IH.
Qed.

(** The state after the first read has resolved without an error. *)
Lemma event_settled call eventData w :
  mounted w = true -> is_pending call AwaitEvent w = true ->
  step (EventSettled call (Resolved eventData None)) w
  = {| currentCount := currentCount w; loading := loading w;
       venueCapacity :=
         if JS.truthy (fetched_capacity eventData)
         then JS.parseInt (fetched_capacity eventData) else venueCapacity w;
       subscriptionRef := subscriptionRef w; mounted := mounted w;
       deps := deps w; has_cleanup := has_cleanup w;
       pending := List.filter (fun p => negb (Nat.eqb (fst p) call)) (pending w)
                  ++ [(call, AwaitAttendance)];
       next_call := next_call w; env := env w |}.
Proof.
  intros Hm Hp. unfold step, resume. rewrite Hp. osettle Hm.
  destruct (JS.truthy (fetched_capacity eventData)); cbn; rewrite ?Hm; reflexivity.
Qed.

(** The state after the second read has resolved with a row, or with
    none and at most the error "no row". *)
Lemma attendance_settled call attendanceData attendanceError w :
  mounted w = true -> is_pending call AwaitAttendance w = true ->
  unexpected attendanceError = None ->
  step (AttendanceSettled call (Resolved attendanceData attendanceError)) w
  = {| currentCount :=
         match attendanceData with Some row => count row | None => JS.Num 0 end;
       loading := false; venueCapacity := venueCapacity w;
       subscriptionRef := subscriptionRef w; mounted := mounted w;
       deps := deps w; has_cleanup := has_cleanup w;
       pending := List.filter (fun p => negb (Nat.eqb (fst p) call)) (pending w);
       next_call := next_call w; env := env w |}.
Proof.
  intros Hm Hp He. unfold step, resume. rewrite Hp. osettle Hm. rewrite He.
  destruct attendanceData; cbn; rewrite ?Hm; cbn; rewrite ?Hm; reflexivity.
Qed.

(** X13: a snapshot fetch on a mounted view whose two reads succeed.
    The capacity becomes the fetched one when that is truthy and stays
    otherwise; the count becomes that of the attendance row, and 0 when
    there is no row, also when the read reports "no row" (PGRST116),
    which is not an error; the view stops loading; the capacity is not
    reset, nothing is logged, and the call is over. *)
Theorem snapshot_fetch_completes (w : World) (call : nat) :
  mounted w = true -> is_pending call AwaitEvent w = true ->
  forall eventData attendanceData attendanceError,
    unexpected attendanceError = None ->
    let w' := run [EventSettled call (Resolved eventData None);
                   AttendanceSettled call (Resolved attendanceData attendanceError)] w in
    currentCount w'
    = match attendanceData with Some row => count row | None => JS.Num 0 end
    /\ venueCapacity w'
       = (if JS.truthy (fetched_capacity eventData)
          then JS.parseInt (fetched_capacity eventData) else venueCapacity w)
    /\ loading w' = false
    /\ env w' = env w
    /\ (forall ph, is_pending call ph w' = false)
    /\ unexpected (Some {| code := "PGRST116"; message := "no rows" |}) = None.
Proof.
  intros Hm Hp eventData attendanceData attendanceError He. cbv zeta.
  unfold run. cbn [fold_left].
  pose proof (event_settled call eventData w Hm Hp) as E1.
  assert (Hm1 : mounted (step (EventSettled call (Resolved eventData None)) w) = true)
    by (rewrite E1; exact Hm).
  assert (Hp1 : is_pending call AwaitAttendance
                  (step (EventSettled call (Resolved eventData None)) w) = true).
  { rewrite E1. unfold is_pending. cbn [pending].
    apply (is_pending_requeued call AwaitAttendance AwaitAttendance). }
  rewrite (attendance_settled _ _ _ _ Hm1 Hp1 He). rewrite E1.
  cbn [currentCount venueCapacity loading env pending].
  repeat split. intros ph. apply occupancy_dropped_not_pending.
Qed.

(** X13 for the fetch of the first render: capacity 5000, no attendance
    row yet. *)
Lemma snapshot_fetch_completes_sample :
  let w' := run [EventSettled 0
                   (Resolved (Some {| venue_capacity := JS.VNum (JS.Num 5000) |}) None);
                 AttendanceSettled 0
                   (Resolved None (Some {| code := "PGRST116"; message := "no rows" |}))]
                (run [Render (Some "A"%string) 1000] initial) in
  retained w' = (JS.Num 0, false, JS.Num 5000).
Proof.
  destruct (snapshot_fetch_completes (run [Render (Some "A"%string) 1000] initial) 0
              eq_refl eq_refl
              (Some {| venue_capacity := JS.VNum (JS.Num 5000) |}) None
              (Some {| code := "PGRST116"; message := "no rows" |}) eq_refl)
    as (H1 & H2 & H3 & _).
  cbv zeta. unfold retained. rewrite H1, H2, H3. reflexivity.
Defined.

Lemma cleanup_next_call w : next_call (cleanup w) = next_call w.
Proof. unfold cleanup. destruct (subscriptionRef w); reflexivity. Qed.

(** The commit for a usable key. *)
Lemma commit_key_retained k now w :
  mounted w = true -> deps_changed w (Some k) = true ->
  valid_key (Some k) = Some k ->
  let w' := commit (Some k) now w in
  retained w' = (currentCount w, true, venueCapacity w)
  /\ pending w' = pending w ++ [(next_call w, AwaitEvent)]
  /\ mounted w' = true.
Proof.
  intros Hm Hd Hk. cbv zeta. unfold commit. rewrite Hd.
  unfold effect. rewrite Hk.
  set (w1 := if has_cleanup w then cleanup w else w).
  assert (R1 : retained w1 = retained w /\ pending w1 = pending w /\ mounted w1 = true).
  { unfold w1. destruct (has_cleanup w);
      rewrite ?cleanup_retained, ?cleanup_pending, ?cleanup_mounted; auto. }
  destruct R1 as (Rr & Rp & Rm).
  set (w2 := cleanup (with_env (log "Setting up venue occupancy for event:") w1)).
  assert (R2 : retained w2 = retained w /\ pending w2 = pending w /\ mounted w2 = true).
  { unfold w2. rewrite cleanup_retained, cleanup_pending, cleanup_mounted. auto. }
  destruct R2 as (R2r & R2p & R2m).
  destruct (subscribe (channel_topic k now) (Some k) (env w2)) as [c e].
  unfold fetchData, setLoading. cbn [mounted with_ref with_env].
  rewrite R2m. cbn. unfold retained in R2r. injection R2r as -> _ ->.
  rewrite R2p.
  assert (N : next_call w2 = next_call w).
  { unfold w2, w1. rewrite cleanup_next_call. cbn [next_call with_env].
    destruct (has_cleanup w); rewrite ?cleanup_next_call; reflexivity. }
  rewrite N. auto.
Qed.

(** The render with a usable key. *)
Lemma render_key_retained k now w :
  mounted w = true -> deps_changed w (Some k) = true ->
  valid_key (Some k) = Some k ->
  let w' := step (Render (Some k) now) w in
  retained w' = (currentCount w, true, venueCapacity w)
  /\ pending w' = pending w ++ [(next_call w, AwaitEvent)]
  /\ mounted w' = true.
Proof.
  intros Hm Hd Hk. cbv zeta. unfold step. rewrite Hm.
  exact (commit_key_retained k now (with_env (log "Render state:") w) Hm Hd Hk).
Qed.

(** X14: switching to another event keeps what the view holds: on the
    render with the new key only the loading flag changes, and a fetch
    is started beside those already in flight, none of which is
    cancelled.  When the new event has no usable capacity (absent, null
    or zero) and its reads succeed, the capacity shown afterwards is
    the one held for the previous event. *)
Theorem capacity_carries_over (w : World) (k : string) (now : Z) :
  mounted w = true -> deps_changed w (Some k) = true ->
  valid_key (Some k) = Some k ->
  let w1 := step (Render (Some k) now) w in
  retained w1 = (currentCount w, true, venueCapacity w)
  /\ pending w1 = pending w ++ [(next_call w, AwaitEvent)]
  /\ (forall eventData attendanceData attendanceError,
        JS.truthy (fetched_capacity eventData) = false ->
        unexpected attendanceError = None ->
        retained
          (run [EventSettled (next_call w) (Resolved eventData None);
                AttendanceSettled (next_call w)
                  (Resolved attendanceData attendanceError)] w1)
        = (match attendanceData with Some row => count row | None => JS.Num 0 end,
           false, venueCapacity w)).
Proof.
  intros Hm Hd Hk. cbv zeta.
  destruct (render_key_retained k now w Hm Hd Hk) as (Hr & Hp & Hm1).
  cbv zeta in Hr, Hp, Hm1.
  split; [exact Hr|]. split; [exact Hp|].
  intros eventData attendanceData attendanceError Hc He.
  set (w1 := step (Render (Some k) now) w) in *.
  assert (Hp1 : is_pending (next_call w) AwaitEvent w1 = true).
  { unfold is_pending. rewrite Hp, existsb_app. cbn.
    rewrite Nat.eqb_refl. cbn. apply orb_true_r. }
  unfold run. cbn [fold_left].
  pose proof (event_settled (next_call w) eventData w1 Hm1 Hp1) as E1.
  assert (Hm2 : mounted (step (EventSettled (next_call w) (Resolved eventData None)) w1)
                = true) by (rewrite E1; exact Hm1).
  assert (Hp2 : is_pending (next_call w) AwaitAttendance
                  (step (EventSettled (next_call w) (Resolved eventData None)) w1)
                = true).
  { rewrite E1. unfold is_pending. cbn [pending].
    apply (is_pending_requeued (next_call w) AwaitAttendance AwaitAttendance). }
  rewrite (attendance_settled _ _ _ _ Hm2 Hp2 He). rewrite E1.
  unfold retained. cbn [currentCount venueCapacity loading]. rewrite Hc.
  unfold retained in Hr. injection Hr as _ _ ->. reflexivity.
Qed.

(** X14: from event A with capacity 5000 to event B with none. *)
Lemma capacity_carries_over_sample :
  let w := run [Render (Some "A"%string) 1000;
                EventSettled 0
                  (Resolved (Some {| venue_capacity := JS.VNum (JS.Num 5000) |}) None);
                AttendanceSettled 0 (Resolved (Some {| count := JS.Num 4200 |}) None)]
               initial in
  retained
    (run [EventSettled (next_call w)
            (Resolved (Some {| venue_capacity := JS.VNull |}) None);
          AttendanceSettled (next_call w)
            (Resolved (Some {| count := JS.Num 10 |}) None)]
         (step (Render (Some "B"%string) 2000) w))
  = (JS.Num 10, false, venueCapacity w).
Proof.
  intros w.
  destruct (capacity_carries_over w "B" 2000) as (_ & _ & H);
    [vm_compute; reflexivity | vm_compute; reflexivity | reflexivity |].
  exact (H (Some {| venue_capacity := JS.VNull |})
           (Some {| count := JS.Num 10 |}) None eq_refl eq_refl).
Defined.

End OccupancyReads.
(* ------------------------------------------------------------------ *)
(** * The occupancy view: keys, notifications and what is shown         *)
(* ------------------------------------------------------------------ *)

Section OccupancyKeys.

Import Backend Async VenueOccupancy Spec Inv.
Local Open Scope list_scope.
Local Arguments channel_topic : simpl never.

Lemma idle_no_cleanup w : subscriptionRef w = None -> cleanup w = w.
Proof. intros H. unfold cleanup. rewrite H. reflexivity. Qed.

Lemma idle_step ev w : keyless ev = true -> idle w -> idle (step ev w).
Proof.
  intros Hk (Hr & Hp & Hs & Hl & Ho).
  destruct ev as [k now| |call r|call r|kind event_id payload].
  - cbn [keyless] in Hk. unfold step.
    destruct (mounted w); [|repeat split; assumption].
    set (w0 := with_env (log "Render state:") w).
    assert (I0 : idle w0) by (repeat split; assumption).
    clearbody w0. clear w Hr Hp Hs Hl Ho.
    destruct I0 as (Hr & Hp & Hs & Hl & Ho).
    unfold commit.
    destruct (deps_changed w0 k); [|repeat split; assumption].
    unfold effect. destruct (valid_key k); [discriminate|].
    replace (if has_cleanup w0 then cleanup w0 else w0) with w0
      by (destruct (has_cleanup w0); rewrite ?idle_no_cleanup; auto).
    rewrite idle_no_cleanup by exact Hs.
    repeat split; assumption.
  - unfold step. destruct (mounted w); [|repeat split; assumption].
    replace (if has_cleanup w then cleanup w else w) with w
      by (destruct (has_cleanup w); rewrite ?idle_no_cleanup; auto).
    repeat split; assumption.
  - unfold step, resume, is_pending. rewrite Hp. repeat split; assumption.
  - unfold step, resume, is_pending. rewrite Hp. repeat split; assumption.
  - unfold step. rewrite Hl. repeat split; assumption.
Qed.

Lemma idle_run evs w : forallb keyless evs = true -> idle w -> idle (run evs w).
Proof.
  revert w. induction evs as [|ev evs IH]; intros w Hk Hw; [exact Hw|].
  cbn [forallb] in Hk. apply andb_prop in Hk. destruct Hk as [Hk Hks].
  apply IH; [exact Hks|]. apply idle_step; assumption.
Qed.

(** X15: as long as the view has not been rendered with a usable key
    (no key, or the empty string), it stays as it was created: it shows
    the loading placeholder, whatever key it is rendered with next, and
    never the text "No event selected"; it makes no read and opens no
    channel. *)
Theorem skeleton_without_key (evs : list Event) :
  forallb keyless evs = true ->
  let w := run evs initial in
  (forall k, render k w = (Skeleton, []))
  /\ retained w = (JS.Num 0, true, JS.Num 3500)
  /\ pending w = []
  /\ ops (env w) = [].
Proof.
  intros Hk. cbv zeta.
  destruct (idle_run evs initial Hk) as (Hr & Hp & _ & _ & Ho).
  { repeat split; reflexivity. }
  split; [|split; [exact Hr|split; assumption]].
  intros k. unfold render. unfold retained in Hr. injection Hr as _ -> _.
  reflexivity.
Qed.

(** X15 for a view rendered with no key and with the empty key, then
    notified. *)
Lemma skeleton_without_key_sample :
  render None
    (run [Render None 1000; Render (Some ""%string) 2000;
          Notification INSERT "A" {| new := JS.VObj [("count"%string, JS.VNum (JS.Num 7))] |}]
         initial)
  = (Skeleton, []).
Proof.
  exact (proj1 (skeleton_without_key
                  [Render None 1000; Render (Some ""%string) 2000;
                   Notification INSERT "A"
                     {| new := JS.VObj [("count"%string, JS.VNum (JS.Num 7))] |}]
                  eq_refl) None).
Defined.

(** ** The key of the channel *)

Lemma frame_filters w w' :
  occupancy_frame w' = occupancy_frame w -> filters_key w -> filters_key w'.
Proof.
  unfold occupancy_frame, filters_key. intros E H.
  injection E as _ _ -> _ _ ->. exact H.
Qed.

Lemma cleanup_ref w : subscriptionRef (cleanup w) = None.
Proof. unfold cleanup. destruct (subscriptionRef w) eqn:E; [reflexivity|exact E]. Qed.

Lemma fetchData_ref w : subscriptionRef (fetchData w) = subscriptionRef w.
Proof. unfold fetchData, setLoading. destruct (mounted w); reflexivity. Qed.

Lemma step_filters ev w :
  occupancy_lifecycle_inv w -> filters_key w -> filters_key (step ev w).
Proof.
  intros (Hc & Hn & Hu) H.
  destruct ev as [k now| |call r|call r|kind event_id payload].
  - unfold step. destruct (mounted w); [|exact H].
    set (w0 := with_env (log "Render state:") w).
    assert (H0 : filters_key w0) by exact H.
    clearbody w0. unfold commit.
    destruct (deps_changed w0 k); [|exact H0].
    unfold effect. destruct (valid_key k) as [k'|] eqn:V.
    + destruct (subscribe _ (Some k') _) as [c e] eqn:S.
      unfold subscribe in S. injection S as <- _.
      intros c'. cbn [with_lifecycle subscriptionRef deps].
      rewrite fetchData_ref. cbn [with_ref subscriptionRef].
      intros [= <-]. cbn [filter].
      rewrite (valid_key_some _ _ V). reflexivity.
    + intros c. cbn [with_lifecycle subscriptionRef].
      rewrite cleanup_ref. discriminate.
  - unfold step. destruct (mounted w) eqn:Hm; [|exact H].
    intros c. cbn [with_lifecycle subscriptionRef].
    destruct (has_cleanup w) eqn:Hh.
    + rewrite cleanup_ref. discriminate.
    + rewrite (Hn eq_refl). discriminate.
  - apply (frame_filters w); [apply settle_frame; reflexivity | exact H].
  - apply (frame_filters w); [apply settle_frame; reflexivity | exact H].
  - apply (frame_filters w); [apply notification_frame | exact H].
Qed.

Lemma run_filters evs w :
  occupancy_lifecycle_inv w -> filters_key w -> filters_key (run evs w).
Proof.
  revert w. induction evs as [|ev evs IH]; intros w Hi H; [exact H|].
  apply IH; [apply step_inv, Hi | apply step_filters; assumption].
Qed.

Lemma initial_filters : filters_key initial.
Proof. intros c H. discriminate H. Qed.

(** X16: after any history, a pushed change of a row of another event
    than the one the view was last rendered with changes nothing at
    all, a pushed deletion changes nothing whatever its event, and an
    unmounted view ignores every notification. *)
Theorem foreign_notifications_ignored (evs : list Event)
  (kind : ChangeKind) (event_id : string) (payload : Payload) :
  let w := run evs initial in
  (deps w <> Some (Some event_id) ->
   step (Notification kind event_id payload) w = w)
  /\ step (Notification DELETE event_id payload) w = w
  /\ (mounted w = false -> step (Notification kind event_id payload) w = w).
Proof.
  cbv zeta.
  pose proof (run_inv evs initial initial_inv) as Hinv.
  pose proof (run_filters evs initial initial_inv initial_filters) as Hf.
  set (w := run evs initial) in *. clearbody w.
  destruct Hinv as (Hc & Hn & Hu). unfold occupancy_channel_inv in Hc.
  unfold step. rewrite Hc.
  destruct (subscriptionRef w) as [c|] eqn:R; cbn [held fold_left];
    [|repeat split; reflexivity].
  pose proof (Hf c R) as Hd.
  split; [|split].
  - intros Hne. unfold deliver.
    destruct (key_eqb (filter c) (Some event_id)) eqn:K; [|reflexivity].
    exfalso. apply Hne. rewrite Hd. unfold key_eqb in K.
    destruct (filter c) as [x|]; [|discriminate].
    apply String.eqb_eq in K. subst x. reflexivity.
  - unfold deliver. destruct (key_eqb (filter c) (Some event_id)); reflexivity.
  - intros Hm. specialize (Hn (Hu Hm)). congruence.
Qed.

(** X16: the view shows event A; a row of event B is inserted. *)
Lemma foreign_notifications_ignored_sample :
  let w := run [Render (Some "A"%string) 1000] initial in
  step (Notification INSERT "B"
          {| new := JS.VObj [("count"%string, JS.VNum (JS.Num 7))] |}) w = w.
Proof.
  intros w.
  apply (proj1 (foreign_notifications_ignored [Render (Some "A"%string) 1000]
                  INSERT "B"
                  {| new := JS.VObj [("count"%string, JS.VNum (JS.Num 7))] |})).
  vm_compute. discriminate.
Defined.

(** X17: an unmounted view is inert: whatever happens after the unmount
    (late results, notifications, further renders), the count, the
    loading flag and the capacity it holds are unchanged, no channel is
    opened and none is closed. *)
Theorem unmounted_occupancy_is_inert (before after : list Event) :
  let w := step Unmount (run before initial) in
  let w' := run after w in
  retained w' = retained w
  /\ live (env w') = []
  /\ ops (env w') = ops (env w)
  /\ mounted w' = false.
Proof.
  cbv zeta.
  pose proof (run_inv before initial initial_inv) as Hinv.
  pose proof (unmount_closes _ Hinv) as [Hlive _]. cbv zeta in Hlive.
  assert (Hm : mounted (step Unmount (run before initial)) = false).
  { unfold step. destruct (mounted (run before initial)) eqn:E; [reflexivity|exact E]. }
  set (w := step Unmount (run before initial)) in *. clearbody w.
  revert w Hlive Hm. induction after as [|ev evs IH]; intros w Hlive Hm.
  - auto.
  - change (run (ev :: evs) w) with (run evs (step ev w)).
    assert (S : retained (step ev w) = retained w
                /\ occupancy_frame (step ev w) = occupancy_frame w).
    { destruct ev as [k now| |call r|call r|kind event_id payload].
      - unfold step. rewrite Hm. auto.
      - unfold step. rewrite Hm. auto.
      - split; [apply settle_unmounted | apply settle_frame]; auto.
      - split; [apply settle_unmounted | apply settle_frame]; auto.
      - unfold step. rewrite Hlive. auto. }
    destruct S as [Sr Sf]. unfold occupancy_frame in Sf.
    injection Sf as Sl So _ _ Sm _.
    destruct (IH (step ev w)) as (I1 & I2 & I3 & I4); [congruence|congruence|].
    repeat split; congruence.
Qed.

(** ** What is shown *)

(** X18: once loaded and rendered with a usable key, the view shows the
    gauge (percentage, bar) exactly when the capacity it holds is a
    number greater than 0: not for 0, not for a negative capacity, and
    not for the [NaN] that [parseInt] makes of a text without digits.
    Without the gauge nothing is divided; with it the only divisor is
    the capacity. *)
Theorem gauge_shown_iff_positive_capacity (k : string) (w : World) :
  loading w = false -> valid_key (Some k) = Some k ->
  ((exists g, fst (render (Some k) w)
              = Occupancy (currentCount w) (venueCapacity w) (Some g))
   <-> exists z, venueCapacity w = JS.Num z /\ 0 < z)
  /\ ((forall z, venueCapacity w = JS.Num z -> z <= 0) ->
      render (Some k) w = (Occupancy (currentCount w) (venueCapacity w) None, []))
  /\ (forall d, In d (snd (render (Some k) w)) -> d = venueCapacity w)
  /\ JS.parseInt (JS.VStr "unknown") = JS.NaN.
Proof.
  intros Hl Hk. unfold render. rewrite Hl, Hk.
  destruct (venueCapacity w) as [z|] eqn:V; cbn [JS.gt].
  - destruct (Z.ltb_spec 0 z) as [Hz|Hz].
    + split; [|split; [|split]].
      * split; [intros _; exists z; auto|]. intros _.
        eexists. reflexivity.
      * intros H. specialize (H z eq_refl). lia.
      * cbn. intros d [<-|[<-|[]]]; reflexivity.
      * reflexivity.
    + split; [|split; [|split]].
      * split; [intros [g Hg]; discriminate Hg|].
        intros (z' & [= <-] & Hz'). lia.
      * reflexivity.
      * intros d [].
      * reflexivity.
  - split; [|split; [|split]].
    + split; [intros [g Hg]; discriminate Hg|].
      intros (z' & Hz' & _). discriminate Hz'.
    + reflexivity.
    + intros d [].
    + reflexivity.
Qed.

(** X18 for a capacity read from a text without digits. *)
Lemma gauge_shown_iff_positive_capacity_sample :
  let w := run [Render (Some "A"%string) 1000;
                EventSettled 0
                  (Resolved (Some {| venue_capacity := JS.VStr "unknown" |}) None);
                AttendanceSettled 0 (Resolved (Some {| count := JS.Num 10 |}) None)]
               initial in
  render (Some "A"%string) w = (Occupancy (JS.Num 10) JS.NaN None, []).
Proof.
  intros w.
  destruct (gauge_shown_iff_positive_capacity "A" w) as (_ & H & _);
    [vm_compute; reflexivity | reflexivity |].
  apply H. intros z Hz. vm_compute in Hz. discriminate Hz.
Defined.

End OccupancyKeys.
(* ------------------------------------------------------------------ *)
(** * The filter cards of the dashboard                                 *)
(* ------------------------------------------------------------------ *)

Section FilterCards.

Import DashboardView.
Local Open Scope list_scope.

Lemma click_toggles stats f i :
  click stats i f
  = match key_at i with
    | Some k => if filter_eqb f k then None else Some k
    | None => f
    end.
Proof.
  unfold click, cards.
  do 6 (destruct i as [|i]; [reflexivity|]).
  cbn. destruct i; reflexivity.
Qed.

Lemma key_at_known i k :
  key_at i = Some k ->
  In k [ "high"; "open"; "closed"; "refusals"; "ejections" ]%string.
Proof.
  destruct i as [|i]; [discriminate|]. cbn [key_at]. apply nth_error_In.
Qed.

Lemma highlighted_count stats f :
  List.length (List.filter highlighted (cards stats f))
  = match f with
    | Some k =>
        if existsb (String.eqb k) [ "high"; "open"; "closed"; "refusals"; "ejections" ]
        then 1%nat else 0%nat
    | None => 0%nat
    end.
Proof.
  destruct f as [k|]; [|reflexivity].
  unfold cards, filter_card, StatCard, highlighted, filter_eqb.
  cbn [map isFilterable isSelected border andb existsb].
  destruct (String.eqb_spec k "high") as [->|_]; [reflexivity|].
  destruct (String.eqb_spec k "open") as [->|_]; [reflexivity|].
  destruct (String.eqb_spec k "closed") as [->|_]; [reflexivity|].
  destruct (String.eqb_spec k "refusals") as [->|_]; [reflexivity|].
  destruct (String.eqb_spec k "ejections") as [->|_]; reflexivity.
Qed.

Lemma after_clicks_known stats clicks f0 :
  (forall k, f0 = Some k ->
     In k [ "high"; "open"; "closed"; "refusals"; "ejections" ]%string) ->
  forall k, fold_left (fun f i => click stats i f) clicks f0 = Some k ->
    In k [ "high"; "open"; "closed"; "refusals"; "ejections" ]%string.
Proof.
  revert f0. induction clicks as [|i l IH]; intros f0 H0; [exact H0|].
  cbn [fold_left]. apply IH. intros k. rewrite click_toggles.
  destruct (key_at i) as [k'|] eqn:K; [|apply H0].
  destruct (filter_eqb f0 k'); [discriminate|].
  intros [= <-]. eapply key_at_known. exact K.
Qed.

(** X19: a click on one of the five filter cards selects its filter,
    unless that filter is selected already, in which case the click
    clears it; a click on "Total Incidents" changes nothing.  Whatever
    the filter, at most one card is drawn with the red border, and after
    any series of clicks on a fresh dashboard exactly one is when a
    filter is selected and none otherwise. *)
Theorem filter_cards_toggle (stats : Dashboard.Stats) :
  (forall f i,
      click stats i f
      = match key_at i with
        | Some k => if filter_eqb f k then None else Some k
        | None => f
        end)
  /\ key_at 0 = None
  /\ (forall f, (List.length (List.filter highlighted (cards stats f)) <= 1)%nat)
  /\ (forall clicks,
        List.length (List.filter highlighted (cards stats (after_clicks stats clicks)))
        = match after_clicks stats clicks with Some _ => 1%nat | None => 0%nat end).
Proof.
  split; [apply click_toggles|]. split; [reflexivity|]. split.
  - intros f. rewrite highlighted_count.
    destruct f as [k|]; [|lia]. destruct (existsb _ _); lia.
  - intros clicks. rewrite highlighted_count.
    destruct (after_clicks stats clicks) as [k|] eqn:E; [|reflexivity].
    pose proof (after_clicks_known stats clicks None
                  ltac:(intros ? H; discriminate H) k E) as Hk.
    replace (existsb (String.eqb k) _) with true; [reflexivity|].
    symmetry. apply existsb_exists. exists k. split; [exact Hk|].
    apply String.eqb_refl.
Qed.

End FilterCards.
(* ------------------------------------------------------------------ *)
(** * Renders that change nothing, and the end of a fetch               *)
(* ------------------------------------------------------------------ *)

Section Renders.

Import Backend Async Spec.
Local Open Scope list_scope.

Lemma key_eqb_refl k : VenueOccupancy.key_eqb k k = true.
Proof. destruct k as [s|]; [apply String.eqb_refl | reflexivity]. Qed.

(** X21: the effects run when their dependencies change and not
    otherwise.  Rendering the occupancy view again with the key it was
    last rendered with runs the component body, which logs the state,
    and nothing else: no cleanup, no effect, so no channel is closed or
    opened and no read is started.  Rendering the dashboard again, whose
    body logs nothing, changes nothing at all.  This holds whatever the
    state and the times of the renders; an unmounted instance is not
    rendered. *)
Theorem rerender_runs_no_effect :
  (forall w k now now',
      let w1 := VenueOccupancy.step (VenueOccupancy.Render k now) w in
      VenueOccupancy.step (VenueOccupancy.Render k now') w1
      = if VenueOccupancy.mounted w
        then VenueOccupancy.with_env (log "Render state:") w1
        else w1)
  /\ (forall w now now',
      Dashboard.step (Dashboard.Render now') (Dashboard.step (Dashboard.Render now) w)
      = Dashboard.step (Dashboard.Render now) w).
Proof.
  split.
  - intros w k now now'. cbv zeta.
    destruct (VenueOccupancy.mounted w) eqn:Hm.
    + assert (H : VenueOccupancy.mounted
                    (VenueOccupancy.step (VenueOccupancy.Render k now) w) = true
                  /\ VenueOccupancy.deps_changed
                       (VenueOccupancy.step (VenueOccupancy.Render k now) w) k = false).
      { unfold VenueOccupancy.step. rewrite Hm. unfold VenueOccupancy.commit.
        destruct (VenueOccupancy.deps_changed _ k) eqn:D.
        - destruct (VenueOccupancy.effect k now _) as [w2 returned].
          unfold VenueOccupancy.deps_changed.
          cbn [VenueOccupancy.with_lifecycle VenueOccupancy.deps
               VenueOccupancy.mounted].
          rewrite key_eqb_refl. auto.
        - split; [exact Hm | exact D]. }
      destruct H as [Hm1 D1].
      set (w1 := VenueOccupancy.step (VenueOccupancy.Render k now) w) in *.
      unfold VenueOccupancy.step. rewrite Hm1. unfold VenueOccupancy.commit.
      change (VenueOccupancy.deps_changed
                (VenueOccupancy.with_env (log "Render state:") w1) k)
        with (VenueOccupancy.deps_changed w1 k).
      rewrite D1. reflexivity.
    + assert (E : VenueOccupancy.step (VenueOccupancy.Render k now) w = w)
        by (unfold VenueOccupancy.step; rewrite Hm; reflexivity).
      rewrite E. unfold VenueOccupancy.step. rewrite Hm. reflexivity.
  - intros w now now'.
    assert (H : Dashboard.step (Dashboard.Render now) w = w
                /\ Dashboard.mounted w && negb (Dashboard.effect_ran w) = false
                \/ Dashboard.effect_ran (Dashboard.step (Dashboard.Render now) w) = true).
    { unfold Dashboard.step.
      destruct (Dashboard.mounted w && negb (Dashboard.effect_ran w)) eqn:C;
        [right; reflexivity|left; auto]. }
    destruct H as [[E C]|D].
    + rewrite E. unfold Dashboard.step. rewrite C. reflexivity.
    + set (w1 := Dashboard.step (Dashboard.Render now) w) in *.
      unfold Dashboard.step. rewrite D, andb_false_r. reflexivity.
Qed.

End Renders.

Section FetchEnds.

Import Backend Async VenueOccupancy Spec.
Local Open Scope list_scope.

Ltac fsettle Hm :=
  unfold fetchData_event, fetchData_attendance,
    try_catch_finally, fetchData_catch, fetchData_finally,
    bind, exec, ret, throw, setCurrentCount, setVenueCapacity, setLoading,
    drop_call, with_pending, with_env;
  cbn; rewrite ?Hm; cbn.

Lemma fetch_dropped call ph (l : list (nat * Phase)) :
  existsb (fun p => Nat.eqb (fst p) call && phase_eqb (snd p) ph)
          (List.filter (fun p => negb (Nat.eqb (fst p) call)) l) = false.
Proof.
  induction l as [|[c q] l IH]; [reflexivity|].
  simpl. destruct (Nat.eqb c call) eqn:E; simpl; [exact IH|].
  rewrite E. simpl. exact IH.
Qed.

(** X22: on a mounted view a fetch cannot end with the loading
    placeholder left on: when the first read settles, either the call
    goes on to the second read, or it is over and the view has stopped
    loading; when the second read settles, however it settles, the call
    is over and the view has stopped loading. *)
Theorem fetch_end_clears_loading (w : World) (call : nat) :
  mounted w = true ->
  (is_pending call AwaitEvent w = true ->
   forall r,
     let w' := step (EventSettled call r) w in
     (is_pending call AwaitAttendance w' = true /\ loading w' = loading w)
     \/ (loading w' = false /\ forall ph, is_pending call ph w' = false))
  /\ (is_pending call AwaitAttendance w = true ->
      forall r,
        let w' := step (AttendanceSettled call r) w in
        loading w' = false /\ forall ph, is_pending call ph w' = false).
Proof.
  intros Hm. split; intros Hp r; cbv zeta; unfold step, resume; rewrite Hp.
  - destruct r as [data [e|]|reason].
    + right. fsettle Hm. split; [reflexivity|]. intros ph. apply fetch_dropped.
    + left. fsettle Hm.
      destruct (JS.truthy (fetched_capacity data)); cbn; rewrite ?Hm; cbn;
        (split; [|reflexivity]); unfold is_pending; cbn;
        apply (is_pending_requeued call AwaitAttendance AwaitAttendance).
    + right. fsettle Hm. split; [reflexivity|]. intros ph. apply fetch_dropped.
  - destruct r as [data e|reason].
    + fsettle Hm. destruct (unexpected e); cbn; rewrite ?Hm; cbn.
      * split; [reflexivity|]. intros ph. apply fetch_dropped.
      * destruct data; cbn; rewrite ?Hm; cbn; rewrite ?Hm; cbn;
          (split; [reflexivity|]); intros ph; apply fetch_dropped.
    + fsettle Hm. split; [reflexivity|]. intros ph. apply fetch_dropped.
Qed.

(** X22 for the fetch of the first render, its first read rejected. *)
Lemma fetch_end_clears_loading_sample :
  loading (step (EventSettled 0 (Rejected "network error"))
             (run [Render (Some "A"%string) 1000] initial)) = false.
Proof.
  destruct (proj1 (fetch_end_clears_loading
                     (run [Render (Some "A"%string) 1000] initial) 0 eq_refl)
                  eq_refl (Rejected "network error")) as [[H _]|[H _]].
  - discriminate H.
  - exact H.
Defined.

End FetchEnds.
(* ------------------------------------------------------------------ *)
(** * The countdown right after a refresh of the schedule               *)
(* ------------------------------------------------------------------ *)

Section FreshCountdown.

Import TimeCard Spec Reference.
Local Open Scope list_scope.

(** X23: the schedule and the countdown together, in any time zone.
    When the countdown is computed at the instant of the read that
    chose its target, the target's time reads [h:m] with [h] below 24
    and [m] below 60, and that local time of today is read with the
    offset in force now (the clocks do not change between now and the
    target), then the target is today: the countdown is the time left
    until [h:m:00] of the current local day, at least one second and
    less than a day, and it has not rolled over to the next day. *)
Theorem fresh_countdown_is_today (tz : Date.Zone) (event : EventRow) (now_tv : Z)
  (st : State) (e : EventTiming) (h m : Z) :
  let tl := Date.LocalTime tz now_tv in
  nextEvent (fetchEventTimings (Some event) (Date.local tz (JS.Num now_tv)) st)
  = Some e ->
  hours_minutes (time e) = (JS.Num h, JS.Num m) ->
  0 <= h < 24 -> 0 <= m < 60 ->
  Date.offset_of_local tz (target_local tl h m) = Date.offset_at tz now_tv ->
  let s := 3600 * h + 60 * m - (tl mod 86400000) / 1000 in
  0 < s < 86400
  /\ eventTime tz (JS.Num now_tv) e = JS.Num (now_tv + 1000 * s)
  /\ countdown (tick tz (JS.Num now_tv)
                  (fetchEventTimings (Some event) (Date.local tz (JS.Num now_tv)) st))
     = (JS.toString (JS.Num (s / 3600)) ++ "h " ++
        JS.toString (JS.Num (s mod 3600 / 60)) ++ "m " ++
        JS.toString (JS.Num (s mod 60)) ++ "s")%string.
Proof.
  intros tl He Hhm Hh Hm Hoff s.
  destruct (nextEvent_head event (Date.local tz (JS.Num now_tv)) st e He)
    as (x & l & _ & _ & _ & kx & _ & Hmin & Hgt).
  change (Date.local tz (JS.Num now_tv)) with (JS.Num tl) in *.
  destruct (currentTimeNumber_minute tl) as [Hc Hr].
  rewrite Hc in Hgt. cbn [JS.gt] in Hgt. apply Z.ltb_lt in Hgt.
  unfold minutes_of, timeInMinutes in Hmin. rewrite Hhm in Hmin.
  cbn [JS.mul JS.add] in Hmin. injection Hmin as Hk.
  assert (B : 0 <= tl mod 86400000 < 86400000) by (apply Z.mod_pos_bound; lia).
  assert (Hd : (tl mod 86400000) / 1000 < 60 * ((tl mod 86400000) / 60000 + 1)).
  { apply Z.div_lt_upper_bound; [lia|].
    pose proof (Z.mod_pos_bound (tl mod 86400000) 60000 ltac:(lia)).
    pose proof (Z.div_mod (tl mod 86400000) 60000 ltac:(lia)). lia. }
  assert (Hd0 : 0 <= (tl mod 86400000) / 1000) by (apply Z.div_pos; lia).
  assert (Hs : 0 < s < 86400) by (unfold s; lia).
  assert (Es : seconds_until tl h m = s).
  { unfold seconds_until. fold s. apply Z.mod_small. lia. }
  assert (Hsteady : steady_clock tz now_tv h m).
  { split; [exact Hoff|]. intros Hpast. exfalso. fold tl in Hpast.
    rewrite target_local_seconds in Hpast. fold s in Hpast. lia. }
  destruct (calculateCountdown_seconds tz now_tv e h m Hhm Hh Hm Hsteady)
    as (_ & Ht & Htext).
  fold tl in Ht, Htext. rewrite Es in Ht, Htext.
  split; [exact Hs|]. split; [exact Ht|].
  unfold tick. rewrite He. cbn [countdown]. exact Htext.
Qed.

(** X23 for the sample event read in London on 15 June 2026 at 19:59:30
    summer time (18:59:30 UTC). *)
Lemma fresh_countdown_is_today_sample :
  countdown (tick europe_london_2026 (JS.Num 1781549970000)
               (fetchEventTimings (Some sample_event)
                  (Date.local europe_london_2026 (JS.Num 1781549970000)) initial))
  = "0h 0m 30s".
Proof.
  destruct (fresh_countdown_is_today europe_london_2026 sample_event 1781549970000
              initial {| title := "Main Act"; time := "20:00"; isNext := true |} 20 0)
    as (_ & _ & H);
    [vm_compute; reflexivity | vm_compute; reflexivity | lia | lia | reflexivity |].
  exact H.
Defined.

End FreshCountdown.
